(** * Verification of the Antigravity transformation core

    A shallow embedding of the request / response transformers, the model
    router and the token manager of claude-code-router's Antigravity
    plug-ins, together with the properties their specification states.

    Layout: data model and functions first (one module per source unit),
    the theorems afterwards. *)

From Stdlib Require Import String Ascii List ZArith Bool Lia Arith Sorted.
Import ListNotations.
Local Open Scope string_scope.
Local Open Scope list_scope.

(* ================================================================== *)
(** ** JSON values as JavaScript sees them *)
(* ================================================================== *)

Module Json.

(** A parsed JSON value.  Objects keep their entries in the order
    [Object.entries] enumerates them.  Numbers are never computed with by
    the code below, only passed along and tested for truthiness, so an
    integer stands for a number. *)
#[local] Unset Elimination Schemes.
Inductive JSON : Type :=
| JNull
| JBool (b : bool)
| JNum (n : Z)
| JStr (s : string)
| JArr (elems : list JSON)
| JObj (fields : list (string * JSON)).
#[local] Set Elimination Schemes.

(** An induction principle that reaches inside arrays and objects. *)
Section DeepInduction.
Variable P : JSON -> Prop.
Hypothesis Hnull : P JNull.
Hypothesis Hbool : forall b, P (JBool b).
Hypothesis Hnum : forall n, P (JNum n).
Hypothesis Hstr : forall s, P (JStr s).
Hypothesis Harr : forall elems, Forall P elems -> P (JArr elems).
Hypothesis Hobj :
  forall fields, Forall (fun kv => P (snd kv)) fields -> P (JObj fields).

Fixpoint JSON_ind (j : JSON) : P j :=
  match j with
  | JNull => Hnull
  | JBool b => Hbool b
  | JNum n => Hnum n
  | JStr s => Hstr s
  | JArr elems =>
      Harr elems
        ((fix all (l : list JSON) : Forall P l :=
            match l with
            | [] => Forall_nil P
            | x :: t => Forall_cons x (JSON_ind x) (all t)
            end) elems)
  | JObj fields =>
      Hobj fields
        ((fix all (l : list (string * JSON))
            : Forall (fun kv => P (snd kv)) l :=
            match l with
            | [] => Forall_nil _
            | kv :: t =>
                Forall_cons kv (JSON_ind (snd kv)) (all t)
            end) fields)
  end.
End DeepInduction.

(** JavaScript truthiness of a value that is present. *)
Definition truthy (j : JSON) : bool :=
  match j with
  | JNull => false
  | JBool b => b
  | JNum n => negb (Z.eqb n 0)
  | JStr s => negb (String.eqb s "")
  | JArr _ => true
  | JObj _ => true
  end.

(** Truthiness of a property read, [None] being [undefined]. *)
Definition truthy_opt (o : option JSON) : bool :=
  match o with
  | Some j => truthy j
  | None => false
  end.

(** [typeof v === 'object']: objects, arrays and [null]. *)
Definition typeof_object (j : JSON) : bool :=
  match j with
  | JNull | JArr _ | JObj _ => true
  | _ => false
  end.

Definition isArray (j : JSON) : bool :=
  match j with
  | JArr _ => true
  | _ => false
  end.

(** [Object.keys(v).length]; [None] is the TypeError raised on [null]. *)
Definition keys_length (j : JSON) : option nat :=
  match j with
  | JNull => None
  | JBool _ | JNum _ => Some 0
  | JStr s => Some (String.length s)
  | JArr elems => Some (List.length elems)
  | JObj fields => Some (List.length fields)
  end.

(** Property read [obj.key]. *)
Fixpoint obj_get (key : string) (fields : list (string * JSON))
  : option JSON :=
  match fields with
  | [] => None
  | (k, v) :: rest => if String.eqb k key then Some v else obj_get key rest
  end.

(** Property write [obj[key] = v]: an existing key keeps its place. *)
Fixpoint obj_set (key : string) (v : JSON) (fields : list (string * JSON))
  : list (string * JSON) :=
  match fields with
  | [] => [(key, v)]
  | (k, w) :: rest =>
      if String.eqb k key then (k, v) :: rest
      else (k, w) :: obj_set key v rest
  end.

(** [delete obj.key]. *)
Definition obj_delete (key : string) (fields : list (string * JSON))
  : list (string * JSON) :=
  filter (fun kv => negb (String.eqb (fst kv) key)) fields.

(** Truthiness of an optional string property. *)
Definition present (o : option string) : bool :=
  match o with
  | Some s => negb (String.eqb s "")
  | None => false
  end.

(** [o || fallback] on an optional string. *)
Definition or_else (o : option string) (fallback : string) : string :=
  match o with
  | Some s => if String.eqb s "" then fallback else s
  | None => fallback
  end.

(** [a === b] on optional strings; [undefined === undefined] holds. *)
Definition same_id (a b : option string) : bool :=
  match a, b with
  | Some x, Some y => String.eqb x y
  | None, None => true
  | _, _ => false
  end.

(** [hay.includes(needle)] *)
Fixpoint includes (hay needle : string) : bool :=
  String.prefix needle hay
  || match hay with
     | EmptyString => false
     | String _ rest => includes rest needle
     end.

End Json.
Import Json.

(* ================================================================== *)
(** ** Schema sanitizer: [cleanParameters] *)
(* ================================================================== *)

Module Sanitizer.

(** The keys [cleanParameters] skips for the upstream. *)
Definition unsupported_keys : list string :=
  [ "$schema"; "$id"; "$ref"; "$defs";
    "definitions"; "$comment"; "examples";
    "default"; "additionalProperties";
    "minimum"; "maximum"; "minLength"; "maxLength";
    "minItems"; "maxItems"; "uniqueItems";
    "pattern"; "format"; "nullable"; "oneOf";
    "anyOf"; "allOf"; "not" ].

Definition unsupported (key : string) : bool :=
  existsb (String.eqb key) unsupported_keys.

Definition is_empty_array (j : JSON) : bool :=
  match j with
  | JArr [] => true
  | _ => false
  end.

(** The objects that an object built by the walk inherits from, nearest
    first, each given by the properties of its own.  The walk reads two
    properties by name, [required] and [properties]; [Object.prototype],
    [Array.prototype], an array and [null] have neither, so the chain
    holds the objects the walk has built and ends where one of those
    begins. *)
Definition Chain : Type := list (list (string * JSON)).

(** What [cleanParameters] returns: the value as [Object.keys],
    [Object.entries] and [JSON.stringify] see it, which is by its own
    properties alone, and, for an object, what it inherits from. *)
Record Cleaned : Type := mkCleaned {
  returned : JSON;
  prototype : Chain
}.

(** The object [cleaned] while the loop fills it. *)
Record Building : Type := mkBuilding {
  own : list (string * JSON);
  inherited : Chain
}.

(** [cleaned[key] = v].  Under the name [__proto__] nothing is stored:
    the setter of [Object.prototype] makes [v] the prototype of
    [cleaned] when [v] is an object, an array or [null], and does
    nothing for another value.  (An object has one entry of a name, so
    the loop makes this assignment once at most.) *)
Definition assign (key : string) (v : Cleaned) (cleaned : Building)
  : Building :=
  if String.eqb key "__proto__" then
    match returned v with
    | JObj fields => mkBuilding (own cleaned) (fields :: prototype v)
    | JArr _ | JNull => mkBuilding (own cleaned) []
    | _ => cleaned
    end
  else
    mkBuilding (obj_set key (returned v) (own cleaned))
      (inherited cleaned).

(** Property read along a prototype chain. *)
Fixpoint inherit (key : string) (objects : Chain) : option JSON :=
  match objects with
  | [] => None
  | fields :: ancestors =>
      match obj_get key fields with
      | Some v => Some v
      | None => inherit key ancestors
      end
  end.

(** [cleaned.key] *)
Definition read (key : string) (cleaned : Building) : option JSON :=
  inherit key (own cleaned :: inherited cleaned).

(** [cleaned.required && !cleaned.properties] followed by the delete,
    which removes a property of the object's own and no other. *)
Definition drop_dangling_required (cleaned : Building) : Building :=
  if truthy_opt (read "required" cleaned)
     && negb (truthy_opt (read "properties" cleaned))
  then mkBuilding (obj_delete "required" (own cleaned)) (inherited cleaned)
  else cleaned.

(** The walk over an array and over the entries of an object, for a given
    treatment [clean] of the nested values.  [None] is the TypeError that
    [Object.keys(null)] raises when a [properties] or [items] entry is
    [null]. *)
Section Walk.
Variable clean : JSON -> option Cleaned.

(** [params.map(cleanParameters)] *)
Fixpoint clean_elems (l : list JSON) : option (list JSON) :=
  match l with
  | [] => Some []
  | x :: t =>
      match clean x with
      | None => None
      | Some x' =>
          match clean_elems t with
          | None => None
          | Some t' => Some (returned x' :: t')
          end
      end
  end.

(** One turn of the [for (const [key, value] of Object.entries(params))]
    loop: the object built so far after this entry. *)
Definition clean_entry (key : string) (value : JSON)
    (cleaned : Building) : option Building :=
  if unsupported key then Some cleaned
  else if String.eqb key "required" && is_empty_array value
  then Some cleaned
  else if String.eqb key "properties" && typeof_object value
  then
    match keys_length value with
    | None => None
    | Some 0 => Some cleaned
    | Some (S _) =>
        match clean value with
        | None => None
        | Some v' => Some (assign key v' cleaned)
        end
    end
  else if String.eqb key "items" && typeof_object value
  then
    match clean value with
    | None => None
    | Some cleanedItems =>
        match keys_length (returned cleanedItems) with
        | None => None
        | Some 0 =>
            Some (assign key (mkCleaned (JObj [("type", JStr "string")]) [])
                    cleaned)
        | Some (S _) => Some (assign key cleanedItems cleaned)
        end
    end
  else
    match clean value with
    | None => None
    | Some v' => Some (assign key v' cleaned)
    end.

Fixpoint clean_entries (l : list (string * JSON)) (cleaned : Building)
  : option Building :=
  match l with
  | [] => Some cleaned
  | (key, value) :: rest =>
      match clean_entry key value cleaned with
      | None => None
      | Some cleaned' => clean_entries rest cleaned'
      end
  end.
End Walk.

(** [const cleaned = {}] *)
Definition empty_object : Building := mkBuilding [] [].

(** [return cleaned] *)
Definition built (cleaned : Building) : Cleaned :=
  mkCleaned (JObj (own cleaned)) (inherited cleaned).

(** [cleanParameters(params)], with what the object it returns inherits
    from. *)
Fixpoint cleanParameters_with_chain (params : JSON) : option Cleaned :=
  match params with
  | JArr elems =>
      option_map (fun l => mkCleaned (JArr l) [])
        (clean_elems cleanParameters_with_chain elems)
  | JObj fields =>
      option_map (fun cleaned => built (drop_dangling_required cleaned))
        (clean_entries cleanParameters_with_chain fields empty_object)
  | _ => Some (mkCleaned params [])
  end.

(** [cleanParameters(params)] as its callers read it. *)
Definition cleanParameters (params : JSON) : option JSON :=
  option_map returned (cleanParameters_with_chain params).

End Sanitizer.

(* ================================================================== *)
(** ** Request transformer: [AntigravityTransformer.transformRequestIn] *)
(* ================================================================== *)

Module RequestTransformer.
Import Sanitizer.

(** *** Inbound chat request *)

Inductive ContentItem : Type :=
| CText (text : string)
| CImageUrl (url : string) (media_type : option string)
| COther.

Inductive MessageContent : Type :=
| MCString (s : string)
| MCArray (items : list ContentItem)
| MCAbsent.

Record FunctionRef : Type := mkFunctionRef {
  fn_name : option string;
  fn_arguments : option string
}.

Record ToolCall : Type := mkToolCall {
  tc_id : option string;
  tc_function : option FunctionRef
}.

Record Message : Type := mkMessage {
  role : string;
  content : MessageContent;
  tool_calls : option (list ToolCall);
  tool_call_id : option string;
  thinking_signature : option string
}.

(** *** Outbound envelope contents *)

Inductive Role : Type := user | model.

Inductive Part : Type :=
| PText (text : string) (thoughtSignature : option string)
| PFileData (mime_type : option string) (file_uri : string)
| PInlineData (mime_type : option string) (data : string)
| PFunctionCall (id : string) (name : option string) (args : JSON)
    (thoughtSignature : option string)
| PFunctionResponse (id : option string) (name : option string)
    (output : option MessageContent).

Record Content : Type := mkContent {
  c_role : Role;
  c_parts : list Part
}.

(** The last piece of [url.split(',')]. *)
Fixpoint last_segment (acc s : string) : string :=
  match s with
  | EmptyString => acc
  | String c rest =>
      if Ascii.eqb c ","%char then last_segment EmptyString rest
      else last_segment (String.append acc (String c EmptyString)) rest
  end.

(** [url.split(',').pop() || url] *)
Definition inline_payload (url : string) : string :=
  let tail := last_segment EmptyString url in
  if String.eqb tail "" then url else tail.

(** The signature a part carries: only a truthy one is attached. *)
Definition attach (sig : option string) : option string :=
  if present sig then sig else None.

(** Parts of the [message.content] branch. *)
Definition item_parts (c : ContentItem) : list Part :=
  match c with
  | CText text => if String.eqb text "" then [] else [PText text None]
  | CImageUrl url media_type =>
      if String.prefix "http" url then [PFileData media_type url]
      else [PInlineData media_type (inline_payload url)]
  | COther => []
  end.

Definition content_parts (m : Message) : list Part :=
  match content m with
  | MCString s =>
      if String.eqb s "" then []
      else [PText s (attach (thinking_signature m))]
  | MCArray items => flat_map item_parts items
  | MCAbsent => []
  end.

Section Transform.
(** [JSON.parse]; [None] when it throws. *)
Variable JSON_parse : string -> option JSON.
(** The [n]-th value of [Math.random().toString(36).substring(2, 15)]. *)
Variable random_suffix : nat -> string.

(** The [functionCall] parts of [message.tool_calls]; [i] is the loop
    index, [rng] counts the draws from [Math.random].  [None] when
    [toolCall.function] is missing or the arguments do not parse. *)
Fixpoint call_parts (sig : option string) (i : nat) (rng : nat)
    (calls : list ToolCall) : option (list Part * nat) :=
  match calls with
  | [] => Some ([], rng)
  | toolCall :: rest =>
      match tc_function toolCall with
      | None => None
      | Some fn =>
          let '(id, rng') :=
            if present (tc_id toolCall)
            then (or_else (tc_id toolCall) "", rng)
            else (String.append "tool_" (random_suffix rng), S rng) in
          match JSON_parse (or_else (fn_arguments fn) "{}") with
          | None => None
          | Some args =>
              let part :=
                PFunctionCall id (fn_name fn) args
                  (if Nat.eqb i 0 then attach sig else None) in
              match call_parts sig (S i) rng' rest with
              | None => None
              | Some (parts, rng'') => Some (part :: parts, rng'')
              end
          end
      end
  end.

(** [toolResponses.find(item => item.tool_call_id === tool.id)] *)
Definition find_response (toolResponses : list Message) (tool : ToolCall)
  : option Message :=
  find (fun item => same_id (tool_call_id item) (tc_id tool)) toolResponses.

Definition function_response (toolResponses : list Message)
    (tool : ToolCall) : Part :=
  PFunctionResponse (tc_id tool)
    (match tc_function tool with
     | Some fn => fn_name fn
     | None => None
     end)
    (option_map content (find_response toolResponses tool)).

(** One turn of the loop over the non-tool messages: the [contents]
    array after this message. *)
Definition push_message (toolResponses : list Message)
    (contents : list Content) (rng : nat) (message : Message)
  : option (list Content * nat) :=
  if String.eqb (role message) "system" then Some (contents, rng)
  else
    let role := if String.eqb (role message) "assistant"
                then model else user in
    match
      match tool_calls message with
      | Some calls => call_parts (thinking_signature message) 0 rng calls
      | None => Some ([], rng)
      end
    with
    | None => None
    | Some (calls, rng') =>
        let parts := content_parts message ++ calls in
        let contents1 :=
          match parts with
          | [] => contents
          | _ :: _ => contents ++ [mkContent role parts]
          end in
        let contents2 :=
          match role, tool_calls message with
          | model, Some tools =>
              match map (function_response toolResponses) tools with
              | [] => contents1
              | functionResponses =>
                  contents1 ++ [mkContent user functionResponses]
              end
          | _, _ => contents1
          end in
        Some (contents2, rng')
    end.

Fixpoint push_messages (toolResponses : list Message)
    (contents : list Content) (rng : nat) (messages : list Message)
  : option (list Content * nat) :=
  match messages with
  | [] => Some (contents, rng)
  | message :: rest =>
      match push_message toolResponses contents rng message with
      | None => None
      | Some (contents', rng') =>
          push_messages toolResponses contents' rng' rest
      end
  end.

Definition is_tool (m : Message) : bool := String.eqb (role m) "tool".

(** The [contents] array of the envelope. *)
Definition build_contents (messages : list Message)
  : option (list Content) :=
  option_map fst
    (push_messages (filter is_tool messages) [] 0
       (filter (fun m => negb (is_tool m)) messages)).
End Transform.

(** *** Tool declarations *)

Record FunctionSpec : Type := mkFunctionSpec {
  f_name : option string;
  f_description : option string;
  f_parameters : option JSON
}.

Record Tool : Type := mkTool {
  t_type : option string;
  t_name : option string;
  t_description : option string;
  t_input_schema : option JSON;
  t_parameters : option JSON;
  t_function : option FunctionSpec
}.

Record FunctionDeclaration : Type := mkFunctionDeclaration {
  fd_name : option string;
  fd_description : string;
  fd_parameters : JSON
}.

Definition emptyParams : JSON :=
  JObj [("type", JStr "object"); ("properties", JObj [])].

(** [(cleanedParams && Object.keys(cleanedParams).length > 0)
      ? cleanedParams : emptyParams] *)
Definition params_or_empty (cleanedParams : option JSON) : JSON :=
  match cleanedParams with
  | Some j =>
      if truthy j then
        match keys_length j with
        | Some (S _) => j
        | _ => emptyParams
        end
      else emptyParams
  | None => emptyParams
  end.

(** [cleanParameters] on a property that may be [undefined]. *)
Definition clean_property (schema : option JSON) : option (option JSON) :=
  match schema with
  | None => Some None
  | Some j => option_map Some (cleanParameters j)
  end.

(** The declaration one entry of [request.tools] contributes: none when
    the entry is the web-search tool or has an unknown shape.  The outer
    [None] is an exception escaping [cleanParameters]. *)
Definition declare_tool (tool : Tool)
  : option (list FunctionDeclaration) :=
  if same_id (t_type tool) (Some "web_search_20250305") then Some []
  else if present (t_name tool) && truthy_opt (t_input_schema tool) then
    option_map
      (fun cleanedParams =>
         [mkFunctionDeclaration (t_name tool)
            (or_else (t_description tool) "")
            (params_or_empty cleanedParams)])
      (clean_property (t_input_schema tool))
  else if present (t_name tool) && truthy_opt (t_parameters tool) then
    option_map
      (fun cleanedParams =>
         [mkFunctionDeclaration (t_name tool)
            (or_else (t_description tool) "")
            (params_or_empty cleanedParams)])
      (clean_property (t_parameters tool))
  else
    match t_function tool with
    | Some func =>
        option_map
          (fun cleanedParams =>
             [mkFunctionDeclaration (f_name func)
                (or_else (f_description func) "")
                (params_or_empty cleanedParams)])
          (clean_property (f_parameters func))
    | None =>
        if present (t_name tool) then
          Some [mkFunctionDeclaration (t_name tool)
                  (or_else (t_description tool) "") emptyParams]
        else Some []
    end.

Fixpoint declare_tools (tools : list Tool)
  : option (list FunctionDeclaration) :=
  match tools with
  | [] => Some []
  | tool :: rest =>
      match declare_tool tool with
      | None => None
      | Some ds =>
          match declare_tools rest with
          | None => None
          | Some ds' => Some (ds ++ ds')
          end
      end
  end.

(** The [functionDeclarations] of the single [tools] entry of the
    envelope; the inner [None] is [tools = null]. *)
Definition build_tools (tools : option (list Tool))
  : option (option (list FunctionDeclaration)) :=
  match tools with
  | None | Some [] => Some None
  | Some ts =>
      option_map
        (fun ds => match ds with [] => None | _ :: _ => Some ds end)
        (declare_tools ts)
  end.

(** Every value stored under a [type] key, at every depth. *)
Fixpoint type_values (j : JSON) : list JSON :=
  match j with
  | JArr elems => flat_map type_values elems
  | JObj fields =>
      flat_map
        (fun kv =>
           (if String.eqb (fst kv) "type" then [snd kv] else [])
           ++ type_values (snd kv))
        fields
  | _ => []
  end.

Definition upstream_type_names : list string :=
  ["OBJECT"; "STRING"; "ARRAY"; "BOOLEAN"; "NUMBER"; "INTEGER"].

Definition upstream_type (j : JSON) : bool :=
  match j with
  | JStr s => existsb (String.eqb s) upstream_type_names
  | _ => false
  end.

End RequestTransformer.

(* ================================================================== *)
(** ** Model router: [plugins/antigravity-router.js] *)
(* ================================================================== *)

Module Router.
Import RequestTransformer.

(** The fields of [req.body] the router reads and writes. *)
Record Body : Type := mkBody {
  tools : option (list Tool);
  model : option string;
  thinking : bool;
  __isWebSearch : bool;
  originalModel : option string
}.

Section Route.
(** [String.prototype.toLowerCase] *)
Variable toLowerCase : string -> string.

Definition is_web_search (tool : Tool) : bool :=
  same_id (t_type tool) (Some "web_search_20250305").

(** [router(req, config, context)]: the "provider,model" string it
    resolves to, and the request body it leaves behind. *)
Definition router (body : Body) : string * Body :=
  let tools := match tools body with Some ts => ts | None => [] end in
  let hasWebSearch := existsb is_web_search tools in
  if hasWebSearch then
    ("antigravity-websearch,gemini-2.5-flash",
     mkBody (Router.tools body) (model body) (thinking body) true
       (originalModel body))
  else
    let originalModel := or_else (model body) "" in
    let modelLower := toLowerCase originalModel in
    let antigravityModel :=
      if includes modelLower "opus" then "claude-opus-4-5-thinking"
      else if includes modelLower "haiku" then "gemini3-pro-high"
      else if includes modelLower "sonnet"
      then "claude-sonnet-4-5-thinking"
      else if thinking body then "claude-opus-4-5-thinking"
      else "claude-sonnet-4-5-thinking" in
    (String.append "antigravity," antigravityModel,
     mkBody (Router.tools body) (model body) (thinking body)
       (__isWebSearch body) (Some originalModel)).
End Route.

End Router.

(* ================================================================== *)
(** ** Token managers: the three [getFreshAccessToken] *)
(* ================================================================== *)

Module TokenManager.

(** The record kept in [~/.claude-code-router/google_credentials.json],
    shared by every plug-in.  The Antigravity plug-ins write
    [token_expiry], the interceptors [expiry_date]; [None] in a numeric
    field is an absent or [NaN] value. *)
Record Credentials : Type := mkCredentials {
  client_id : option string;
  client_secret : option string;
  refresh_token : option string;
  access_token : option string;
  token_expiry : option Z;
  expiry_date : option Z
}.

(** How a call settles: a value ([None] is [null] / [undefined]) or a
    thrown [Error]. *)
Inductive Outcome : Type :=
| Returned (token : option string)
| Thrown (message : string).

(** What a call does to the outside world. *)
Inductive Effect : Type :=
| LoginFlow
| RefreshPost (credentials : Credentials)
| SaveCredentials (credentials : Credentials).

(** What comes back from the token endpoint. *)
Inductive TokenReply : Type :=
| Reply (r_access_token : option string) (r_expires_in : option Z)
    (r_error : option string) (r_error_description : option string)
| Unparsable (body : string) (message : string)
| RequestError (message : string).

(** 5 minutes, in milliseconds. *)
Definition expiryThreshold : Z := 5 * 60 * 1000.

Definition nonzero (o : option Z) : bool :=
  match o with
  | Some n => negb (Z.eqb n 0)
  | None => false
  end.

(** [now + expires_in * 1000] *)
Definition expiry_after (now : Z) (expires_in : option Z) : option Z :=
  option_map (fun s => now + s * 1000)%Z expires_in.

(** *** The Antigravity transformer (and, with another log prefix, the
    web-search transformer) *)
Module Antigravity.

Definition no_credentials : string :=
  "[antigravity] No Google credentials found. Please authenticate via the web UI at http://localhost:3456/google-auth".
Definition no_refresh_token : string :=
  "[antigravity] No refresh token found. Please re-authenticate via the web UI at http://localhost:3456/google-auth".

(** [getFreshAccessToken] up to its [await]: either it settles at once,
    or the refresh POST for [credentials] has just been written. *)
Definition start (file : option Credentials) (now : Z)
  : Outcome + Credentials :=
  match file with
  | None => inl (Thrown no_credentials)
  | Some credentials =>
      if negb (present (refresh_token credentials))
      then inl (Thrown no_refresh_token)
      else if present (access_token credentials)
              && nonzero (token_expiry credentials)
              && match token_expiry credentials with
                 | Some e => (expiryThreshold <? e - now)%Z
                 | None => false
                 end
      then inl (Returned (access_token credentials))
      else inr credentials
  end.

(** The ['end'] and ['error'] handlers of [refreshAccessToken], run at
    time [now]: how the call settles, what it does, and the file
    afterwards. *)
Definition finish (file : option Credentials) (credentials : Credentials)
    (now : Z) (reply : TokenReply)
  : Outcome * list Effect * option Credentials :=
  match reply with
  | Reply r_access_token r_expires_in _ r_error_description =>
      if present r_access_token then
        let saved :=
          mkCredentials (client_id credentials)
            (client_secret credentials) (refresh_token credentials)
            r_access_token (expiry_after now r_expires_in)
            (expiry_date credentials) in
        (Returned r_access_token, [SaveCredentials saved], Some saved)
      else
        (Thrown (or_else r_error_description "Failed to refresh token"),
         [], file)
  | Unparsable _ message => (Thrown message, [], file)
  | RequestError message => (Thrown message, [], file)
  end.

(** One whole call, the endpoint answering [reply] at time [later]. *)
Definition getFreshAccessToken (file : option Credentials) (now : Z)
    (later : Z) (reply : TokenReply)
  : Outcome * list Effect * option Credentials :=
  match start file now with
  | inl outcome => (outcome, [], file)
  | inr credentials =>
      let '(outcome, effects, file') :=
        finish file credentials later reply in
      (outcome, RefreshPost credentials :: effects, file')
  end.
End Antigravity.

(** *** The module-level cache of the interceptors *)
Record Cache : Type := mkCache {
  cachedAccessToken : option string;
  tokenExpiryTime : option Z
}.

Definition cache_fresh (cache : Cache) (now : Z) : bool :=
  present (cachedAccessToken cache)
  && match tokenExpiryTime cache with
     | Some e => (now + expiryThreshold <? e)%Z
     | None => false
     end.

Definition mentions_revocation (message : string) : bool :=
  includes message "invalid_grant" || includes message "revoked".

(** *** The pure-API Gemini interceptor *)
Module Interceptor.

(** [getFreshAccessToken] up to the POST of [refreshAccessToken]. *)
Definition start (cache : Cache) (file : option Credentials) (now : Z)
  : Outcome + Credentials :=
  if cache_fresh cache now then inl (Returned (cachedAccessToken cache))
  else
    match file with
    | Some credentials =>
        if present (refresh_token credentials) then inr credentials
        else inl (Returned None)
    | None => inl (Returned None)
    end.

(** The [catch] block. *)
Definition on_error (cache : Cache) (message : string) : Cache :=
  if mentions_revocation message then mkCache None (Some 0%Z) else cache.

(** The happy path after [refreshAccessToken]. *)
Definition on_tokens (credentials : Credentials) (now : Z)
    (access : option string) (expires_in : option Z)
  : Outcome * list Effect * Cache * option Credentials :=
  let expiry := expiry_after now expires_in in
  let saved :=
    mkCredentials (client_id credentials) (client_secret credentials)
      (refresh_token credentials) access (token_expiry credentials)
      expiry in
  (Returned access, [SaveCredentials saved], mkCache access expiry,
   Some saved).

(** The rest of [getFreshAccessToken] once [httpsPost] resolves or
    rejects; [now] is still the time read when the call started. *)
Definition finish (cache : Cache) (file : option Credentials)
    (credentials : Credentials) (now : Z) (reply : TokenReply)
  : Outcome * list Effect * Cache * option Credentials :=
  match reply with
  | Reply r_access_token r_expires_in r_error r_error_description =>
      if present r_error then
        (Returned None, [],
         on_error cache
           (or_else r_error_description (or_else r_error "")),
         file)
      else on_tokens credentials now r_access_token r_expires_in
  | Unparsable _ _ => on_tokens credentials now None None
  | RequestError message =>
      (Returned None, [], on_error cache message, file)
  end.

Definition getFreshAccessToken (cache : Cache)
    (file : option Credentials) (now : Z) (reply : TokenReply)
  : Outcome * list Effect * Cache * option Credentials :=
  match start cache file now with
  | inl outcome => (outcome, [], cache, file)
  | inr credentials =>
      let '(outcome, effects, cache', file') :=
        finish cache file credentials now reply in
      (outcome, RefreshPost credentials :: effects, cache', file')
  end.
End Interceptor.

(** *** The library-based Gemini interceptor *)
Module LegacyInterceptor.

(** How [runLoginFlow] ends: with saved credentials, with [null], or
    with a rejected promise. *)
Inductive LoginResult : Type :=
| LoggedIn (credentials : Credentials)
| LoginDeclined
| LoginFailed (message : string).

(** How [client.getAccessToken()] ends. *)
Inductive RefreshResult : Type :=
| Refreshed (token : option string) (expiry : option Z)
| RefreshFailed (message : string).

Record World : Type := mkWorld {
  cache : Cache;
  file : option Credentials;
  logins : nat;
  refreshes : nat;
  calls : nat;
  effects : list Effect
}.

Section Flow.
(** The outcome of the [n]-th interactive login, of the [n]-th refresh
    and the [n]-th reading of [Date.now()]. *)
Variable runLoginFlow : nat -> LoginResult.
Variable getAccessToken : nat -> Credentials -> RefreshResult.
Variable clock : nat -> Z.

(** [await runLoginFlow()]: a successful login has saved its
    credentials. *)
Definition login (w : World) : LoginResult * World :=
  let r := runLoginFlow (logins w) in
  (r,
   match r with
   | LoggedIn c =>
       mkWorld (cache w) (Some c) (S (logins w)) (refreshes w)
         (calls w) (effects w ++ [LoginFlow; SaveCredentials c])
   | _ =>
       mkWorld (cache w) (file w) (S (logins w)) (refreshes w)
         (calls w) (effects w ++ [LoginFlow])
   end).

(** [getFreshAccessToken()], followed through [fuel] nested calls: how
    the call settles, [None] when it has not settled by then, and the
    world as the call leaves it -- or as it is where the run is cut
    off. *)
Fixpoint getFreshAccessToken (fuel : nat) (w : World)
  : option Outcome * World :=
  match fuel with
  | O => (None, w)
  | S fuel' =>
      let now := clock (calls w) in
      let w :=
        mkWorld (cache w) (file w) (logins w) (refreshes w)
          (S (calls w)) (effects w) in
      (* re-authenticate, then start over *)
      let relogin (w : World) :=
        match login w with
        | (LoggedIn _, w') => getFreshAccessToken fuel' w'
        | (LoginDeclined, w') => (Some (Returned None), w')
        | (LoginFailed message, w') => (Some (Thrown message), w')
        end in
      (* the [catch] block *)
      let on_error (message : string) (w : World) :=
        if mentions_revocation message then relogin w
        else (Some (Returned None), w) in
      (* the [try] block *)
      let refresh (credentials : Credentials) (w : World) :=
        let r := getAccessToken (refreshes w) credentials in
        let w :=
          mkWorld (cache w) (file w) (logins w) (S (refreshes w))
            (calls w) (effects w ++ [RefreshPost credentials]) in
        match r with
        | Refreshed token expiry =>
            if present token then
              let expiry :=
                if nonzero expiry then expiry
                else Some (now + 3600 * 1000)%Z in
              let saved :=
                mkCredentials (client_id credentials)
                  (client_secret credentials)
                  (refresh_token credentials) token
                  (token_expiry credentials) expiry in
              (Some (Returned token),
               mkWorld (mkCache token expiry) (Some saved)
                 (logins w) (refreshes w) (calls w)
                 (effects w ++ [SaveCredentials saved]))
            else
              match login w with
              | (LoggedIn _, w') => getFreshAccessToken fuel' w'
              | (LoginDeclined, w') => (Some (Returned None), w')
              | (LoginFailed message, w') => on_error message w'
              end
        | RefreshFailed message => on_error message w
        end in
      if cache_fresh (cache w) now
      then (Some (Returned (cachedAccessToken (cache w))), w)
      else
        match file w with
        | Some credentials =>
            if present (refresh_token credentials)
            then refresh credentials w
            else
              match login w with
              | (LoggedIn c, w') =>
                  if present (refresh_token c) then refresh c w'
                  else (Some (Returned None), w')
              | (LoginDeclined, w') => (Some (Returned None), w')
              | (LoginFailed message, w') => (Some (Thrown message), w')
              end
        | None =>
            match login w with
            | (LoggedIn c, w') =>
                if present (refresh_token c) then refresh c w'
                else (Some (Returned None), w')
            | (LoginDeclined, w') => (Some (Returned None), w')
            | (LoginFailed message, w') => (Some (Thrown message), w')
            end
        end
  end.
End Flow.
End LegacyInterceptor.

(** *** Calls interleaved on the event loop

    A call runs without interruption up to its [await]; the reply of the
    token endpoint is a later event.  [start] is the part before the
    [await], [finish] the part after it. *)
Section EventLoop.
Context {Store Pending : Type}.
Variable start : Store -> Z -> Outcome + Pending.
Variable finish : Store -> Pending -> Z -> TokenReply -> Outcome * Store.

Inductive Event : Type :=
| Invoke (now : Z)
| Respond (k : nat) (now : Z) (reply : TokenReply).

Record Loop : Type := mkLoop {
  store : Store;
  in_flight : list Pending;
  posts : nat;
  settled : list Outcome
}.

Definition drop_nth {A : Type} (k : nat) (l : list A) : list A :=
  firstn k l ++ skipn (S k) l.

Definition step (l : Loop) (e : Event) : Loop :=
  match e with
  | Invoke now =>
      match start (store l) now with
      | inl outcome =>
          mkLoop (store l) (in_flight l) (posts l)
            (settled l ++ [outcome])
      | inr pending =>
          mkLoop (store l) (in_flight l ++ [pending]) (S (posts l))
            (settled l)
      end
  | Respond k now reply =>
      match nth_error (in_flight l) k with
      | None => l
      | Some pending =>
          let '(outcome, store') :=
            finish (store l) pending now reply in
          mkLoop store' (drop_nth k (in_flight l)) (posts l)
            (settled l ++ [outcome])
      end
  end.

Definition run (l : Loop) (events : list Event) : Loop :=
  fold_left step events l.

Definition invocations (events : list Event) : nat :=
  List.length
    (filter (fun e => match e with Invoke _ => true | _ => false end)
       events).
End EventLoop.

(** The Antigravity transformer on the event loop: the store is the
    credentials file. *)
Definition antigravity_finish (file : option Credentials)
    (credentials : Credentials) (now : Z) (reply : TokenReply)
  : Outcome * option Credentials :=
  let '(outcome, _, file') := Antigravity.finish file credentials now reply in
  (outcome, file').

Definition antigravity_loop (file : option Credentials)
  : @Loop (option Credentials) Credentials :=
  mkLoop file [] 0 [].

Definition antigravity_run :=
  run Antigravity.start antigravity_finish.

(** The pure-API interceptor on the event loop: the store is the cache
    and the file; a pending call remembers the time it started at. *)
Definition interceptor_start (st : Cache * option Credentials) (now : Z)
  : Outcome + (Credentials * Z) :=
  match Interceptor.start (fst st) (snd st) now with
  | inl outcome => inl outcome
  | inr credentials => inr (credentials, now)
  end.

Definition interceptor_finish (st : Cache * option Credentials)
    (pending : Credentials * Z) (now : Z) (reply : TokenReply)
  : Outcome * (Cache * option Credentials) :=
  let '(outcome, _, cache', file') :=
    Interceptor.finish (fst st) (snd st) (fst pending) (snd pending) reply in
  (outcome, (cache', file')).

Definition interceptor_loop (cache : Cache) (file : option Credentials)
  : @Loop (Cache * option Credentials) (Credentials * Z) :=
  mkLoop (cache, file) [] 0 [].

Definition interceptor_run :=
  run interceptor_start interceptor_finish.

End TokenManager.

(* ================================================================== *)
(** ** What the upstream sends *)
(* ================================================================== *)

Module Upstream.

Record FunctionCall : Type := mkFunctionCall {
  fc_id : option string;
  fc_name : option string;
  fc_args : option JSON
}.

(** The payload of a part: the upstream fills in one of them. *)
Inductive PartData : Type :=
| Text (text : string)
| Call (functionCall : FunctionCall)
| OtherData.

Record Part : Type := mkPart {
  data : PartData;
  thought : bool;
  thoughtSignature : option string
}.

Record Web : Type := mkWeb {
  uri : option string;
  title : option string;
  domain : option string
}.

Record GroundingMetadata : Type := mkGroundingMetadata {
  groundingChunks : option (list (option Web));
  webSearchQueries : option (list string)
}.

Record Candidate : Type := mkCandidate {
  parts : option (list Part);
  finishReason : option string;
  groundingMetadata : option GroundingMetadata
}.

Record UsageMetadata : Type := mkUsageMetadata {
  promptTokenCount : option Z;
  candidatesTokenCount : option Z;
  totalTokenCount : option Z
}.

Record ResponseData : Type := mkResponseData {
  responseId : option string;
  candidates : list Candidate;
  usageMetadata : option UsageMetadata
}.

(** A parsed body or SSE payload: the [response] wrapper when there is
    one, and the fields found on the object itself. *)
Record Envelope : Type := mkEnvelope {
  response : option ResponseData;
  bare : ResponseData
}.

(** [part.text] when truthy. *)
Definition text_of (p : Part) : option string :=
  match data p with
  | Text t => if String.eqb t "" then None else Some t
  | _ => None
  end.

Definition call_of (p : Part) : option FunctionCall :=
  match data p with
  | Call fc => Some fc
  | _ => None
  end.

(** [n || 0] *)
Definition count (field : UsageMetadata -> option Z)
    (usage : option UsageMetadata) : Z :=
  match usage with
  | Some u => match field u with Some n => n | None => 0%Z end
  | None => 0%Z
  end.

(** [parts.find(p => p.thoughtSignature)?.thoughtSignature] *)
Definition find_signature (ps : list Part) : option string :=
  match find (fun p => present (thoughtSignature p)) ps with
  | Some p => thoughtSignature p
  | None => None
  end.

End Upstream.

(* ================================================================== *)
(** ** Non-streaming replies: [transformJsonResponse] *)
(* ================================================================== *)

Module JsonResponse.
Import Upstream.

Record ToolCallOut : Type := mkToolCallOut {
  id : string;
  name : option string;
  (** the value handed to [JSON.stringify] *)
  arguments : JSON
}.

Record Thinking : Type := mkThinking {
  content : string;
  signature : string
}.

Record Message : Type := mkMessage {
  m_content : string;
  tool_calls : option (list ToolCallOut);
  thinking : option Thinking
}.

Record Usage : Type := mkUsage {
  completion_tokens : Z;
  prompt_tokens : Z;
  total_tokens : Z
}.

(** The chat-completion object; its single choice has index 0 and an
    assistant message. *)
Record UnifiedResponse : Type := mkUnifiedResponse {
  u_id : option string;
  finish_reason : string;
  message : Message;
  created : Z;
  model : string;
  usage : Usage
}.

(** What the method hands back: the response it was given, or a new one
    around a chat-completion object (same status and headers). *)
Inductive Result : Type :=
| Untouched
| Unified (u : UnifiedResponse).

Definition newline : string := String (Ascii.ascii_of_nat 10) EmptyString.

Section Transform.
Variable toLowerCase : string -> string.
Variable random_suffix : nat -> string.

(** The loop that splits the thinking text from the other parts. *)
Fixpoint split_thinking (ps : list Part) (thinkingContent : string)
    (nonThinkingParts : list Part) : string * list Part :=
  match ps with
  | [] => (thinkingContent, nonThinkingParts)
  | part :: rest =>
      match text_of part with
      | Some t =>
          if thought part
          then split_thinking rest (String.append thinkingContent t)
                 nonThinkingParts
          else split_thinking rest thinkingContent
                 (nonThinkingParts ++ [part])
      | None =>
          split_thinking rest thinkingContent (nonThinkingParts ++ [part])
      end
  end.

(** [.filter(part => part.functionCall).map(...)], with [rng] counting
    the identifiers drawn so far. *)
Fixpoint tool_calls_of (ps : list Part) (rng : nat) : list ToolCallOut :=
  match ps with
  | [] => []
  | part :: rest =>
      match call_of part with
      | Some fc =>
          if present (fc_id fc) then
            mkToolCallOut (or_else (fc_id fc) "") (fc_name fc)
              (match fc_args fc with
               | Some a => if truthy a then a else JObj []
               | None => JObj []
               end)
            :: tool_calls_of rest rng
          else
            mkToolCallOut (String.append "tool_" (random_suffix rng))
              (fc_name fc)
              (match fc_args fc with
               | Some a => if truthy a then a else JObj []
               | None => JObj []
               end)
            :: tool_calls_of rest (S rng)
      | None => tool_calls_of rest rng
      end
  end.

(** [.filter(part => part.text && !part.thought).map(part => part.text)] *)
Definition texts_of (ps : list Part) : list string :=
  flat_map
    (fun part =>
       match text_of part with
       | Some t => if thought part then [] else [t]
       | None => []
       end)
    ps.

(** [transformJsonResponse]; [now] is [Date.now()]. *)
Definition transformJsonResponse (defaultModel : string) (now : Z)
    (body : Envelope) (requestedModel : option string) : Result :=
  let modelToUse := or_else requestedModel defaultModel in
  match response body with
  | None => Untouched
  | Some r =>
      match candidates r with
      | [] => Untouched
      | candidate :: _ =>
          let parts :=
            match parts candidate with Some ps => ps | None => [] end in
          let '(thinkingContent, nonThinkingParts) :=
            split_thinking parts "" [] in
          let thinkingSignature := find_signature parts in
          let toolCalls := tool_calls_of nonThinkingParts 0 in
          let textContent := String.concat newline
                               (texts_of nonThinkingParts) in
          Unified
            (mkUnifiedResponse (responseId r)
               (toLowerCase (or_else (finishReason candidate) "stop"))
               (mkMessage textContent
                  (match toolCalls with
                   | [] => None
                   | _ :: _ => Some toolCalls
                   end)
                  (if present thinkingSignature then
                     Some (mkThinking
                             (if String.eqb thinkingContent ""
                              then "(no content)" else thinkingContent)
                             (or_else thinkingSignature ""))
                   else None))
               (now / 1000)
               modelToUse
               (mkUsage
                  (count candidatesTokenCount (usageMetadata r))
                  (count promptTokenCount (usageMetadata r))
                  (count totalTokenCount (usageMetadata r))))
      end
  end.
End Transform.

End JsonResponse.

(* ================================================================== *)
(** ** Streaming replies: [transformStreamResponse] *)
(* ================================================================== *)

Module Stream.
Import Upstream.

(** *** The events written to the client *)

(** [msg.id]: the upstream's [responseId], [`msg_${Date.now()}`], or
    [msg_] and the first 24 hexadecimal digits of a random UUID. *)
Inductive MessageId : Type :=
| UpstreamId (responseId : string)
| MsgAt (now : Z)
| MsgUuid (uuid : string).

(** The three ingredients of an [encrypted_content] placeholder, before
    they are joined with colons and base64-encoded. *)
Record WebSearchResult : Type := mkWebSearchResult {
  r_title : option string;
  r_url : option string;
  r_index : nat;
  r_timestamp : Z
}.

Inductive ContentBlock : Type :=
| ThinkingBlock
| TextBlock
| ToolUse (id : string) (name : option string)
| ServerToolUse (id : string) (query : string)
| WebSearchToolResult (tool_use_id : string)
    (content : list WebSearchResult).

Inductive Delta : Type :=
| ThinkingDelta (thinking : string)
| SignatureDelta (signature : string)
| TextDelta (text : string)
| InputJsonDelta (partial_json : JSON).

Inductive SSE : Type :=
| MessageStart (id : MessageId) (model : string)
| ContentBlockStart (index : Z) (content_block : ContentBlock)
| ContentBlockDelta (index : Z) (delta : Delta)
| ContentBlockStop (index : Z)
| MessageDelta (input_tokens : option Z) (output_tokens : Z)
| MessageStop.

(** *** The variables of the closure, and what has been enqueued *)
Record State : Type := mkState {
  messageStartSent : bool;
  thinkingBlockStarted : bool;
  thinkingBlockIndex : Z;
  textBlockStarted : bool;
  textBlockIndex : Z;
  currentBlockIndex : Z;
  signatureSent : bool;
  hasThinkingContent : bool;
  lastUsageMetadata : option UsageMetadata;
  webSearchResultsSent : bool;
  (** draws from [Math.random] and readings of [Date.now] so far *)
  rng : nat;
  clock : nat;
  (** the events enqueued on the controller, oldest first *)
  sent : list SSE
}.

Definition initial : State :=
  mkState false false (-1) false (-1) (-1) false false None false 0 0 [].

Definition sendEvent (e : SSE) (s : State) : State :=
  mkState (messageStartSent s) (thinkingBlockStarted s)
    (thinkingBlockIndex s) (textBlockStarted s) (textBlockIndex s)
    (currentBlockIndex s) (signatureSent s) (hasThinkingContent s)
    (lastUsageMetadata s) (webSearchResultsSent s) (rng s) (clock s)
    (sent s ++ [e]).

Definition set_messageStartSent (b : bool) (s : State) : State :=
  mkState b (thinkingBlockStarted s)
    (thinkingBlockIndex s) (textBlockStarted s) (textBlockIndex s)
    (currentBlockIndex s) (signatureSent s) (hasThinkingContent s)
    (lastUsageMetadata s) (webSearchResultsSent s) (rng s) (clock s)
    (sent s).

Definition set_thinkingBlockStarted (b : bool) (s : State) : State :=
  mkState (messageStartSent s) b
    (thinkingBlockIndex s) (textBlockStarted s) (textBlockIndex s)
    (currentBlockIndex s) (signatureSent s) (hasThinkingContent s)
    (lastUsageMetadata s) (webSearchResultsSent s) (rng s) (clock s)
    (sent s).

Definition set_thinkingBlockIndex (i : Z) (s : State) : State :=
  mkState (messageStartSent s) (thinkingBlockStarted s)
    i (textBlockStarted s) (textBlockIndex s)
    (currentBlockIndex s) (signatureSent s) (hasThinkingContent s)
    (lastUsageMetadata s) (webSearchResultsSent s) (rng s) (clock s)
    (sent s).

Definition set_textBlockStarted (b : bool) (s : State) : State :=
  mkState (messageStartSent s) (thinkingBlockStarted s)
    (thinkingBlockIndex s) b (textBlockIndex s)
    (currentBlockIndex s) (signatureSent s) (hasThinkingContent s)
    (lastUsageMetadata s) (webSearchResultsSent s) (rng s) (clock s)
    (sent s).

Definition set_textBlockIndex (i : Z) (s : State) : State :=
  mkState (messageStartSent s) (thinkingBlockStarted s)
    (thinkingBlockIndex s) (textBlockStarted s) i
    (currentBlockIndex s) (signatureSent s) (hasThinkingContent s)
    (lastUsageMetadata s) (webSearchResultsSent s) (rng s) (clock s)
    (sent s).

(** [currentBlockIndex++] *)
Definition next_block (s : State) : State :=
  mkState (messageStartSent s) (thinkingBlockStarted s)
    (thinkingBlockIndex s) (textBlockStarted s) (textBlockIndex s)
    (currentBlockIndex s + 1) (signatureSent s) (hasThinkingContent s)
    (lastUsageMetadata s) (webSearchResultsSent s) (rng s) (clock s)
    (sent s).

Definition set_signatureSent (b : bool) (s : State) : State :=
  mkState (messageStartSent s) (thinkingBlockStarted s)
    (thinkingBlockIndex s) (textBlockStarted s) (textBlockIndex s)
    (currentBlockIndex s) b (hasThinkingContent s)
    (lastUsageMetadata s) (webSearchResultsSent s) (rng s) (clock s)
    (sent s).

Definition set_hasThinkingContent (b : bool) (s : State) : State :=
  mkState (messageStartSent s) (thinkingBlockStarted s)
    (thinkingBlockIndex s) (textBlockStarted s) (textBlockIndex s)
    (currentBlockIndex s) (signatureSent s) b
    (lastUsageMetadata s) (webSearchResultsSent s) (rng s) (clock s)
    (sent s).

Definition set_lastUsageMetadata (u : option UsageMetadata) (s : State)
  : State :=
  mkState (messageStartSent s) (thinkingBlockStarted s)
    (thinkingBlockIndex s) (textBlockStarted s) (textBlockIndex s)
    (currentBlockIndex s) (signatureSent s) (hasThinkingContent s)
    u (webSearchResultsSent s) (rng s) (clock s)
    (sent s).

(** One more draw from [Math.random]. *)
Definition drew (s : State) : State :=
  mkState (messageStartSent s) (thinkingBlockStarted s)
    (thinkingBlockIndex s) (textBlockStarted s) (textBlockIndex s)
    (currentBlockIndex s) (signatureSent s) (hasThinkingContent s)
    (lastUsageMetadata s) (webSearchResultsSent s) (S (rng s)) (clock s)
    (sent s).

(** [n] more readings of [Date.now]. *)
Definition ticked (n : nat) (s : State) : State :=
  mkState (messageStartSent s) (thinkingBlockStarted s)
    (thinkingBlockIndex s) (textBlockStarted s) (textBlockIndex s)
    (currentBlockIndex s) (signatureSent s) (hasThinkingContent s)
    (lastUsageMetadata s) (webSearchResultsSent s) (rng s) (clock s + n)
    (sent s).

(** *** Lines of the SSE body *)

Definition LF : ascii := Ascii.ascii_of_nat 10.

(** [buffer.split('\n')]: never empty; [current] is the piece being
    read. *)
Fixpoint split_lines (current : string) (s : string) : list string :=
  match s with
  | EmptyString => [current]
  | String c rest =>
      if Ascii.eqb c LF then current :: split_lines EmptyString rest
      else split_lines (String.append current (String c EmptyString)) rest
  end.

(** ASCII white space, which [trim] strips. *)
Definition is_space (c : ascii) : bool :=
  let n := Ascii.nat_of_ascii c in
  (Nat.eqb n 32 || (Nat.leb 9 n && Nat.leb n 13))%bool.

Fixpoint trim_start (s : string) : string :=
  match s with
  | EmptyString => EmptyString
  | String c rest => if is_space c then trim_start rest else s
  end.

Fixpoint trim_end (s : string) : string :=
  match s with
  | EmptyString => EmptyString
  | String c rest =>
      match trim_end rest with
      | EmptyString => if is_space c then EmptyString
                       else String c EmptyString
      | kept => String c kept
      end
  end.

Definition trim (s : string) : string := trim_end (trim_start s).

(** [line.slice(6)] *)
Definition slice6 (line : string) : string :=
  String.substring 6 (String.length line - 6) line.

(** *** The state machine *)

Section Machine.
(** [JSON.parse] of a [data:] payload; [None] when it throws. *)
Variable JSON_parse : string -> option Envelope.
(** The [n]-th value of [Math.random().toString(36).substring(2, 15)]
    and the [n]-th reading of [Date.now()]. *)
Variable random_suffix : nat -> string.
Variable date_now : nat -> Z.
(** The model name echoed to the client. *)
Variable modelToUse : string.

(** First part of the two places that open the thinking block. *)
Definition open_thinking (s : State) : State :=
  if thinkingBlockStarted s then s
  else
    let s := next_block s in
    let s := set_thinkingBlockIndex (currentBlockIndex s) s in
    let s :=
      sendEvent (ContentBlockStart (thinkingBlockIndex s) ThinkingBlock)
        s in
    set_thinkingBlockStarted true s.

(** [responseData.responseId || `msg_${Date.now()}`] *)
Definition response_id (r : ResponseData) (s : State)
  : MessageId * State :=
  if present (responseId r)
  then (UpstreamId (or_else (responseId r) ""), s)
  else (MsgAt (date_now (clock s)), ticked 1 s).

Definition send_message_start (responseId : MessageId) (s : State)
  : State :=
  if messageStartSent s then s
  else
    set_messageStartSent true
      (sendEvent (MessageStart responseId modelToUse) s).

(** Body of [for (const part of thinkingParts)]. *)
Definition thinking_part (s : State) (text : string) : State :=
  let s := set_hasThinkingContent true s in
  let s := open_thinking s in
  sendEvent
    (ContentBlockDelta (thinkingBlockIndex s) (ThinkingDelta text)) s.

Definition thinking_texts (ps : list Part) : list string :=
  flat_map
    (fun p =>
       match text_of p with
       | Some t => if thought p then [t] else []
       | None => []
       end)
    ps.

(** The thought signature closes the thinking block. *)
Definition handle_signature (ps : list Part) (s : State) : State :=
  let signature := find_signature ps in
  if present signature && negb (signatureSent s) then
    let s := open_thinking s in
    let s :=
      sendEvent
        (ContentBlockDelta (thinkingBlockIndex s)
           (SignatureDelta (or_else signature ""))) s in
    let s := sendEvent (ContentBlockStop (thinkingBlockIndex s)) s in
    let s := set_signatureSent true s in
    set_thinkingBlockStarted false s
  else s.

(** Body of [for (const part of textParts)]. *)
Definition text_part (s : State) (text : string) : State :=
  let s :=
    if thinkingBlockStarted s && negb (signatureSent s) then
      set_thinkingBlockStarted false
        (sendEvent (ContentBlockStop (thinkingBlockIndex s)) s)
    else s in
  let s :=
    if textBlockStarted s then s
    else
      let s := next_block s in
      let s := set_textBlockIndex (currentBlockIndex s) s in
      let s :=
        sendEvent (ContentBlockStart (textBlockIndex s) TextBlock) s in
      set_textBlockStarted true s in
  sendEvent (ContentBlockDelta (textBlockIndex s) (TextDelta text)) s.

Definition plain_texts (ps : list Part) : list string :=
  flat_map
    (fun p =>
       match text_of p with
       | Some t => if thought p then [] else [t]
       | None => []
       end)
    ps.

(** Body of [for (const part of toolCallParts)]. *)
Definition tool_call_part (s : State) (fc : FunctionCall) : State :=
  let s := next_block s in
  let toolBlockIndex := currentBlockIndex s in
  let '(toolId, s) :=
    if present (fc_id fc) then (or_else (fc_id fc) "", s)
    else (String.append "toolu_" (random_suffix (rng s)), drew s) in
  let s :=
    sendEvent
      (ContentBlockStart toolBlockIndex (ToolUse toolId (fc_name fc)))
      s in
  let s :=
    sendEvent
      (ContentBlockDelta toolBlockIndex
         (InputJsonDelta
            (match fc_args fc with
             | Some a => if truthy a then a else JObj []
             | None => JObj []
             end))) s in
  sendEvent (ContentBlockStop toolBlockIndex) s.

Definition calls (ps : list Part) : list FunctionCall :=
  flat_map
    (fun p => match call_of p with Some fc => [fc] | None => [] end) ps.

(** [a || b] on optional strings. *)
Definition or_opt (a b : option string) : option string :=
  if present a then a else b.

(** [groundingChunks.filter(chunk => chunk.web).map(...)], the first
    reading of the clock being number [t]. *)
Fixpoint search_results (chunks : list (option Web)) (index : nat)
    (t : nat) : list WebSearchResult :=
  match chunks with
  | [] => []
  | None :: rest => search_results rest index t
  | Some web :: rest =>
      mkWebSearchResult (or_opt (title web) (domain web)) (uri web)
        index (date_now t)
      :: search_results rest (S index) (S t)
  end.

(** Grounding metadata becomes a [server_tool_use] block and a
    [web_search_tool_result] block. *)
Definition handle_grounding (c : Candidate) (s : State) : State :=
  match groundingMetadata c with
  | None => s
  | Some gm =>
      match groundingChunks gm with
      | None => s
      | Some groundingChunks =>
          if webSearchResultsSent s then s
          else
            match groundingChunks with
            | [] => s
            | _ :: _ =>
                let s :=
                  if textBlockStarted s then
                    set_textBlockStarted false
                      (sendEvent (ContentBlockStop (textBlockIndex s)) s)
                  else s in
                let searchToolId :=
                  String.append "srvtoolu_" (random_suffix (rng s)) in
                let s := drew s in
                let searchQuery :=
                  match webSearchQueries gm with
                  | Some (q :: _) => q
                  | _ => ""
                  end in
                let s := next_block s in
                let serverToolUseIndex := currentBlockIndex s in
                let s :=
                  sendEvent
                    (ContentBlockStart serverToolUseIndex
                       (ServerToolUse searchToolId searchQuery)) s in
                let s :=
                  sendEvent (ContentBlockStop serverToolUseIndex) s in
                let webSearchResults :=
                  search_results groundingChunks 0 (clock s) in
                let s := ticked (List.length webSearchResults) s in
                let s := next_block s in
                let searchResultIndex := currentBlockIndex s in
                let s :=
                  sendEvent
                    (ContentBlockStart searchResultIndex
                       (WebSearchToolResult searchToolId
                          webSearchResults)) s in
                sendEvent (ContentBlockStop searchResultIndex) s
            end
      end
  end.

(** [message_delta] with the usage seen last, then [message_stop]. *)
Definition send_message_end (s : State) : State :=
  let inputTokens := count promptTokenCount (lastUsageMetadata s) in
  let outputTokens := count candidatesTokenCount (lastUsageMetadata s) in
  sendEvent MessageStop
    (sendEvent (MessageDelta (Some inputTokens) outputTokens) s).

Definition handle_finish (c : Candidate) (s : State) : State :=
  if present (finishReason c) then
    let s :=
      if thinkingBlockStarted s then
        set_thinkingBlockStarted false
          (sendEvent (ContentBlockStop (thinkingBlockIndex s)) s)
      else s in
    let s :=
      if textBlockStarted s then
        set_textBlockStarted false
          (sendEvent (ContentBlockStop (textBlockIndex s)) s)
      else s in
    send_message_end s
  else s.

(** Everything inside the [try] once the payload has parsed. *)
Definition handle_chunk (s : State) (chunk : Envelope) : State :=
  let responseData :=
    match response chunk with Some r => r | None => bare chunk end in
  match candidates responseData with
  | [] => s
  | candidate :: _ =>
      let parts :=
        match parts candidate with Some ps => ps | None => [] end in
      let '(responseId, s) := response_id responseData s in
      let s :=
        match usageMetadata responseData with
        | Some u => set_lastUsageMetadata (Some u) s
        | None => s
        end in
      let s := send_message_start responseId s in
      let s := fold_left thinking_part (thinking_texts parts) s in
      let s := handle_signature parts s in
      let s := fold_left text_part (plain_texts parts) s in
      let s := fold_left tool_call_part (calls parts) s in
      let s := handle_grounding candidate s in
      handle_finish candidate s
  end.

(** Body of [for (const line of lines)]. *)
Definition handle_line (s : State) (line : string) : State :=
  if String.prefix "data: " line then
    let chunkStr := trim (slice6 line) in
    if String.eqb chunkStr "" then s
    else
      match JSON_parse chunkStr with
      | Some chunk => handle_chunk s chunk
      | None => s
      end
  else s.

(** After the reader reports [done]. *)
Definition finalize (s : State) : State :=
  let s :=
    if thinkingBlockStarted s
    then sendEvent (ContentBlockStop (thinkingBlockIndex s)) s else s in
  let s :=
    if textBlockStarted s
    then sendEvent (ContentBlockStop (textBlockIndex s)) s else s in
  if messageStartSent s then send_message_end s else s.

(** The [while (true)] loop over the decoded network chunks. *)
Fixpoint read_loop (s : State) (buffer : string) (values : list string)
  : State :=
  match values with
  | [] => finalize s
  | value :: rest =>
      let lines := split_lines EmptyString (String.append buffer value) in
      read_loop (fold_left handle_line (removelast lines) s)
        (last lines EmptyString) rest
  end.

(** The events [transformStreamResponse] writes for a body that
    arrives as [values] and then ends. *)
Definition transformStreamResponse (values : list string) : list SSE :=
  sent (read_loop initial EmptyString values).

(** *** [transformWebSearchResponse]: a whole web-search reply rendered
    as one event stream.  [None] is the thrown "No candidate" error;
    [uuid] is the value of [crypto.randomUUID()]. *)
Definition transformWebSearchResponse (uuid : string) (result : Envelope)
    (requestModel : string) : option (list SSE) :=
  match response result with
  | None => None
  | Some r =>
      match candidates r with
      | [] => None
      | candidate :: _ =>
          let textContent :=
            String.concat ""
              (plain_texts
                 (match parts candidate with
                  | Some ps => ps
                  | None => []
                  end)) in
          let gm := groundingMetadata candidate in
          let groundingChunks :=
            match gm with
            | Some g =>
                match groundingChunks g with Some cs => cs | None => [] end
            | None => []
            end in
          let searchQuery :=
            match gm with
            | Some g =>
                match webSearchQueries g with
                | Some (q :: _) => q
                | _ => ""
                end
            | None => ""
            end in
          let webSearchResults := search_results groundingChunks 0 0 in
          let searchToolId :=
            String.append "srvtoolu_" (random_suffix 0) in
          let modelName :=
            if String.eqb requestModel ""
            then "claude-sonnet-4-5-20250514" else requestModel in
          Some
            ([ MessageStart (MsgUuid uuid) modelName;
               ContentBlockStart 0 (ServerToolUse searchToolId searchQuery);
               ContentBlockStop 0;
               ContentBlockStart 1
                 (WebSearchToolResult searchToolId webSearchResults);
               ContentBlockStop 1 ]
             ++ (if String.eqb textContent "" then []
                 else [ ContentBlockStart 2 TextBlock;
                        ContentBlockDelta 2 (TextDelta textContent);
                        ContentBlockStop 2 ])
             ++ [ MessageDelta None
                    (count candidatesTokenCount (usageMetadata r));
                  MessageStop ])
      end
  end.
End Machine.

(** *** Reading the event list *)

Definition is_message_start (e : SSE) : bool :=
  match e with MessageStart _ _ => true | _ => false end.

Definition is_message_stop (e : SSE) : bool :=
  match e with MessageStop => true | _ => false end.

(** The indices of the [content_block_start] events, in order. *)
Definition started (events : list SSE) : list Z :=
  flat_map
    (fun e => match e with ContentBlockStart i _ => [i] | _ => [] end)
    events.

(** The indices of the [content_block_stop] events, in order. *)
Definition stopped (events : list SSE) : list Z :=
  flat_map
    (fun e => match e with ContentBlockStop i => [i] | _ => [] end)
    events.

End Stream.

(* ================================================================== *)
(** ** [transformResponseOut]: which replies are transformed *)
(* ================================================================== *)

Module ResponseOut.
Import Upstream.

(** A fetch [Response] from the upstream.  Header names are in lower
    case, as [Headers] keeps them; the body is the text that arrives, in
    network chunks, or [None] when there is no body. *)
Record Response : Type := mkResponse {
  status : nat;
  statusText : string;
  headers : list (string * string);
  body : option (list string)
}.

(** [response.ok] *)
Definition ok (r : Response) : bool :=
  (Nat.leb 200 (status r) && Nat.leb (status r) 299)%bool.

Fixpoint header_get (name : string) (hs : list (string * string))
  : option string :=
  match hs with
  | [] => None
  | (k, v) :: rest => if String.eqb k name then Some v else header_get name rest
  end.

(** The body of a response built by a transformer. *)
Inductive NewBody : Type :=
| EventStream (events : list Stream.SSE)
| Completion (u : JsonResponse.UnifiedResponse).

(** What [transformResponseOut] resolves to. *)
Inductive Relayed : Type :=
| Same (bodyUsed : bool)
    (** [return response]: the very object it was given; [bodyUsed] when
        [response.json()] has read its body before *)
| New (status : nat) (statusText : string)
    (headers : list (string * string)) (body : NewBody)
| Rejected.
(** the promise is rejected *)

Definition stream_headers : list (string * string) :=
  [ ("content-type", "text/event-stream");
    ("cache-control", "no-cache");
    ("connection", "keep-alive");
    ("x-skip-response-transform", "true") ].

Definition web_search_headers : list (string * string) :=
  [ ("content-type", "text/event-stream");
    ("cache-control", "no-cache");
    ("connection", "keep-alive") ].

(** What the transformer finds in [context]. *)
Record Context : Type := mkContext {
  requestModel : option string;
  isWebSearch : bool
}.

Section Antigravity.
Variable JSON_parse : string -> option Envelope.
Variable toLowerCase : string -> string.
Variable random_suffix : nat -> string.
Variable date_now : nat -> Z.
Variable randomUUID : string.
Variable defaultModel : string.

(** [await response.json()] *)
Definition json (r : Response) : option Envelope :=
  match body r with
  | Some chunks => JSON_parse (String.concat "" chunks)
  | None => None
  end.

(** [AntigravityTransformer.transformResponseOut] *)
Definition transformResponseOut (response : Response) (context : Context)
  : Relayed :=
  let contentType :=
    or_else (header_get "content-type" (headers response)) "" in
  let requestedModel := or_else (requestModel context) defaultModel in
  if isWebSearch context && includes contentType "application/json" then
    match json response with
    | None => Rejected
    | Some result =>
        match
          Stream.transformWebSearchResponse random_suffix date_now
            randomUUID result requestedModel
        with
        | None => Rejected
        | Some events => New 200 "" web_search_headers (EventStream events)
        end
    end
  else if includes contentType "text/event-stream"
          || includes contentType "stream" then
    match body response with
    | None => Same false
    | Some values =>
        New (status response) (statusText response) stream_headers
          (EventStream
             (Stream.transformStreamResponse JSON_parse random_suffix
                date_now requestedModel values))
    end
  else if includes contentType "application/json" then
    match json response with
    | None => Rejected
    | Some data =>
        match
          JsonResponse.transformJsonResponse toLowerCase random_suffix
            defaultModel (date_now 0) data (Some requestedModel)
        with
        | JsonResponse.Untouched => Same true
        | JsonResponse.Unified u =>
            New (status response) (statusText response)
              (headers response) (Completion u)
        end
    end
  else Same false.
End Antigravity.

(** The two Gemini interceptors agree on how [transformResponseOut]
    begins; [rewrite] is what they go on to do with a 2xx reply. *)
Section Interceptor.
Variable rewrite : Response -> Relayed.

Definition interceptor_transformResponseOut (response : Response)
  : Relayed :=
  if negb (ok response) then Same false else rewrite response.
End Interceptor.

End ResponseOut.

(* ================================================================== *)
(** ** The rest of [AntigravityTransformer.transformRequestIn] *)
(* ================================================================== *)

Module RequestIn.
Import Sanitizer RequestTransformer TokenManager.

(** *** The constructor's options *)

(** The options object of [config.json]; [None] is a key that is not
    there. *)
Record GivenOptions : Type := mkGivenOptions {
  g_project : option string;
  g_userAgent : option string;
  g_requestType : option string;
  g_defaultModel : option string;
  g_modelMapping : option (list (string * string))
}.

Record Options : Type := mkOptions {
  project : string;
  userAgent : string;
  requestType : string;
  defaultModel : string;
  modelMapping : list (string * string)
}.

Definition defaultModelMapping : list (string * string) :=
  [ ("claude-opus-4-5-20251101", "claude-opus-4-5-thinking");
    ("claude-opus-4-20250514", "claude-opus-4-5-thinking");
    ("claude-sonnet-4-5-20250514", "claude-sonnet-4-5-thinking");
    ("claude-sonnet-4-20250514", "claude-sonnet-4-5-thinking");
    ("claude-haiku-4-5-20251001", "gemini3-pro-high");
    ("claude-3-5-haiku-20241022", "gemini3-pro-high") ].

(** [table[key] = value] on a table of model names. *)
Fixpoint table_set (key value : string) (table : list (string * string))
  : list (string * string) :=
  match table with
  | [] => [(key, value)]
  | (k, v) :: rest =>
      if String.eqb k key then (k, value) :: rest
      else (k, v) :: table_set key value rest
  end.

(** [{ ...a, ...b }] *)
Definition spread (a b : list (string * string)) : list (string * string) :=
  fold_left (fun acc kv => table_set (fst kv) (snd kv) acc) b a.

(** A key of the literal that [...options] writes again when the options
    have it. *)
Definition overridden {A : Type} (given : option A) (computed : A) : A :=
  match given with
  | Some v => v
  | None => computed
  end.

(** [this.options] as the constructor leaves it. *)
Definition construct (options : GivenOptions) : Options :=
  mkOptions
    (overridden (g_project options)
       (or_else (g_project options) "default-project"))
    (overridden (g_userAgent options)
       (or_else (g_userAgent options) "antigravity"))
    (overridden (g_requestType options)
       (or_else (g_requestType options) "agent"))
    (overridden (g_defaultModel options)
       (or_else (g_defaultModel options) "claude-sonnet-4-5-20250514"))
    (overridden (g_modelMapping options)
       (spread defaultModelMapping
          (match g_modelMapping options with
           | Some custom => custom
           | None => []
           end))).

(** *** The upstream model *)

(** What [table[key]] evaluates to: an entry of the table, a member
    inherited from [Object.prototype], or [undefined]. *)
Inductive Looked : Type :=
| Own (value : string)
| Inherited
| Missing.

Definition prototype_members : list string :=
  [ "constructor"; "__proto__"; "hasOwnProperty"; "isPrototypeOf";
    "propertyIsEnumerable"; "toLocaleString"; "toString"; "valueOf";
    "__defineGetter__"; "__defineSetter__"; "__lookupGetter__";
    "__lookupSetter__" ].

Fixpoint own (key : string) (table : list (string * string))
  : option string :=
  match table with
  | [] => None
  | (k, v) :: rest => if String.eqb k key then Some v else own key rest
  end.

Definition look (key : string) (table : list (string * string)) : Looked :=
  match own key table with
  | Some v => Own v
  | None =>
      if existsb (String.eqb key) prototype_members then Inherited
      else Missing
  end.

(** The [model] of the envelope: a name, or a value that is no string
    (which [JSON.stringify] leaves out). *)
Inductive UpstreamModel : Type :=
| Named (name : string)
| NotAName.

(** [table[key] || fallback] *)
Definition look_or (key : string) (table : list (string * string))
    (fallback : string) : UpstreamModel :=
  match look key table with
  | Own v => if String.eqb v "" then Named fallback else Named v
  | Inherited => NotAName
  | Missing => Named fallback
  end.

Section Resolve.
Variable toLowerCase : string -> string.

Definition resolve_model (table : list (string * string))
    (requestedModel : string) : UpstreamModel :=
  match look requestedModel table with
  | Own v =>
      if String.eqb v "" then
        let modelLower := toLowerCase requestedModel in
        if includes modelLower "opus" then
          look_or "claude-opus-4-5-20251101" table "claude-opus-4-5-thinking"
        else if includes modelLower "haiku" then
          look_or "claude-haiku-4-5-20251001" table "gemini3-pro-high"
        else
          look_or "claude-sonnet-4-5-20250514" table
            "claude-sonnet-4-5-thinking"
      else Named v
  | Inherited => NotAName
  | Missing =>
      let modelLower := toLowerCase requestedModel in
      if includes modelLower "opus" then
        look_or "claude-opus-4-5-20251101" table "claude-opus-4-5-thinking"
      else if includes modelLower "haiku" then
        look_or "claude-haiku-4-5-20251001" table "gemini3-pro-high"
      else
        look_or "claude-sonnet-4-5-20250514" table
          "claude-sonnet-4-5-thinking"
  end.
End Resolve.

(** *** The inbound request *)

Inductive ToolChoice : Type :=
| NoChoice
| ChoiceNamed (choice : string)
    (** a string: ["auto"], ["none"], ["required"], ... *)
| ChoiceObject (function_name : option string).
(** an object; [function_name] is [tool_choice.function?.name] *)

Record Reasoning : Type := mkReasoning {
  effort : option string;
  r_max_tokens : option JSON
}.

(** The fields of the unified request [transformRequestIn] reads.
    [system] is [None] when the request has no [system] or one that is
    not an array; in the three sampling fields [None] is [undefined]. *)
Record Request : Type := mkRequest {
  messages : list Message;
  system : option (list ContentItem);
  tools : option (list Tool);
  tool_choice : ToolChoice;
  temperature : option JSON;
  max_tokens : option JSON;
  top_p : option JSON;
  reasoning : option Reasoning;
  originalModel : option string;
  model : option string
}.

(** *** System instruction *)

(** [.filter(c => c.type === 'text' && c.text).map(c => ({ text: c.text }))] *)
Definition system_texts (items : list ContentItem) : list string :=
  flat_map
    (fun c =>
       match c with
       | CText text => if String.eqb text "" then [] else [text]
       | _ => []
       end)
    items.

Definition is_system (m : Message) : bool := String.eqb (role m) "system".

(** What one system message adds to [systemParts] in the fallback. *)
Definition system_message_texts (m : Message) : list string :=
  match content m with
  | MCString s => [s]
  | MCArray items => system_texts items
  | MCAbsent => []
  end.

Definition instruction (texts : list string) : option Content :=
  match texts with
  | [] => None
  | _ :: _ => Some (mkContent user (map (fun t => PText t None) texts))
  end.

(** [systemInstruction]; [None] is [null]. *)
Definition build_system_instruction (request : Request) : option Content :=
  match system request with
  | Some (c :: cs) => instruction (system_texts (c :: cs))
  | _ =>
      let systemMessages := filter is_system (messages request) in
      match systemMessages with
      | [] => None
      | _ :: _ =>
          instruction (flat_map system_message_texts systemMessages)
      end
  end.

(** *** Tool configuration *)

Inductive Mode : Type := VALIDATED | AUTO | NONE | ANY.

Record ToolConfig : Type := mkToolConfig {
  mode : Mode;
  allowedFunctionNames : option (list string)
}.

(** [toolConfig], given the [tools] that were built. *)
Definition build_tool_config
    (tools : option (list FunctionDeclaration)) (choice : ToolChoice)
  : option ToolConfig :=
  match tools with
  | None => None
  | Some _ =>
      Some
        match choice with
        | ChoiceNamed s =>
            if String.eqb s "auto" then mkToolConfig AUTO None
            else if String.eqb s "none" then mkToolConfig NONE None
            else if String.eqb s "required" then mkToolConfig ANY None
            else mkToolConfig VALIDATED None
        | ChoiceObject name =>
            if present name
            then mkToolConfig ANY (Some [or_else name ""])
            else mkToolConfig VALIDATED None
        | NoChoice => mkToolConfig VALIDATED None
        end
  end.

(** *** Generation configuration *)

Record ThinkingConfig : Type := mkThinkingConfig {
  includeThoughts : bool;
  thinkingBudget : option JSON
}.

Record GenerationConfig : Type := mkGenerationConfig {
  gc_temperature : option JSON;
  maxOutputTokens : option JSON;
  topP : option JSON;
  thinkingConfig : option ThinkingConfig
}.

Definition build_generation_config (request : Request) : GenerationConfig :=
  mkGenerationConfig (temperature request) (max_tokens request)
    (top_p request)
    match reasoning request with
    | Some r =>
        if present (effort r) && negb (same_id (effort r) (Some "none"))
        then
          Some (mkThinkingConfig true
                  (if truthy_opt (r_max_tokens r) then r_max_tokens r
                   else None))
        else None
    | None => None
    end.

Definition is_some {A : Type} (o : option A) : bool :=
  match o with Some _ => true | None => false end.

(** [Object.keys(generationConfig).length > 0] *)
Definition has_keys (g : GenerationConfig) : bool :=
  is_some (gc_temperature g) || is_some (maxOutputTokens g)
  || is_some (topP g) || is_some (thinkingConfig g).

(** *** The envelope *)

Record Inner : Type := mkInner {
  contents : list Content;
  systemInstruction : option Content;
  i_tools : option (list FunctionDeclaration);
  toolConfig : option ToolConfig;
  generationConfig : option GenerationConfig;
  sessionId : string
}.

Record AntigravityRequest : Type := mkAntigravityRequest {
  e_project : string;
  requestId : string;
  request : Inner;
  e_model : UpstreamModel;
  e_userAgent : string;
  e_requestType : string
}.

(** What [transformRequestIn] resolves to.  The three headers are
    [Authorization], a fixed [Content-Type] and a fixed [User-Agent]. *)
Record Transformed : Type := mkTransformed {
  body : AntigravityRequest;
  authorization : string;
  requestModel : option string;
  accessToken : option string
}.

(** How the promise of [transformRequestIn] settles. *)
Inductive Result : Type :=
| Resolved (t : Transformed)
| TokenError (message : string)
    (** [getFreshAccessToken] threw *)
| MessageError
    (** a tool call without [function], or arguments that do not parse *)
| SchemaError.
(** [cleanParameters] threw *)

(** [s.slice(-19)] *)
Definition last19 (s : string) : string :=
  String.substring (String.length s - 19) 19 s.

Section Transform.
Variable JSON_parse : string -> option JSON.
Variable random_suffix : nat -> string.
Variable toLowerCase : string -> string.
(** [Number.prototype.toString] on a reading of [Date.now()] *)
Variable number_toString : Z -> string.

(** [transformRequestIn]; [token] is how [getFreshAccessToken] settled,
    [uuid] the value of [crypto.randomUUID()], [now] the reading of
    [Date.now()] taken for the session id, and [context_originalModel]
    is [context?.originalModel].  The request is also appended to
    [logs/antigravity.log], which is taken to be writable; the console
    output is left out. *)
Definition transformRequestIn (options : Options) (token : Outcome)
    (uuid : string) (now : Z) (request : Request)
    (context_originalModel : option string) : Result :=
  match token with
  | Thrown message => TokenError message
  | Returned accessToken =>
      match build_contents JSON_parse random_suffix (messages request) with
      | None => MessageError
      | Some contents =>
          let systemInstruction := build_system_instruction request in
          match build_tools (tools request) with
          | None => SchemaError
          | Some tools =>
              let toolConfig :=
                build_tool_config tools (tool_choice request) in
              let generationConfig := build_generation_config request in
              let sessionId :=
                String.append "-" (last19 (number_toString now)) in
              let requestedModel :=
                or_else (originalModel request)
                  (or_else context_originalModel
                     (or_else (model request) "")) in
              let antigravityModel :=
                resolve_model toLowerCase (modelMapping options)
                  requestedModel in
              Resolved
                (mkTransformed
                   (mkAntigravityRequest (project options)
                      (String.append "agent-" uuid)
                      (mkInner contents systemInstruction tools toolConfig
                         (if has_keys generationConfig
                          then Some generationConfig else None)
                         sessionId)
                      antigravityModel (userAgent options)
                      (requestType options))
                   (String.append "Bearer "
                      (match accessToken with
                       | Some t => t
                       | None => "undefined"
                       end))
                   (model request) accessToken)
          end
      end
  end.
End Transform.

End RequestIn.
(* ================================================================== *)
(** ** The web-search transformer:
       [plugins/antigravity-websearch.transformer.js] *)
(* ================================================================== *)

Module WebSearch.
Import RequestTransformer Upstream.

(** *** [extractSearchQuery] *)

Definition is_text_item (c : ContentItem) : bool :=
  match c with
  | CText _ => true
  | _ => false
  end.

(** The loop of [extractSearchQuery], on the messages from the last to
    the first.  A text item is read with the text it carries (the empty
    text when it has none). *)
Fixpoint search_backwards (reversed : list Message) : string :=
  match reversed with
  | [] => "web search query"
  | msg :: earlier =>
      if String.eqb (role msg) "user" then
        match content msg with
        | MCString s => s
        | MCArray items =>
            match find is_text_item items with
            | Some (CText text) => text
            | _ => search_backwards earlier
            end
        | MCAbsent => search_backwards earlier
        end
      else search_backwards earlier
  end.

Definition extractSearchQuery (messages : list Message) : string :=
  search_backwards (rev messages).

(** *** [transformWebSearchResponse] *)

(** The [groundingSupports] entries, which tie a segment of the answer
    to the chunks it rests on. *)
Record Segment : Type := mkSegment {
  seg_text : option string;
  startIndex : option Z;
  endIndex : option Z
}.

Record Support : Type := mkSupport {
  groundingChunkIndices : option (list Z);
  segment : option Segment
}.

(** A web-search reply: the body, and the [groundingSupports] of the
    grounding metadata of its first candidate. *)
Record Reply : Type := mkReply {
  envelope : Envelope;
  groundingSupports : option (list Support)
}.

(** What the transformer finds in [context]. *)
Record Context : Type := mkContext {
  requestModel : option string;
  query : option string
}.

(** [encrypted_content] of a search result before it is serialised and
    base64-encoded, with the rest of the result. *)
Record SearchResult : Type := mkSearchResult {
  url : string;
  sr_title : string;
  index : nat;
  sr_domain : option string;
  timestamp : Z
}.

Record Citation : Type := mkCitation {
  c_url : option string;
  c_title : option string;
  cited_text : string;
  chunkIndex : Z;
  segmentStart : option Z;
  segmentEnd : option Z;
  c_timestamp : Z
}.

Inductive Block : Type :=
| ServerToolUse (id : Z)
    (** [srvtoolu_ws_] and a reading of the clock *)
| WebSearchToolResult (tool_use_id : Z) (content : list SearchResult)
| TextBlock.

(** A string of JavaScript where the code counts or cuts it: the
    sequence of its UTF-16 code units. *)
Definition CodeUnits : Type := list N.

Inductive Delta : Type :=
| InputJsonDelta (partial_json : CodeUnits)
| TextDelta (text : string)
| CitationsDelta (citation : Citation).

Inductive Event : Type :=
| MessageStart (id : Z) (model : string)
| ContentBlockStart (index : nat) (content_block : Block)
| ContentBlockDelta (index : nat) (delta : Delta)
| ContentBlockStop (index : nat)
| MessageDelta (output_tokens : nat)
| MessageStop.

(** [result.response?.candidates?.[0] || result.candidates?.[0]] *)
Definition pick_candidate (result : Envelope) : option Candidate :=
  match
    match response result with
    | Some r => hd_error (candidates r)
    | None => None
    end
  with
  | Some c => Some c
  | None => hd_error (candidates (bare result))
  end.

(** [groundingChunks[chunkIndex]] *)
Definition chunk_at (chunks : list (option Web)) (chunkIndex : Z)
  : option (option Web) :=
  if (chunkIndex <? 0)%Z then None
  else nth_error chunks (Z.to_nat chunkIndex).

(** [s.slice(i, j)] for [0 <= i <= j] *)
Definition slice (i j : nat) (s : CodeUnits) : CodeUnits :=
  firstn (j - i) (skipn i s).

(** The loop that cuts [queryJson] into pieces of [chunkSize = 6]; [i]
    is the loop variable, and [fuel] bounds the number of turns. *)
Fixpoint query_chunks (fuel : nat) (i : nat) (queryJson : CodeUnits)
  : list CodeUnits :=
  match fuel with
  | O => []
  | S fuel' =>
      if Nat.ltb i (List.length queryJson) then
        slice i (i + 6) queryJson :: query_chunks fuel' (i + 6) queryJson
      else []
  end.

Section Respond.
(** The code units of a string: what [length] counts and [slice] cuts.
    How the characters of a string are written down is left open here,
    so its reading as UTF-16 is a parameter. *)
Variable code_units : string -> CodeUnits.
(** [JSON.stringify({ query: searchQuery })] *)
Variable stringify_query : string -> string.
(** The [n]-th reading of [Date.now()]. *)
Variable date_now : nat -> Z.

(** [groundingChunks.map((chunk, i) => ...)], the first reading of the
    clock being number [t]. *)
Fixpoint search_results (chunks : list (option Web)) (i : nat) (t : nat)
  : list SearchResult :=
  match chunks with
  | [] => []
  | chunk :: rest =>
      mkSearchResult
        (match chunk with Some web => or_else (uri web) "" | None => "" end)
        (match chunk with
         | Some web => or_else (title web) (or_else (domain web) "")
         | None => ""
         end)
        i
        (match chunk with Some web => domain web | None => None end)
        (date_now t)
      :: search_results rest (S i) (S t)
  end.

(** [for (const chunkIndex of support.groundingChunkIndices)] *)
Fixpoint cite_chunks (blockIndex : nat) (chunks : list (option Web))
    (support : Support) (indices : list Z) (t : nat) : list Event * nat :=
  match indices with
  | [] => ([], t)
  | chunkIndex :: rest =>
      match chunk_at chunks chunkIndex with
      | Some (Some web) =>
          let citation :=
            mkCitation (uri web)
              (if present (title web) then title web else domain web)
              (match segment support with
               | Some seg => or_else (seg_text seg) ""
               | None => ""
               end)
              chunkIndex
              (match segment support with
               | Some seg => startIndex seg
               | None => None
               end)
              (match segment support with
               | Some seg => endIndex seg
               | None => None
               end)
              (date_now t) in
          let '(events, t') :=
            cite_chunks blockIndex chunks support rest (S t) in
          (ContentBlockDelta blockIndex (CitationsDelta citation) :: events,
           t')
      | _ => cite_chunks blockIndex chunks support rest t
      end
  end.

(** [for (const support of groundingMetadata.groundingSupports)] *)
Fixpoint cite_supports (blockIndex : nat) (chunks : list (option Web))
    (supports : list Support) (t : nat) : list Event * nat :=
  match supports with
  | [] => ([], t)
  | support :: rest =>
      let '(events, t') :=
        match groundingChunkIndices support with
        | Some indices => cite_chunks blockIndex chunks support indices t
        | None => ([], t)
        end in
      let '(events', t'') := cite_supports blockIndex chunks rest t' in
      (events ++ events', t'')
  end.

(** [candidate?.content?.parts?.filter(p => p.text)?.map(p => p.text)
      ?.join('') || ''] *)
Definition all_text (candidate : option Candidate) : string :=
  match candidate with
  | Some c =>
      match parts c with
      | Some ps =>
          String.concat ""
            (flat_map
               (fun p => match text_of p with Some t => [t] | None => [] end)
               ps)
      | None => ""
      end
  | None => ""
  end.

(** [candidate?.groundingMetadata] *)
Definition grounding_of (candidate : option Candidate)
  : option GroundingMetadata :=
  match candidate with
  | Some c => groundingMetadata c
  | None => None
  end.

(** [(groundingMetadata?.webSearchQueries || [])[0] || context?.query
      || ''] *)
Definition search_query (groundingMetadata : option GroundingMetadata)
    (context : Context) : string :=
  match
    match groundingMetadata with
    | Some gm =>
        match webSearchQueries gm with
        | Some (q :: _) => if String.eqb q "" then None else Some q
        | _ => None
        end
    | None => None
    end
  with
  | Some q => q
  | None => or_else (query context) ""
  end.

(** [groundingMetadata?.groundingChunks] *)
Definition chunks_of (groundingMetadata : option GroundingMetadata)
  : option (list (option Web)) :=
  match groundingMetadata with
  | Some gm => groundingChunks gm
  | None => None
  end.

(** The events [transformWebSearchResponse] enqueues. *)
Definition transformWebSearchResponse (result : Reply) (context : Context)
  : list Event :=
  let messageId := date_now 0 in
  let model := or_else (requestModel context) "gemini-2.5-flash" in
  let candidate := pick_candidate (envelope result) in
  let groundingMetadata := grounding_of candidate in
  let searchQuery := search_query groundingMetadata context in
  let toolId := date_now 1 in
  let queryJson := code_units (stringify_query searchQuery) in
  let query_deltas :=
    map (fun chunk => ContentBlockDelta 0 (InputJsonDelta chunk))
      (query_chunks (List.length queryJson) 0 queryJson) in
  let chunks := chunks_of groundingMetadata in
  let results :=
    match chunks with
    | Some cs => search_results cs 0 2
    | None => []
    end in
  let result_block :=
    match chunks with
    | Some _ =>
        [ ContentBlockStart 1 (WebSearchToolResult toolId results);
          ContentBlockStop 1 ]
    | None => []
    end in
  let blockIndex := match chunks with Some _ => 2 | None => 1 end in
  let t := 2 + List.length results in
  let textContent := all_text candidate in
  let text_block :=
    if String.eqb textContent "" then []
    else
      [ ContentBlockStart blockIndex TextBlock;
        ContentBlockDelta blockIndex (TextDelta textContent) ]
      ++ match groundingSupports result, chunks with
         | Some supports, Some cs =>
             fst (cite_supports blockIndex cs supports t)
         | _, _ => []
         end
      ++ [ ContentBlockStop blockIndex ] in
  [ MessageStart messageId model;
    ContentBlockStart 0 (ServerToolUse toolId) ]
  ++ query_deltas
  ++ [ ContentBlockStop 0 ]
  ++ result_block
  ++ text_block
  ++ [ MessageDelta (List.length (code_units textContent)); MessageStop ].
End Respond.

End WebSearch.

(* ================================================================== *)
(** ** The Gemini interceptors *)
(* ================================================================== *)

Module GeminiInterceptor.
Import Upstream TokenManager.

(** *** [transformRequestIn] of the library-based interceptor *)

(** The Gemini-formatted request the interceptor is given.  Objects are
    kept as their entries; [None] is a key that is absent, and a key that
    is there holds an object (an array, for [tools]); [other] holds the
    keys the interceptor does not look at. *)
Record Request : Type := mkRequest {
  generationConfig : option (list (string * JSON));
  thinking : option (list (string * JSON));
  tools : option (list JSON);
  toolConfig : option (list (string * JSON));
  other : list (string * JSON)
}.

(** The interceptor's own options. *)
Record Options : Type := mkOptions {
  thinking_budget : option JSON;
  o_thinkingBudget : option JSON;
  o_project : option string;
  o_model : option string;
  o_userAgent : option string;
  o_requestType : option string
}.

Record Provider : Type := mkProvider {
  baseUrl : option string;
  api_base_url : option string
}.

Record Wrapped : Type := mkWrapped {
  w_project : string;
  requestId : string;
  w_model : string;
  w_userAgent : string;
  w_requestType : string;
  sessionId : string;
  request : Request
}.

(** [config]: the [Authorization] header and the URL, when set. *)
Record Config : Type := mkConfig {
  authorization : option string;
  url : option string
}.

(** A value that is truthy, or nothing. *)
Definition truthy_value (o : option JSON) : option JSON :=
  if truthy_opt o then o else None.

(** [a || b] on optional strings. *)
Definition first_present (a b : option string) : option string :=
  if present a then a else b.

(** [config.headers] *)
Definition bearer (token : option string) : option string :=
  if present token
  then Some (String.append "Bearer " (or_else token ""))
  else None.

Section RequestIn.
(** [parseInt] *)
Variable parseInt : JSON -> JSON.
(** [new URL(baseUrl)]; [None] when it throws. *)
Variable URL : string -> option string.

(** "Custom endpoint handling": [config.url], or nothing; the outer
    [None] is the TypeError of [new URL]. *)
Definition custom_endpoint (provider : Provider) : option (option string) :=
  let baseUrl := first_present (baseUrl provider) (api_base_url provider) in
  if present baseUrl
     && (includes (or_else baseUrl "") ":streamGenerateContent"
         || includes (or_else baseUrl "") ":generateContent"
         || includes (or_else baseUrl "") "v1internal")
  then option_map Some (URL (or_else baseUrl ""))
  else Some None.

(** Checks A, B and C: the budget the request asks for, and the request
    with the field it was read from cleaned up. *)
Definition detect_budget (generationConfig : list (string * JSON))
    (thinking : option (list (string * JSON)))
  : option JSON * list (string * JSON) * option (list (string * JSON)) :=
  if truthy_opt (obj_get "thinkingConfig" generationConfig) then
    (match obj_get "thinkingConfig" generationConfig with
     | Some (JObj thinkingConfig) => obj_get "thinkingBudget" thinkingConfig
     | _ => None
     end,
     generationConfig, thinking)
  else if truthy_opt (obj_get "thinking_budget" generationConfig) then
    (obj_get "thinking_budget" generationConfig,
     obj_delete "thinking_budget" generationConfig, thinking)
  else
    match thinking with
    | Some fields =>
        if truthy_opt (obj_get "budget_tokens" fields)
        then (obj_get "budget_tokens" fields, generationConfig, None)
        else (None, generationConfig, thinking)
    | None => (None, generationConfig, thinking)
    end.

(** The [thinkingConfig] written in step 3. *)
Definition thinking_config (options : Options) (thinkingBudget : option JSON)
  : JSON :=
  match truthy_value thinkingBudget with
  | Some budget =>
      JObj [ ("includeThoughts", JBool true);
             ("thinkingBudget", parseInt budget) ]
  | None =>
      let configBudget :=
        match truthy_value (thinking_budget options) with
        | Some b => Some b
        | None => truthy_value (o_thinkingBudget options)
        end in
      JObj [ ("includeThoughts", JBool true);
             ("thinkingBudget",
              match configBudget with
              | Some b => parseInt b
              | None => JNum 1024
              end) ]
  end.

(** Step 4, on a request that has tools.  [None] is the TypeError raised
    when [functionCallingConfig] holds a string, a number or [true], on
    which no key can be created; on an array the key is created and is
    not serialised. *)
Definition validated (toolConfig : option (list (string * JSON)))
  : option (list (string * JSON)) :=
  let toolConfig := match toolConfig with Some tc => tc | None => [] end in
  match obj_get "functionCallingConfig" toolConfig with
  | Some (JObj fcc) =>
      Some (obj_set "functionCallingConfig"
              (JObj (obj_set "mode" (JStr "VALIDATED") fcc)) toolConfig)
  | Some (JArr _) => Some toolConfig
  | Some v =>
      if truthy v then None
      else
        Some (obj_set "functionCallingConfig"
                (JObj [("mode", JStr "VALIDATED")]) toolConfig)
  | None =>
      Some (obj_set "functionCallingConfig"
              (JObj [("mode", JStr "VALIDATED")]) toolConfig)
  end.

(** [transformRequestIn] of the library-based interceptor; [token] is
    what [getFreshAccessToken] returned, [session] and [req] the two
    values of [uuidv4()].  [None]: the promise is rejected. *)
Definition transformRequestIn (options : Options) (token : option string)
    (session req : string) (request : Request) (provider : Provider)
  : option (Wrapped * Config) :=
  match custom_endpoint provider with
  | None => None
  | Some url =>
      let config := mkConfig (bearer token) url in
      let generationConfig :=
        match generationConfig request with Some g => g | None => [] end in
      let '(thinkingBudget, generationConfig, thinking) :=
        detect_budget generationConfig (thinking request) in
      let generationConfig :=
        obj_set "thinkingConfig" (thinking_config options thinkingBudget)
          generationConfig in
      match
        match tools request with
        | Some (_ :: _) => option_map Some (validated (toolConfig request))
        | _ => Some (toolConfig request)
        end
      with
      | None => None
      | Some toolConfig =>
          Some
            (mkWrapped
               (or_else (o_project options) "majestic-spot-nc5ww")
               (String.append "req-" req)
               (or_else (o_model options) "claude-opus-4-5-thinking")
               (or_else (o_userAgent options) "antigravity")
               (or_else (o_requestType options) "agent")
               (String.append "session-" session)
               (mkRequest (Some generationConfig) thinking (tools request)
                  toolConfig (other request)),
             config)
      end
  end.

(** *** [transformRequestIn] of the pure-API interceptor *)

Record PlainWrapped : Type := mkPlainWrapped {
  p_model : option string;
  p_userAgent : option string;
  p_requestType : option string;
  p_request : Request
}.

(** When a token was obtained the headers are [Authorization] and three
    fixed ones; without a token no header is set. *)
Definition plain_transformRequestIn (options : Options)
    (token : option string) (request : Request) (provider : Provider)
  : option (PlainWrapped * Config) :=
  match custom_endpoint provider with
  | None => None
  | Some url =>
      Some
        (mkPlainWrapped (o_model options) (o_userAgent options)
           (o_requestType options) request,
         mkConfig (bearer token) url)
  end.
End RequestIn.

(** *** The streaming branch of [transformResponseOut] (the same in both
    interceptors) *)

(** What is enqueued: a line handed on as it came (followed by a line
    feed), or [data: ] and the payload serialised again. *)
Inductive Out : Type :=
| Line (text : string)
| Data (payload : ResponseData).

(** [payload.candidates?.[0]?.content?.parts || []], its first element. *)
Definition first_part (payload : ResponseData) : option Part :=
  match candidates payload with
  | c :: _ =>
      match parts c with
      | Some (p :: _) => Some p
      | _ => None
      end
  | [] => None
  end.

Definition blank_line : string :=
  String Stream.LF (String Stream.LF EmptyString).

(** [part.text = "\n\n" + part.text] on the first part. *)
Definition space_first_part (payload : ResponseData) : ResponseData :=
  match candidates payload with
  | c :: cs =>
      match parts c with
      | Some (p :: ps) =>
          mkResponseData (responseId payload)
            (mkCandidate
               (Some
                  (mkPart
                     (match data p with
                      | Text t => Text (String.append blank_line t)
                      | d => d
                      end)
                     (thought p) (thoughtSignature p)
                   :: ps))
               (finishReason c) (groundingMetadata c)
             :: cs)
            (usageMetadata payload)
      | _ => payload
      end
  | [] => payload
  end.

(** "Handle thinking block formatting": the payload to send and the new
    value of [isThinking]. *)
Definition format_thinking (isThinking : bool) (payload : ResponseData)
  : ResponseData * bool :=
  match first_part payload with
  | Some part =>
      if thought part then (payload, true)
      else
        match text_of part with
        | Some _ =>
            if isThinking then (space_first_part payload, false)
            else (payload, isThinking)
        | None => (payload, isThinking)
        end
  | None => (payload, isThinking)
  end.

(** The closure of the stream: [isThinking], and what has been
    enqueued. *)
Record Relay : Type := mkRelay {
  isThinking : bool;
  enqueued : list Out
}.

Section ResponseOut.
(** [String.prototype.trim], which takes off the white space and the
    line terminators of Unicode at both ends.  Which characters of a
    string those are depends on how the string is written down, which is
    left open here. *)
Variable trim : string -> string.
(** [JSON.parse] of the text after [data: ]; [None] when it throws, or
    when reading [json.response] does. *)
Variable JSON_parse : string -> option Envelope.

(** Body of [for (const line of lines)]. *)
Definition relay_line (s : Relay) (line : string) : Relay :=
  if String.prefix "data: " line then
    let dataStr := trim (Stream.slice6 line) in
    if String.eqb dataStr "[DONE]"
    then mkRelay (isThinking s) (enqueued s ++ [Line line])
    else
      match JSON_parse dataStr with
      | Some json =>
          let payload :=
            match response json with Some r => r | None => bare json end in
          let '(payload, thinking) :=
            format_thinking (isThinking s) payload in
          mkRelay thinking (enqueued s ++ [Data payload])
      | None => mkRelay (isThinking s) (enqueued s ++ [Line line])
      end
  else mkRelay (isThinking s) (enqueued s ++ [Line line]).

(** The [while (true)] loop over the decoded network chunks. *)
Fixpoint relay_loop (s : Relay) (buffer : string) (values : list string)
  : Relay :=
  match values with
  | [] =>
      if String.eqb (trim buffer) "" then s
      else mkRelay (isThinking s) (enqueued s ++ [Line buffer])
  | value :: rest =>
      let lines :=
        Stream.split_lines EmptyString (String.append buffer value) in
      relay_loop (fold_left relay_line (removelast lines) s)
        (last lines EmptyString) rest
  end.

(** What the new stream carries for a body that arrives as [values] and
    then ends. *)
Definition relay (values : list string) : list Out :=
  enqueued (relay_loop (mkRelay false []) EmptyString values).
End ResponseOut.

End GeminiInterceptor.

(* ================================================================== *)
(** * Properties *)
(* ================================================================== *)

(** ** The model router *)

Module RouterFacts.
Import RequestTransformer Router.

Lemma same_id_Some (o : option string) (s : string) :
  same_id o (Some s) = true <-> o = Some s.
Proof.
  destruct o as [x|]; simpl; split; intro H; try discriminate.
  - apply String.eqb_eq in H. now subst.
  - injection H as ->. apply String.eqb_refl.
Qed.

(** C7.  If [req.body.tools] holds a web-search tool -- an entry whose
    [type] is [web_search_20250305], the tool the specification calls by
    that name -- the router answers
    ["antigravity-websearch,gemini-2.5-flash"], whatever the other tools
    and whatever the declared model. *)
Theorem web_search_tool_selects_web_search_pipeline
    (toLowerCase : string -> string) (body : Body)
    (before after : list Tool) (tool : Tool) :
  tools body = Some (before ++ tool :: after) ->
  t_type tool = Some "web_search_20250305" ->
  fst (router toLowerCase body) = "antigravity-websearch,gemini-2.5-flash".
Proof.
  intros Htools Htype. unfold router. rewrite Htools.
  assert (Hsome : existsb is_web_search (before ++ tool :: after) = true).
  { rewrite existsb_app. simpl. unfold is_web_search at 2.
    rewrite (proj2 (same_id_Some _ _) Htype).
    now rewrite orb_true_r. }
  now rewrite Hsome.
Qed.

Definition grep_tool : Tool :=
  mkTool None (Some "Grep") (Some "Search file contents")
    (Some (JObj [("type", JStr "object")])) None None.

Definition web_search_tool : Tool :=
  mkTool (Some "web_search_20250305") (Some "web_search") None None None
    None.

Definition opus_request : Body :=
  mkBody (Some [grep_tool; web_search_tool; grep_tool])
    (Some "claude-opus-4-5-20251101") true false None.

Lemma web_search_tool_selects_web_search_pipeline_witness :
  fst (router (fun s => s) opus_request)
  = "antigravity-websearch,gemini-2.5-flash".
Proof.
  apply (web_search_tool_selects_web_search_pipeline (fun s => s)
           opus_request [grep_tool] [grep_tool] web_search_tool);
    reflexivity.
Defined.

(** Without such an entry the declared model decides. *)
Lemma no_web_search_tool_routes_by_model :
  router (fun s => s)
    (mkBody (Some [grep_tool]) (Some "claude-opus-4-5-20251101") false
       false None)
  = ("antigravity,claude-opus-4-5-thinking",
     mkBody (Some [grep_tool]) (Some "claude-opus-4-5-20251101") false
       false (Some "claude-opus-4-5-20251101")).
Proof. reflexivity. Qed.

End RouterFacts.

(** ** The schema sanitizer *)

Module SanitizerFacts.
Import Sanitizer.

(** No object of [j], at any depth, has a key of the deny-list. *)
Fixpoint supported_only (j : JSON) : bool :=
  match j with
  | JArr elems => forallb supported_only elems
  | JObj fields =>
      forallb
        (fun kv => negb (unsupported (fst kv)) && supported_only (snd kv))
        fields
  | _ => true
  end.

Definition entries_supported (fields : list (string * JSON)) : bool :=
  forallb (fun kv => negb (unsupported (fst kv)) && supported_only (snd kv))
    fields.

Lemma obj_set_supported key v cleaned :
  unsupported key = false ->
  supported_only v = true ->
  entries_supported cleaned = true ->
  entries_supported (obj_set key v cleaned) = true.
Proof.
  intros Hk Hv. unfold entries_supported.
  induction cleaned as [|[k w] rest IH]; simpl; intro H.
  - now rewrite Hk, Hv.
  - apply andb_true_iff in H as [Hkw Hrest].
    destruct (String.eqb k key) eqn:E; simpl.
    + apply andb_true_iff in Hkw as [Hk' _].
      now rewrite Hk', Hv, Hrest.
    + now rewrite Hkw, IH.
Qed.

Lemma obj_delete_supported key cleaned :
  entries_supported cleaned = true ->
  entries_supported (obj_delete key cleaned) = true.
Proof.
  unfold entries_supported, obj_delete.
  induction cleaned as [|kv rest IH]; simpl; intro H; [reflexivity|].
  apply andb_true_iff in H as [Hkv Hrest].
  destruct (negb (String.eqb (fst kv) key)); simpl; auto.
  now rewrite Hkv, IH.
Qed.

(** An assignment adds to the object's own properties, or, under the
    name [__proto__], leaves them as they are. *)
Lemma assign_own (key : string) (v : Cleaned) (cleaned : Building) :
  own (assign key v cleaned)
  = if String.eqb key "__proto__" then own cleaned
    else obj_set key (returned v) (own cleaned).
Proof.
  unfold assign. destruct (String.eqb key "__proto__"); [|reflexivity].
  now destruct (returned v).
Qed.

Lemma assign_supported key v cleaned :
  unsupported key = false ->
  supported_only (returned v) = true ->
  entries_supported (own cleaned) = true ->
  entries_supported (own (assign key v cleaned)) = true.
Proof.
  intros Hk Hv Hc. rewrite assign_own.
  destruct (String.eqb key "__proto__"); [exact Hc|].
  now apply obj_set_supported.
Qed.

Lemma drop_dangling_required_supported cleaned :
  entries_supported (own cleaned) = true ->
  entries_supported (own (drop_dangling_required cleaned)) = true.
Proof.
  intro H. unfold drop_dangling_required.
  destruct (_ && _); cbn [own]; auto using obj_delete_supported.
Qed.

Section WalkSupported.
Variable clean : JSON -> option Cleaned.

Definition cleans_well (x : JSON) : Prop :=
  forall y, clean x = Some y -> supported_only (returned y) = true.

Lemma clean_elems_supported elems out :
  Forall cleans_well elems ->
  clean_elems clean elems = Some out ->
  forallb supported_only out = true.
Proof.
  intro Hall. revert out.
  induction Hall as [|x t Hx _ IH]; simpl; intros out H.
  - now injection H as <-.
  - destruct (clean x) as [x'|] eqn:Ex; [|discriminate].
    destruct (clean_elems clean t) as [t'|]; [|discriminate].
    injection H as <-. simpl.
    now rewrite (Hx _ Ex), (IH _ eq_refl).
Qed.

Lemma clean_entry_supported key value cleaned out :
  cleans_well value ->
  entries_supported (own cleaned) = true ->
  clean_entry clean key value cleaned = Some out ->
  entries_supported (own out) = true.
Proof.
  intros Hv Hc. unfold clean_entry.
  destruct (unsupported key) eqn:Hk.
  { now intros [= <-]. }
  destruct (String.eqb key "required" && is_empty_array value).
  { now intros [= <-]. }
  destruct (String.eqb key "properties" && typeof_object value).
  { destruct (keys_length value) as [[|n]|]; try discriminate.
    - now intros [= <-].
    - destruct (clean value) as [v'|] eqn:Ev; [|discriminate].
      intros [= <-]. apply assign_supported; auto. }
  destruct (String.eqb key "items" && typeof_object value).
  { destruct (clean value) as [v'|] eqn:Ev; [|discriminate].
    destruct (keys_length (returned v')) as [[|n]|]; try discriminate;
      intros [= <-]; apply assign_supported; auto. }
  destruct (clean value) as [v'|] eqn:Ev; [|discriminate].
  intros [= <-]. apply assign_supported; auto.
Qed.

Lemma clean_entries_supported fields :
  Forall (fun kv => cleans_well (snd kv)) fields ->
  forall cleaned out,
    entries_supported (own cleaned) = true ->
    clean_entries clean fields cleaned = Some out ->
    entries_supported (own out) = true.
Proof.
  induction 1 as [|[key value] rest Hv _ IH]; simpl; intros cleaned out Hc H.
  - now injection H as <-.
  - destruct (clean_entry clean key value cleaned) as [c'|] eqn:E;
      [|discriminate].
    eapply IH; [|exact H].
    eapply clean_entry_supported; eauto.
Qed.
End WalkSupported.

Lemma cleanParameters_with_chain_supported (x : JSON) :
  cleans_well cleanParameters_with_chain x.
Proof.
  induction x as [| b | n | s | elems IH | fields IH] using JSON_ind;
    intros y H.
  - now injection H as <-.
  - now injection H as <-.
  - now injection H as <-.
  - now injection H as <-.
  - simpl in H.
    destruct (clean_elems cleanParameters_with_chain elems) as [out|] eqn:E;
      [|discriminate].
    injection H as <-. simpl.
    apply (clean_elems_supported cleanParameters_with_chain elems out IH E).
  - simpl in H.
    destruct (clean_entries cleanParameters_with_chain fields empty_object)
      as [out|] eqn:E; [|discriminate].
    injection H as <-. cbn [built returned].
    change (entries_supported (own (drop_dangling_required out)) = true).
    apply drop_dangling_required_supported.
    apply (clean_entries_supported cleanParameters_with_chain fields IH
             empty_object out eq_refl E).
Qed.

(** What [cleanParameters] gives is what the walk returns. *)
Lemma cleanParameters_returned (x y : JSON) :
  cleanParameters x = Some y ->
  exists c, cleanParameters_with_chain x = Some c /\ returned c = y.
Proof.
  unfold cleanParameters.
  destruct (cleanParameters_with_chain x) as [c|]; [|discriminate].
  intros [= <-]. now exists c.
Qed.

(** X1.  Whatever [cleanParameters] returns carries no key of the
    deny-list, at any nesting depth, inside [items] and arrays
    included. *)
Lemma cleanParameters_strips_unsupported (x y : JSON) :
  cleanParameters x = Some y -> supported_only y = true.
Proof.
  intro H. destruct (cleanParameters_returned x y H) as (c & Hc & <-).
  exact (cleanParameters_with_chain_supported x c Hc).
Qed.

(** *** Where a second pass changes nothing *)

Definition is_empty_container (j : JSON) : bool :=
  match j with
  | JArr [] | JObj [] => true
  | _ => false
  end.

(** A [required] without [properties] beside it. *)
Definition dangling_required (fields : list (string * JSON)) : bool :=
  truthy_opt (obj_get "required" fields)
  && negb (truthy_opt (obj_get "properties" fields)).

Definition entry_settled (settled : JSON -> bool) (kv : string * JSON)
  : bool :=
  negb (String.eqb (fst kv) "properties" && is_empty_container (snd kv))
  && settled (snd kv).

(** In no object of [j], at any depth, is a [properties] entry an empty
    object (or array), or a [required] left without [properties] beside
    it. *)
Fixpoint settled (j : JSON) : bool :=
  match j with
  | JArr elems => forallb settled elems
  | JObj fields =>
      negb (dangling_required fields)
      && forallb (entry_settled settled) fields
  | _ => true
  end.

(** The walk returns [y] as it is, an object that inherits from none the
    walk has built. *)
Definition kept (y : JSON) : Prop :=
  cleanParameters_with_chain y = Some (mkCleaned y []).

Lemma clean_elems_length (clean : JSON -> option Cleaned)
    (l out : list JSON) :
  clean_elems clean l = Some out -> List.length out = List.length l.
Proof.
  revert out. induction l as [|x t IH]; simpl; intros out H.
  - now injection H as <-.
  - destruct (clean x); [|discriminate].
    destruct (clean_elems clean t); [|discriminate].
    injection H as <-. simpl. now rewrite (IH _ eq_refl).
Qed.

(** Cleaning keeps the kind of a value, and the emptiness of an array. *)
Lemma cleanParameters_with_chain_shape (x : JSON) (y : Cleaned) :
  cleanParameters_with_chain x = Some y ->
  typeof_object (returned y) = typeof_object x
  /\ is_empty_array (returned y) = is_empty_array x
  /\ (returned y = JNull <-> x = JNull).
Proof.
  destruct x as [| b | n | s | elems | fields]; simpl; intro H;
    try (injection H as <-; repeat split; auto).
  - destruct (clean_elems cleanParameters_with_chain elems) as [out|] eqn:E;
      [|discriminate].
    injection H as <-. apply clean_elems_length in E. cbn [returned].
    repeat split; try discriminate.
    destruct out, elems; simpl in *; auto; discriminate.
  - destruct (clean_entries cleanParameters_with_chain fields empty_object);
      [|discriminate].
    injection H as <-. repeat split; discriminate.
Qed.

Lemma cleanParameters_shape (x y : JSON) :
  cleanParameters x = Some y ->
  typeof_object y = typeof_object x
  /\ is_empty_array y = is_empty_array x
  /\ (y = JNull <-> x = JNull).
Proof.
  intro H. destruct (cleanParameters_returned x y H) as (c & Hc & <-).
  exact (cleanParameters_with_chain_shape x c Hc).
Qed.

(** An entry of a cleaned object that a second pass takes over as it
    is, provided its value is itself left alone. *)
Definition passes (kv : string * JSON) : Prop :=
  unsupported (fst kv) = false
  /\ String.eqb (fst kv) "__proto__" = false
  /\ (fst kv = "required" -> is_empty_array (snd kv) = false)
  /\ (fst kv = "properties" -> snd kv <> JNull)
  /\ (fst kv = "items" -> typeof_object (snd kv) = true ->
      exists n, keys_length (snd kv) = Some (S n))
  /\ (settled (snd kv) = true -> kept (snd kv)).

Definition keys (fields : list (string * JSON)) : list string :=
  map fst fields.

Lemma obj_set_keys key v fields :
  keys (obj_set key v fields)
  = if existsb (String.eqb key) (keys fields) then keys fields
    else keys fields ++ [key].
Proof.
  unfold keys. induction fields as [|[k w] rest IH]; simpl; [reflexivity|].
  rewrite (String.eqb_sym key k).
  destruct (String.eqb k key); simpl; [reflexivity|].
  rewrite IH. now destruct (existsb (String.eqb key) (map fst rest)).
Qed.

Lemma existsb_eqb_In key (l : list string) :
  existsb (String.eqb key) l = true <-> In key l.
Proof.
  rewrite existsb_exists. split.
  - intros (x & Hin & Heq). apply String.eqb_eq in Heq. now subst.
  - intro Hin. exists key. split; [exact Hin | apply String.eqb_refl].
Qed.

Lemma obj_set_NoDup key v fields :
  NoDup (keys fields) -> NoDup (keys (obj_set key v fields)).
Proof.
  intro H. rewrite obj_set_keys.
  destruct (existsb (String.eqb key) (keys fields)) eqn:E; [exact H|].
  apply NoDup_app; [exact H | repeat constructor; auto |].
  intros k Hin [<-|[]].
  apply existsb_eqb_In in Hin. congruence.
Qed.

Lemma obj_set_passes key v fields :
  passes (key, v) -> Forall passes fields ->
  Forall passes (obj_set key v fields).
Proof.
  intros Hkv. induction 1 as [|[k w] rest Hk Hrest IH]; simpl.
  - constructor; [exact Hkv | constructor].
  - destruct (String.eqb k key) eqn:E.
    + apply String.eqb_eq in E. subst. now constructor.
    + now constructor.
Qed.

Lemma obj_set_fresh key v fields :
  ~ In key (keys fields) -> obj_set key v fields = fields ++ [(key, v)].
Proof.
  unfold keys. induction fields as [|[k w] rest IH]; simpl; intro H;
    [reflexivity|].
  destruct (String.eqb k key) eqn:E.
  - apply String.eqb_eq in E. tauto.
  - rewrite IH; tauto.
Qed.

(** The object under construction holds each name once, and entries
    that pass. *)
Definition passable (cleaned : Building) : Prop :=
  NoDup (keys (own cleaned)) /\ Forall passes (own cleaned).

Lemma assign_passable key v cleaned :
  (String.eqb key "__proto__" = false -> passes (key, returned v)) ->
  passable cleaned ->
  passable (assign key v cleaned).
Proof.
  intros Hkv [Hnd Hall]. unfold passable. rewrite assign_own.
  destruct (String.eqb key "__proto__"); [now split|].
  split; [now apply obj_set_NoDup | now apply obj_set_passes; auto].
Qed.

Section FirstPass.
Variable clean : JSON -> option Cleaned.

(** What the induction gives for the values below. *)
Definition settles (x : JSON) : Prop :=
  forall y, clean x = Some y ->
            (settled (returned y) = true -> kept (returned y))
            /\ typeof_object (returned y) = typeof_object x
            /\ is_empty_array (returned y) = is_empty_array x
            /\ (returned y = JNull <-> x = JNull).

Lemma clean_entry_passes key value cleaned out :
  settles value ->
  passable cleaned ->
  clean_entry clean key value cleaned = Some out ->
  passable out.
Proof.
  intros Hv Hall. unfold clean_entry.
  destruct (unsupported key) eqn:Hk.
  { now intros [= <-]. }
  destruct (String.eqb key "required" && is_empty_array value) eqn:Hreq.
  { now intros [= <-]. }
  assert (Hgeneric : forall v',
             clean value = Some v' ->
             (key = "properties" -> value <> JNull) ->
             (key = "items" -> typeof_object value = false) ->
             passable (assign key v' cleaned)).
  { intros v' Ev Hprop Hitems.
    destruct (Hv _ Ev) as (Hstable & Htype & Hempty & Hnull).
    apply assign_passable; [|exact Hall]. intro Hproto.
    repeat split; cbn [fst snd]; auto.
    - intros ->. rewrite Hempty.
      now destruct (is_empty_array value).
    - intros Hp Hn. apply (Hprop Hp). now apply Hnull.
    - intros Hi Ht. rewrite Htype, (Hitems Hi) in Ht. discriminate. }
  destruct (String.eqb key "properties" && typeof_object value) eqn:Hprop.
  { apply andb_true_iff in Hprop as [Hp Ht].
    apply String.eqb_eq in Hp. subst key.
    destruct (keys_length value) as [[|n]|] eqn:Hlen; try discriminate.
    - now intros [= <-].
    - destruct (clean value) as [v'|] eqn:Ev; [|discriminate].
      intros [= <-]. apply Hgeneric; auto; try discriminate.
      intros _ ->. discriminate. }
  destruct (String.eqb key "items" && typeof_object value) eqn:Hitems.
  { apply andb_true_iff in Hitems as [Hi Ht].
    apply String.eqb_eq in Hi. subst key.
    destruct (clean value) as [v'|] eqn:Ev; [|discriminate].
    destruct (Hv _ Ev) as (Hstable & Htype & Hempty & Hnull).
    destruct (keys_length (returned v')) as [[|n]|] eqn:Hlen;
      try discriminate;
      intros [= <-]; (apply assign_passable; [|exact Hall]); intros _;
      repeat split; cbn [fst snd returned]; auto; try discriminate.
    - intros _ _. now exists 0.
    - intros _ _. now exists n. }
  destruct (clean value) as [v'|] eqn:Ev; [|discriminate].
  intros [= <-]. apply Hgeneric; auto.
  - intros -> ->. discriminate.
  - intros ->. simpl in Hitems. exact Hitems.
Qed.

Lemma clean_entries_passes fields :
  Forall (fun kv => settles (snd kv)) fields ->
  forall cleaned out,
    passable cleaned ->
    clean_entries clean fields cleaned = Some out ->
    passable out.
Proof.
  induction 1 as [|[key value] rest Hv _ IH]; simpl;
    intros cleaned out Hall H.
  - now injection H as <-.
  - destruct (clean_entry clean key value cleaned) as [c'|] eqn:E;
      [|discriminate].
    exact (IH _ _ (clean_entry_passes _ _ _ _ Hv Hall E) H).
Qed.
End FirstPass.

(** The second pass takes over, one for one, the entries that pass. *)
Lemma clean_entries_second_pass (l : list (string * JSON)) :
  forall cleaned,
    NoDup (keys (cleaned ++ l)) ->
    Forall passes l ->
    forallb (entry_settled settled) l = true ->
    clean_entries cleanParameters_with_chain l (mkBuilding cleaned [])
    = Some (mkBuilding (cleaned ++ l) []).
Proof.
  induction l as [|[k v] rest IH]; intros cleaned Hnd Hall Hgood.
  - simpl. now rewrite app_nil_r.
  - inversion Hall
      as [|? ? (Hk & Hproto & Hreq & Hprop & Hitems & Hstable) Hrest];
      subst. cbn [fst snd] in *.
    simpl in Hgood. apply andb_true_iff in Hgood as [Hkv Hgood].
    apply andb_true_iff in Hkv as [Hne Hv].
    assert (Hfresh : ~ In k (keys cleaned)).
    { unfold keys in *. rewrite map_app in Hnd. simpl in Hnd.
      apply NoDup_remove_2 in Hnd. intro Hin. apply Hnd.
      apply in_or_app. now left. }
    assert (Hassign : assign k (mkCleaned v []) (mkBuilding cleaned [])
                      = mkBuilding (cleaned ++ [(k, v)]) []).
    { unfold assign. rewrite Hproto. cbn [own returned inherited].
      now rewrite obj_set_fresh. }
    assert (Hentry : clean_entry cleanParameters_with_chain k v
                       (mkBuilding cleaned [])
                     = Some (mkBuilding (cleaned ++ [(k, v)]) [])).
    { unfold clean_entry. rewrite Hk.
      destruct (String.eqb k "required") eqn:Er.
      { apply String.eqb_eq in Er. rewrite (Hreq Er). cbn [andb].
        subst k. cbn [String.eqb Ascii.eqb Bool.eqb andb].
        rewrite (Hstable Hv). now rewrite Hassign. }
      cbn [andb].
      destruct (String.eqb k "properties") eqn:Ep.
      { apply String.eqb_eq in Ep. specialize (Hprop Ep). cbn [andb] in *.
        destruct (typeof_object v) eqn:Ht.
        - assert (Hlen : exists n, keys_length v = Some (S n)).
          { rewrite Ep in Hne. cbn [String.eqb Ascii.eqb Bool.eqb andb] in Hne.
            destruct v as [| b | n | s | [|e es] | [|f fs]];
              simpl in *; try discriminate; try contradiction; eauto. }
          destruct Hlen as [n ->].
          rewrite (Hstable Hv). now rewrite Hassign.
        - destruct (String.eqb k "items"); cbn [andb];
            rewrite (Hstable Hv); now rewrite Hassign. }
      cbn [andb].
      destruct (String.eqb k "items") eqn:Ei.
      { apply String.eqb_eq in Ei. specialize (Hitems Ei). cbn [andb].
        destruct (typeof_object v) eqn:Ht.
        - destruct (Hitems eq_refl) as [n Hn].
          rewrite (Hstable Hv). cbn [returned]. rewrite Hn.
          now rewrite Hassign.
        - rewrite (Hstable Hv). now rewrite Hassign. }
      cbn [andb]. rewrite (Hstable Hv). now rewrite Hassign. }
    cbn [clean_entries]. rewrite Hentry.
    rewrite IH; [now rewrite <- app_assoc | | exact Hrest | exact Hgood].
    now rewrite <- app_assoc.
Qed.

Lemma obj_delete_sub key (l : list (string * JSON)) :
  incl (obj_delete key l) l /\ (NoDup (keys l) -> NoDup (keys (obj_delete key l))).
Proof.
  unfold obj_delete, keys. split.
  - apply incl_filter.
  - induction l as [|kv rest IH]; simpl; intro H; [constructor|].
    inversion H; subst.
    destruct (negb (String.eqb (fst kv) key)); simpl; auto.
    constructor; auto. intro Hin. apply H2.
    apply in_map_iff in Hin as (x & <- & Hx).
    apply in_map. now apply filter_In in Hx.
Qed.

Lemma obj_get_deleted key (l : list (string * JSON)) :
  obj_get key (obj_delete key l) = None.
Proof.
  unfold obj_delete. induction l as [|[k v] rest IH]; simpl; [reflexivity|].
  destruct (String.eqb k key) eqn:E; simpl; [exact IH|].
  now rewrite E.
Qed.

(** An object that inherits from none the walk has built is read by its
    own properties. *)
Lemma read_own (key : string) (fields : list (string * JSON)) :
  read key (mkBuilding fields []) = obj_get key fields.
Proof.
  unfold read. cbn [own inherited inherit]. now destruct (obj_get key fields).
Qed.

Lemma drop_dangling_required_own (cleaned : Building) :
  incl (own (drop_dangling_required cleaned)) (own cleaned)
  /\ (NoDup (keys (own cleaned)) ->
      NoDup (keys (own (drop_dangling_required cleaned)))).
Proof.
  unfold drop_dangling_required. destruct (_ && _); cbn [own].
  - apply obj_delete_sub.
  - split; [apply incl_refl | auto].
Qed.

Lemma cleanParameters_with_chain_settles (x : JSON) :
  forall y,
    cleanParameters_with_chain x = Some y ->
    settled (returned y) = true ->
    kept (returned y).
Proof.
  induction x as [| b | n | s | elems IH | fields IH] using JSON_ind;
    intros y H Hgood; try (injection H as <-; reflexivity).
  - simpl in H.
    destruct (clean_elems cleanParameters_with_chain elems) as [out|] eqn:E;
      [|discriminate].
    injection H as <-. cbn [returned] in *. unfold kept. simpl in *.
    assert (Hout : clean_elems cleanParameters_with_chain out = Some out).
    { revert out E Hgood.
      induction IH as [|x t Hx _ IHt]; simpl; intros out E Hgood.
      - now injection E as <-.
      - destruct (cleanParameters_with_chain x) as [x'|] eqn:Ex;
          [|discriminate].
        destruct (clean_elems cleanParameters_with_chain t) as [t'|];
          [|discriminate].
        injection E as <-. simpl in *.
        apply andb_true_iff in Hgood as [Hx' Ht'].
        rewrite (Hx _ eq_refl Hx'), (IHt _ eq_refl Ht'). reflexivity. }
    now rewrite Hout.
  - simpl in H.
    destruct (clean_entries cleanParameters_with_chain fields empty_object)
      as [out|] eqn:E; [|discriminate].
    injection H as <-. cbn [built returned] in *.
    assert (Hsettles : Forall
                         (fun kv => settles cleanParameters_with_chain
                                      (snd kv))
                         fields).
    { eapply Forall_impl; [|exact IH]. intros kv Hkv y Hy.
      split; [now apply Hkv | now apply cleanParameters_with_chain_shape]. }
    destruct (clean_entries_passes cleanParameters_with_chain fields
                Hsettles empty_object out
                (conj (NoDup_nil _) (Forall_nil _)) E) as [Hnd Hall].
    destruct (drop_dangling_required_own out) as [Hincl Hnd'].
    specialize (Hnd' Hnd).
    assert (Hall' : Forall passes (own (drop_dangling_required out))).
    { rewrite Forall_forall in *. auto. }
    cbn [settled] in Hgood. apply andb_true_iff in Hgood as [Hdangling Hgood].
    unfold kept. cbn [cleanParameters_with_chain]. unfold empty_object.
    rewrite (clean_entries_second_pass _ [] Hnd' Hall' Hgood).
    cbn [app option_map]. unfold drop_dangling_required at 1.
    rewrite !read_own.
    fold (dangling_required (own (drop_dangling_required out))).
    apply negb_true_iff in Hdangling. now rewrite Hdangling.
Qed.

(** X2.  A second pass changes nothing on a cleaned schema in which no
    [properties] object is left empty and no [required] is left without
    [properties] beside it.  (Any [x] will do for the first pass.) *)
Lemma cleanParameters_second_pass_keeps_a_settled_schema (x : JSON) :
  forall y,
    cleanParameters x = Some y ->
    settled y = true ->
    cleanParameters y = Some y.
Proof.
  intros y H Hgood.
  destruct (cleanParameters_returned x y H) as (c & Hc & <-).
  unfold cleanParameters.
  now rewrite (cleanParameters_with_chain_settles x c Hc Hgood).
Qed.

(** The input schema of a file-search tool: one parameter, called
    [pattern]. *)
Definition glob_schema : JSON :=
  JObj [ ("type", JStr "object");
         ("properties", JObj [("pattern", JObj [("type", JStr "string")])]);
         ("required", JArr [JStr "pattern"]) ].

Definition glob_schema_cleaned : JSON :=
  JObj [ ("type", JStr "object");
         ("properties", JObj []);
         ("required", JArr [JStr "pattern"]) ].

(** C4.  [cleanParameters] is not idempotent.  On the schema of a tool
    whose only parameter is called [pattern] the first pass removes the
    parameter (its name is on the deny-list) and leaves an empty
    [properties] object with a [required] list beside it; a second pass
    drops both. *)
Theorem cleanParameters_twice_differs_on_glob_schema :
  cleanParameters glob_schema = Some glob_schema_cleaned
  /\ cleanParameters glob_schema_cleaned
     = Some (JObj [("type", JStr "object")])
  /\ cleanParameters glob_schema_cleaned <> Some glob_schema_cleaned.
Proof.
  repeat split; try reflexivity. discriminate.
Qed.

(** The other rules hold on what the first pass is given: an empty
    [required], an empty [properties], an [items] that cleans to nothing
    and a [required] without [properties]. *)
Example cleanParameters_rules :
  cleanParameters
    (JObj [ ("required", JArr []); ("properties", JObj []);
            ("items", JObj [("format", JStr "uri")]) ])
  = Some (JObj [("items", JObj [("type", JStr "string")])])
  /\ cleanParameters (JObj [("required", JArr [JStr "a"])]) = Some (JObj []).
Proof. split; reflexivity. Qed.

(** A schema with an entry named [__proto__].  The cleaned object has no
    such property: it inherits [properties] from what the entry held,
    and so keeps a [required] that a second pass, which finds no
    [properties], removes. *)
Definition inheriting_schema : JSON :=
  JObj [ ("__proto__",
          JObj [("properties", JObj [("a", JObj [("type", JStr "string")])])]);
         ("required", JArr [JStr "a"]) ].

Example cleanParameters_inherits :
  cleanParameters inheriting_schema
  = Some (JObj [("required", JArr [JStr "a"])])
  /\ cleanParameters (JObj [("required", JArr [JStr "a"])])
     = Some (JObj []).
Proof. split; reflexivity. Qed.

End SanitizerFacts.

(** ** Tool declarations of the request transformer *)

Module ToolFacts.
Import RequestTransformer.

Definition search_schema : JSON :=
  JObj [ ("type", JStr "object");
         ("properties",
          JObj [("Query", JObj [ ("type", JStr "string");
                                 ("description", JStr "Search term") ]);
                ("CaseInsensitive", JObj [("type", JStr "boolean")])]);
         ("required", JArr [JStr "Query"]);
         ("additionalProperties", JBool false) ].

(** The tool of the transformer's own documentation, and a tool that
    brings no schema. *)
Definition grep_search : Tool :=
  mkTool None (Some "grep_search") (Some "Search for text...")
    (Some search_schema) None None.

Definition list_all : Tool :=
  mkTool None (Some "list_all") None None None None.

(** C2.  The request transformer leaves the case of [type] values as it
    finds it: for the documented [grep_search] tool the declaration
    carries [object], [string] and [boolean], none of them an upstream
    type name, and a tool without a schema gets
    [{type: "object", properties: {}}]. *)
Theorem declared_types_are_not_upper_cased :
  build_tools (Some [grep_search; list_all])
  = Some (Some
      [ mkFunctionDeclaration (Some "grep_search") "Search for text..."
          (JObj [ ("type", JStr "object");
                  ("properties",
                   JObj [("Query", JObj [ ("type", JStr "string");
                                          ("description",
                                           JStr "Search term") ]);
                         ("CaseInsensitive",
                          JObj [("type", JStr "boolean")])]);
                  ("required", JArr [JStr "Query"]) ]);
        mkFunctionDeclaration (Some "list_all") ""
          (JObj [("type", JStr "object"); ("properties", JObj [])]) ])
  /\ (forall ds d,
        build_tools (Some [grep_search; list_all]) = Some (Some ds) ->
        In d ds ->
        forallb upstream_type (type_values (fd_parameters d)) = false).
Proof.
  split; [reflexivity|].
  intros ds d H Hin. vm_compute in H. injection H as <-.
  destruct Hin as [<-|[<-|[]]]; reflexivity.
Qed.

(** The web-search tool is left out of the declarations, and when
    nothing else remains no [tools] entry is sent. *)
Definition web_search : Tool :=
  mkTool (Some "web_search_20250305") (Some "web_search") None None None
    None.

Lemma web_search_tool_is_not_declared :
  build_tools (Some [web_search]) = Some None
  /\ build_tools (Some [web_search; list_all])
     = Some (Some
         [ mkFunctionDeclaration (Some "list_all") ""
             (JObj [("type", JStr "object"); ("properties", JObj [])]) ]).
Proof. split; reflexivity. Qed.

End ToolFacts.

(** ** Which replies [transformResponseOut] relays *)

Module ResponseOutFacts.
Import Upstream ResponseOut.

(** C9.  The Antigravity transformer does not look at the status of the
    reply.  A non-2xx reply announced as an event stream is re-encoded
    under new headers, and one announced as JSON has its body read by
    [response.json()] before the response object is handed back. *)
Theorem antigravity_transforms_error_replies
    (JSON_parse : string -> option Envelope)
    (toLowerCase : string -> string) (random_suffix : nat -> string)
    (date_now : nat -> Z) (randomUUID defaultModel : string)
    (reply : Response) (context : Context) :
  ok reply = false ->
  isWebSearch context = false ->
  (forall values,
     header_get "content-type" (headers reply)
       = Some "text/event-stream" ->
     body reply = Some values ->
     transformResponseOut JSON_parse toLowerCase random_suffix date_now
       randomUUID defaultModel reply context
     = New (status reply) (statusText reply) stream_headers
         (EventStream
            (Stream.transformStreamResponse JSON_parse random_suffix
               date_now (or_else (requestModel context) defaultModel)
               values)))
  /\ (forall values error,
        header_get "content-type" (headers reply)
          = Some "application/json" ->
        body reply = Some values ->
        JSON_parse (String.concat "" values) = Some error ->
        response error = None ->
        transformResponseOut JSON_parse toLowerCase random_suffix date_now
          randomUUID defaultModel reply context
        = Same true).
Proof.
  intros _ Hws. split.
  - intros values Hct Hbody. unfold transformResponseOut.
    rewrite Hws, Hct, Hbody. reflexivity.
  - intros values error Hct Hbody Hparse Hbare. unfold transformResponseOut.
    rewrite Hws, Hct. cbn [andb or_else]. 
    change (includes "application/json" "text/event-stream") with false.
    change (includes "application/json" "stream") with false.
    change (includes "application/json" "application/json") with true.
    cbn [orb String.eqb]. unfold json. rewrite Hbody, Hparse.
    unfold JsonResponse.transformJsonResponse. now rewrite Hbare.
Qed.

(** A quota error as the upstream words it, and a gateway error arriving
    on a streaming request. *)
Definition quoted (s : string) : string :=
  String (Ascii.ascii_of_nat 34)
    (String.append s (String (Ascii.ascii_of_nat 34) EmptyString)).

Definition quota_error_text : string :=
  String.concat ""
    ["{"; quoted "error"; ":{"; quoted "code"; ":429,"; quoted "status";
     ":"; quoted "RESOURCE_EXHAUSTED"; "}}"].

Definition quota_error : Response :=
  mkResponse 429 "Too Many Requests"
    [("content-type", "application/json; charset=UTF-8")]
    (Some [quota_error_text]).

Definition unavailable : Response :=
  mkResponse 503 "Service Unavailable"
    [("content-type", "text/event-stream")]
    (Some ["upstream connect error"]).

(** A parser that reads any text as an object with no [response] and no
    [candidates], which is what the error body above is. *)
Definition no_candidates : Envelope :=
  mkEnvelope None (mkResponseData None [] None).

Definition parse_error_body (text : string) : option Envelope :=
  Some no_candidates.

Definition opus_context : Context :=
  mkContext (Some "claude-opus-4-5-20251101") false.

Lemma antigravity_transforms_error_replies_witness :
  transformResponseOut parse_error_body (fun s => s) (fun _ => "r")
    (fun _ => 0%Z) "u" "claude-sonnet-4-5-20250514" unavailable
    opus_context
  = New 503 "Service Unavailable" stream_headers (EventStream []).
Proof.
  apply (proj1
           (antigravity_transforms_error_replies parse_error_body
              (fun s => s) (fun _ => "r") (fun _ => 0%Z) "u"
              "claude-sonnet-4-5-20250514" unavailable opus_context
              eq_refl eq_refl)
           ["upstream connect error"]);
    reflexivity.
Defined.

(** The same on the quota error, whose content type carries a charset. *)
Lemma quota_error_body_is_consumed :
  transformResponseOut parse_error_body (fun s => s) (fun _ => "r")
    (fun _ => 0%Z) "u" "claude-sonnet-4-5-20250514" quota_error
    opus_context
  = Same true.
Proof. reflexivity. Qed.

(** Both Gemini interceptors do return a non-2xx reply as they got it. *)
Lemma interceptors_relay_error_replies (rewrite : Response -> Relayed)
    (reply : Response) :
  ok reply = false ->
  interceptor_transformResponseOut rewrite reply = Same false.
Proof.
  intro H. unfold interceptor_transformResponseOut. now rewrite H.
Qed.

End ResponseOutFacts.

(** ** The token managers *)

Module TokenFacts.
Import TokenManager.

(** *** Credentials without a refresh token *)

(** Client id and secret entered, consent never given. *)
Definition signed_out : Credentials :=
  mkCredentials (Some "client-id") (Some "client-secret") None None None
    None.

Definition empty_cache : Cache := mkCache None (Some 0%Z).

(** The requirement as the specification words it, read on the library-based
    interceptor: the call fails, and no login flow is among its
    effects. *)
Definition fails_without_login
    (run : option Outcome * LegacyInterceptor.World) : Prop :=
  exists message,
    fst run = Some (Thrown message)
    /\ ~ In LoginFlow (LegacyInterceptor.effects (snd run)).

Definition legacy_world : LegacyInterceptor.World :=
  LegacyInterceptor.mkWorld empty_cache (Some signed_out) 0 0 0 [].

(** The library-based interceptor does start the login flow from
    [transformRequestIn]; here the user closes it and the call returns
    [null]. *)
Lemma legacy_interceptor_starts_login_flow :
  LegacyInterceptor.getFreshAccessToken
    (fun _ => LegacyInterceptor.LoginDeclined)
    (fun _ _ => LegacyInterceptor.RefreshFailed "unused")
    (fun _ => 1000%Z) 1 legacy_world
  = (Some (Returned None),
     LegacyInterceptor.mkWorld empty_cache (Some signed_out) 1 0 1
       [LoginFlow])
  /\ ~ fails_without_login
         (LegacyInterceptor.getFreshAccessToken
            (fun _ => LegacyInterceptor.LoginDeclined)
            (fun _ _ => LegacyInterceptor.RefreshFailed "unused")
            (fun _ => 1000%Z) 1 legacy_world).
Proof.
  split; [reflexivity|].
  intros (message & H & _). discriminate H.
Qed.

(** Whatever the user and the token endpoint do next, the library-based
    interceptor opens with the login flow when the file holds no refresh
    token and the cache is stale. *)
Section LegacyFlow.
Import LegacyInterceptor.
Variable runLoginFlow : nat -> LoginResult.
Variable getAccessToken : nat -> Credentials -> RefreshResult.
Variable clock : nat -> Z.

Lemma login_effects (w : World) :
  exists more,
    effects (snd (login runLoginFlow w)) = effects w ++ LoginFlow :: more.
Proof.
  unfold login. destruct (runLoginFlow (logins w)); simpl; eauto.
Qed.

(** Goes through the branches of [getFreshAccessToken], recording for
    each login on the way what it adds to the effects. *)
Ltac walk_flow runLoginFlow login_effects :=
  repeat match goal with
         | |- context [login runLoginFlow ?w0] =>
             let r := fresh "r" in
             let w1 := fresh "w" in
             let E := fresh "E" in
             let m := fresh "m" in
             let Hm := fresh "Hm" in
             destruct (login_effects w0) as [m Hm];
             destruct (login runLoginFlow w0) as [r w1] eqn:E;
             cbn [snd effects] in Hm
         | |- context [match ?x with _ => _ end] => destruct x eqn:?
         | |- context [if ?x then _ else _] => destruct x eqn:?
         end.

(** Rewrites the effects recorded by [walk_flow] into the goal. *)
Ltac sum_effects :=
  cbn [snd effects];
  repeat match goal with
         | Hm : effects _ = _ |- _ => rewrite Hm
         end;
  cbn [effects]; rewrite <- ?app_assoc; cbn [app]; eauto.

(** A run adds to the effects, also one that is cut off. *)
Lemma effects_grow (fuel : nat) :
  forall w,
    exists more,
      effects (snd (getFreshAccessToken runLoginFlow getAccessToken clock
                      fuel w))
      = effects w ++ more.
Proof.
  induction fuel as [|fuel IH]; intro w.
  { exists []. cbn [getFreshAccessToken snd]. now rewrite app_nil_r. }
  cbn [getFreshAccessToken].
  walk_flow runLoginFlow login_effects;
    try match goal with
        | |- context [getFreshAccessToken _ _ _ fuel ?w0] =>
            let more := fresh "more" in
            let H := fresh "H" in
            destruct (IH w0) as [more H]; rewrite H
        end;
    try sum_effects;
    try (exists []; now rewrite app_nil_r).
Qed.

Lemma legacy_interceptor_opens_with_login (fuel : nat) (w : World) :
  cache_fresh (cache w) (clock (calls w)) = false ->
  match file w with
  | Some credentials => present (refresh_token credentials) = false
  | None => True
  end ->
  exists more,
    effects (snd (getFreshAccessToken runLoginFlow getAccessToken clock
                    (S fuel) w))
    = effects w ++ LoginFlow :: more.
Proof.
  intros Hstale Hnone.
  cbn [getFreshAccessToken]. cbn [cache file].
  rewrite Hstale.
  set (w1 := mkWorld (cache w) (file w) (logins w) (refreshes w)
               (S (calls w)) (effects w)) in *.
  destruct (login_effects w1) as [m Hm].
  destruct (login runLoginFlow w1) as [r w2] eqn:El. cbn [snd] in Hm.
  destruct (file w) as [credentials|]; [rewrite Hnone|];
    destruct r as [c| |message];
    try (cbn [snd]; eauto);
    (destruct (present (refresh_token c)); [| cbn [snd]; eauto ]);
    walk_flow runLoginFlow login_effects;
    try match goal with
        | |- context [getFreshAccessToken _ _ _ fuel ?w0] =>
            let more := fresh "more" in
            let H := fresh "H" in
            destruct (effects_grow fuel w0) as [more H]; rewrite H
        end;
    sum_effects.
Qed.
End LegacyFlow.

(** C6, as the code has it.  When the credentials that were loaded hold
    no refresh token, the Antigravity transformer's [getFreshAccessToken]
    throws its "No refresh token found" error and the pure-API
    interceptor's returns [null]; neither starts a login flow or posts a
    refresh request, and neither touches the file.  The library-based
    interceptor, for its part, opens with the interactive login flow:
    the flow has been started wherever the call stands after any number
    of nested calls, whether it has returned by then or not. *)
Theorem no_refresh_token_no_login_flow
    (credentials : Credentials) (now later : Z) (reply : TokenReply)
    (cache : Cache)
    (runLoginFlow : nat -> LegacyInterceptor.LoginResult)
    (getAccessToken : nat -> Credentials -> LegacyInterceptor.RefreshResult)
    (clock : nat -> Z) (fuel : nat) (w : LegacyInterceptor.World) :
  present (refresh_token credentials) = false ->
  cache_fresh cache now = false ->
  Antigravity.getFreshAccessToken (Some credentials) now later reply
  = (Thrown Antigravity.no_refresh_token, [], Some credentials)
  /\ Interceptor.getFreshAccessToken cache (Some credentials) now reply
     = (Returned None, [], cache, Some credentials)
  /\ (LegacyInterceptor.file w = Some credentials ->
      cache_fresh (LegacyInterceptor.cache w)
        (clock (LegacyInterceptor.calls w)) = false ->
      exists more,
        LegacyInterceptor.effects
          (snd (LegacyInterceptor.getFreshAccessToken runLoginFlow
                  getAccessToken clock (S fuel) w))
        = LegacyInterceptor.effects w ++ LoginFlow :: more).
Proof.
  intros Hno Hstale. split; [|split].
  - unfold Antigravity.getFreshAccessToken, Antigravity.start.
    now rewrite Hno.
  - unfold Interceptor.getFreshAccessToken, Interceptor.start.
    now rewrite Hstale, Hno.
  - intros Hfile Hcache.
    apply (legacy_interceptor_opens_with_login runLoginFlow getAccessToken
             clock fuel w Hcache).
    now rewrite Hfile.
Qed.

Lemma no_refresh_token_no_login_flow_witness :
  Antigravity.getFreshAccessToken (Some signed_out) 1000 2000
    (RequestError "unreachable")
  = (Thrown Antigravity.no_refresh_token, [], Some signed_out)
  /\ Interceptor.getFreshAccessToken empty_cache (Some signed_out) 1000
       (RequestError "unreachable")
     = (Returned None, [], empty_cache, Some signed_out)
  /\ exists more,
       [LoginFlow] = [] ++ LoginFlow :: more.
Proof.
  destruct (no_refresh_token_no_login_flow signed_out 1000 2000
              (RequestError "unreachable") empty_cache
              (fun _ => LegacyInterceptor.LoginDeclined)
              (fun _ _ => LegacyInterceptor.RefreshFailed "unused")
              (fun _ => 1000%Z) 0 legacy_world
              eq_refl eq_refl)
    as (Ha & Hi & Hl).
  split; [exact Ha|]. split; [exact Hi|].
  apply Hl; reflexivity.
Defined.

(** *** Concurrent callers *)

Section Callers.
Context {Store Pending : Type}.
Variable start : Store -> Z -> Outcome + Pending.
Variable finish : Store -> Pending -> Z -> TokenReply -> Outcome * Store.

(** The requirement as the specification words it: whatever the callers and
    the endpoint do, at most one refresh POST is in flight. *)
Definition single_flight (l : Loop) : Prop :=
  forall events,
    List.length (in_flight (run start finish l events)) <= 1.

Lemma step_posts (l : Loop) (e : Event) :
  posts (step start finish l e)
  = posts l + match e with
              | Invoke now =>
                  match start (store l) now with
                  | inl _ => 0
                  | inr _ => 1
                  end
              | Respond _ _ _ => 0
              end.
Proof.
  destruct e as [now|k now reply]; simpl.
  - destruct (start (store l) now); simpl; lia.
  - destruct (nth_error (in_flight l) k); simpl; [|lia].
    destruct (finish (store l) p now reply); simpl; lia.
Qed.

(** A call posts at most once. *)
Lemma posts_bounded_by_invocations (events : list Event) (l : Loop) :
  posts (run start finish l events) <= posts l + invocations events.
Proof.
  revert l. unfold run, invocations.
  induction events as [|e rest IH]; intro l; simpl; [lia|].
  specialize (IH (step start finish l e)). rewrite step_posts in IH.
  destruct e as [now|k now reply]; simpl in *; [|lia].
  destruct (start (store l) now); simpl in *; lia.
Qed.

(** [n] calls that start before any reply comes in. *)
Lemma concurrent_invocations (now : Z) (pending : Pending) (n : nat) :
  forall l,
    start (store l) now = inr pending ->
    run start finish l (repeat (Invoke now) n)
    = mkLoop (store l) (in_flight l ++ repeat pending n) (posts l + n)
        (settled l).
Proof.
  unfold run. induction n as [|n IH]; intros l H; simpl.
  - rewrite app_nil_r, Nat.add_0_r. now destruct l.
  - rewrite H. rewrite IH by exact H. simpl.
    rewrite <- app_assoc. simpl. f_equal. lia.
Qed.
End Callers.

(** C3, as the code has it.  There is no single flight: every caller that
    finds no usable token posts its own refresh request.  When [n] callers
    invoke [getFreshAccessToken] before any reply has come in, [n]
    requests are in flight, one per caller -- in the Antigravity
    transformer and in the pure-API interceptor alike. *)
Theorem every_caller_posts_its_own_refresh
    (file : option Credentials) (cache : Cache) (now : Z)
    (credentials : Credentials) (n : nat) :
  (Antigravity.start file now = inr credentials ->
   let l := antigravity_run (antigravity_loop file)
              (repeat (Invoke now) n) in
   in_flight l = repeat credentials n /\ posts l = n /\ settled l = [])
  /\ (Interceptor.start cache file now = inr credentials ->
      let l := interceptor_run (interceptor_loop cache file)
                 (repeat (Invoke now) n) in
      in_flight l = repeat (credentials, now) n
      /\ posts l = n /\ settled l = []).
Proof.
  split; intro H; cbv zeta.
  - unfold antigravity_run.
    rewrite (concurrent_invocations _ _ now credentials n) by exact H.
    now simpl.
  - unfold interceptor_run.
    rewrite (concurrent_invocations _ _ now (credentials, now) n).
    + now simpl.
    + unfold interceptor_start. simpl. now rewrite H.
Qed.

(** Signed in, with an access token that expires in one minute. *)
Definition expiring : Credentials :=
  mkCredentials (Some "client-id") (Some "client-secret")
    (Some "1//refresh") (Some "ya29.old") (Some 60000%Z) (Some 60000%Z).

Lemma every_caller_posts_its_own_refresh_witness :
  in_flight (antigravity_run (antigravity_loop (Some expiring))
               (repeat (Invoke 0) 10))
  = repeat expiring 10
  /\ posts (interceptor_run (interceptor_loop empty_cache (Some expiring))
              (repeat (Invoke 0) 10))
     = 10.
Proof.
  pose proof (every_caller_posts_its_own_refresh (Some expiring)
                empty_cache 0 expiring 10) as [Ha Hi].
  split.
  - apply (Ha eq_refl).
  - apply (Hi eq_refl).
Defined.

(** Two callers, one minute before the token expires: two refresh
    requests are in flight at once. *)
Lemma two_callers_two_refreshes :
  ~ single_flight Antigravity.start antigravity_finish
      (antigravity_loop (Some expiring))
  /\ ~ single_flight interceptor_start interceptor_finish
        (interceptor_loop empty_cache (Some expiring)).
Proof.
  split; intro H; specialize (H [Invoke 0; Invoke 0]);
    vm_compute in H; lia.
Qed.

(** Once a reply has been stored, a later caller is served from the
    stored token and posts nothing. *)
Example caller_after_refresh_posts_nothing :
  let l := antigravity_run (antigravity_loop (Some expiring))
             [ Invoke 0;
               Respond 0 500 (Reply (Some "ya29.new") (Some 3600%Z) None
                                None);
               Invoke 1000 ] in
  posts l = 1 /\ in_flight l = []
  /\ settled l = [Returned (Some "ya29.new"); Returned (Some "ya29.new")].
Proof. repeat split. Qed.

End TokenFacts.

(** ** Non-streaming replies *)

Module JsonFacts.
Import Upstream JsonResponse.

Lemma append_nil_r (s : string) : String.append s "" = s.
Proof. induction s as [|c s IH]; simpl; congruence. Qed.

Lemma append_assoc (a b c : string) :
  String.append (String.append a b) c = String.append a (String.append b c).
Proof. induction a as [|x a IH]; simpl; congruence. Qed.

Lemma concat_empty_cons (x : string) (xs : list string) :
  String.concat "" (x :: xs) = String.append x (String.concat "" xs).
Proof. destruct xs; simpl; [now rewrite append_nil_r | reflexivity]. Qed.

(** *** The reply in the specification's words *)

(** A part that counts as text: its [text] is not empty. *)
Definition is_text (p : Part) : bool :=
  match data p with
  | Text t => negb (String.eqb t "")
  | _ => false
  end.

Definition text (p : Part) : string :=
  match data p with
  | Text t => t
  | _ => ""
  end.

(** The [thought: true] text parts and the other text parts. *)
Definition thought_parts (ps : list Part) : list Part :=
  filter (fun p => is_text p && thought p) ps.

Definition plain_parts (ps : list Part) : list Part :=
  filter (fun p => is_text p && negb (thought p)) ps.

(** The [functionCall] parts. *)
Definition function_calls (ps : list Part) : list FunctionCall :=
  flat_map (fun p => match data p with Call fc => [fc] | _ => [] end) ps.

Definition carries_signature (p : Part) : bool :=
  present (thoughtSignature p).

(** The first signature among the parts. *)
Fixpoint first_signature (ps : list Part) : string :=
  match ps with
  | [] => ""
  | p :: rest =>
      if carries_signature p then or_else (thoughtSignature p) ""
      else first_signature rest
  end.

(** The parts of the first candidate of a wrapped reply. *)
Definition parts_of (c : Candidate) : list Part :=
  match parts c with Some ps => ps | None => [] end.

(** The thinking text of a reply; none counts as empty. *)
Definition thinking_text (u : UnifiedResponse) : string :=
  match thinking (message u) with
  | Some t => content t
  | None => ""
  end.

Definition tool_calls_list (u : UnifiedResponse) : list ToolCallOut :=
  match tool_calls (message u) with
  | Some calls => calls
  | None => []
  end.

Section Described.
Variable toLowerCase : string -> string.
Variable random_suffix : nat -> string.

(** One tool call per [functionCall]: the upstream's id when it gave
    one, a generated one otherwise. *)
Definition tool_call_for (fc : FunctionCall) (tc : ToolCallOut) : Prop :=
  name tc = fc_name fc
  /\ arguments tc = match fc_args fc with
                    | Some a => if truthy a then a else JObj []
                    | None => JObj []
                    end
  /\ (present (fc_id fc) = true -> Some (id tc) = fc_id fc)
  /\ (present (fc_id fc) = false ->
      exists n, id tc = String.append "tool_" (random_suffix n)).

(** Everything the two readings of the reply agree on. *)
Definition described_but_thinking (r : ResponseData) (c : Candidate)
    (u : UnifiedResponse) : Prop :=
  finish_reason u = toLowerCase (or_else (finishReason c) "stop")
  /\ m_content (message u)
     = String.concat newline (map text (plain_parts (parts_of c)))
  /\ Forall2 tool_call_for (function_calls (parts_of c))
       (tool_calls_list u)
  /\ (tool_calls (message u) = None
      \/ exists tc tcs, tool_calls (message u) = Some (tc :: tcs))
  /\ usage u
     = mkUsage (count candidatesTokenCount (usageMetadata r))
         (count promptTokenCount (usageMetadata r))
         (count totalTokenCount (usageMetadata r)).

(** The reply as the specification words it: the thought parts make up
    the thinking text, and the model is the requested one. *)
Definition described (requested : string) (r : ResponseData)
    (c : Candidate) (u : UnifiedResponse) : Prop :=
  described_but_thinking r c u
  /\ thinking_text u
     = String.concat "" (map text (thought_parts (parts_of c)))
  /\ model u = requested.

(** The reply as the code builds it: the thinking text is sent only
    with a signature, and is ["(no content)"] when there is a signature
    but no thought text. *)
Definition described_amended (defaultModel : string)
    (requestedModel : option string) (r : ResponseData) (c : Candidate)
    (u : UnifiedResponse) : Prop :=
  described_but_thinking r c u
  /\ thinking (message u)
     = (if existsb carries_signature (parts_of c) then
          Some (mkThinking
                  (let thoughts :=
                     String.concat ""
                       (map text (thought_parts (parts_of c))) in
                   if String.eqb thoughts "" then "(no content)"
                   else thoughts)
                  (first_signature (parts_of c)))
        else None)
  /\ model u = or_else requestedModel defaultModel.
End Described.

(** *** The code against those words *)

(** The parts the splitting loop keeps aside. *)
Definition kept (p : Part) : bool := negb (is_text p && thought p).

Lemma text_of_is_text (p : Part) :
  text_of p = if is_text p then Some (text p) else None.
Proof.
  unfold text_of, is_text, text. destruct (data p) as [t| |]; auto.
  now destruct (String.eqb t "").
Qed.

Lemma thought_parts_cons (p : Part) (ps : list Part) :
  thought_parts (p :: ps)
  = if is_text p && thought p then p :: thought_parts ps
    else thought_parts ps.
Proof. reflexivity. Qed.

Lemma split_thinking_spec (ps : list Part) :
  forall thinkingContent nonThinkingParts,
    split_thinking ps thinkingContent nonThinkingParts
    = (String.append thinkingContent
         (String.concat "" (map text (thought_parts ps))),
       nonThinkingParts ++ filter kept ps).
Proof.
  induction ps as [|p ps IH]; intros acc nts.
  - simpl. now rewrite append_nil_r, app_nil_r.
  - rewrite thought_parts_cons. cbn [split_thinking filter].
    rewrite text_of_is_text. unfold kept at 1.
    destruct (is_text p) eqn:Ht; cbn [andb negb].
    + destruct (thought p) eqn:Hth; cbn [negb]; rewrite IH.
      * cbn [map]. now rewrite concat_empty_cons, append_assoc.
      * now rewrite <- app_assoc.
    + rewrite IH. now rewrite <- app_assoc.
Qed.

Lemma texts_of_kept (ps : list Part) :
  texts_of (filter kept ps) = map text (plain_parts ps).
Proof.
  unfold texts_of, plain_parts.
  induction ps as [|p ps IH]; simpl; [reflexivity|].
  unfold kept at 1. destruct (is_text p) eqn:Ht; simpl.
  - destruct (thought p) eqn:Hth; simpl; [exact IH|].
    rewrite text_of_is_text, Ht, Hth. simpl. now rewrite IH.
  - rewrite text_of_is_text, Ht. simpl. exact IH.
Qed.

Lemma call_is_kept (p : Part) (fc : FunctionCall) :
  data p = Call fc -> kept p = true.
Proof. intro H. unfold kept, is_text. now rewrite H. Qed.

Lemma tool_calls_of_kept (random_suffix : nat -> string) (ps : list Part) :
  forall rng,
    Forall2 (tool_call_for random_suffix) (function_calls ps)
      (tool_calls_of random_suffix (filter kept ps) rng).
Proof.
  induction ps as [|p ps IH]; intro rng; simpl; [constructor|].
  destruct (data p) as [t|fc|] eqn:Hd.
  - simpl. destruct (kept p); simpl; [|apply IH].
    unfold call_of. rewrite Hd. apply IH.
  - rewrite (call_is_kept p fc Hd). simpl. unfold call_of. rewrite Hd.
    destruct (present (fc_id fc)) eqn:Hid; constructor; try apply IH;
      repeat split; try reflexivity; try congruence.
    + intros _. unfold present, or_else in *.
      destruct (fc_id fc) as [i|]; [|discriminate].
      now destruct (String.eqb i "").
    + intros _. now exists rng.
  - simpl. destruct (kept p); simpl; [|apply IH].
    unfold call_of. rewrite Hd. apply IH.
Qed.

Lemma find_signature_spec (ps : list Part) :
  present (find_signature ps) = existsb carries_signature ps
  /\ or_else (find_signature ps) "" = first_signature ps.
Proof.
  unfold find_signature.
  induction ps as [|p ps IH]; simpl; [now split|].
  unfold carries_signature at 1 3.
  destruct (present (thoughtSignature p)) eqn:Hp; simpl; auto.
Qed.

Section Replies.
Variable toLowerCase : string -> string.
Variable random_suffix : nat -> string.
Variable defaultModel : string.
Variable now : Z.

Let transform := transformJsonResponse toLowerCase random_suffix
                   defaultModel now.

(** What the code answers to a wrapped reply with a candidate. *)
Lemma transformJsonResponse_unfold (body : Envelope)
    (requestedModel : option string) (r : ResponseData) (c : Candidate)
    (rest : list Candidate) :
  response body = Some r ->
  candidates r = c :: rest ->
  transform body requestedModel
  = Unified
      (mkUnifiedResponse (responseId r)
         (toLowerCase (or_else (finishReason c) "stop"))
         (mkMessage
            (String.concat newline (map text (plain_parts (parts_of c))))
            (match tool_calls_of random_suffix
                     (filter kept (parts_of c)) 0 with
             | [] => None
             | tc :: tcs => Some (tc :: tcs)
             end)
            (if existsb carries_signature (parts_of c) then
               Some (mkThinking
                       (if String.eqb
                             (String.concat ""
                                (map text (thought_parts (parts_of c))))
                             ""
                        then "(no content)"
                        else String.concat ""
                               (map text (thought_parts (parts_of c))))
                       (first_signature (parts_of c)))
             else None))
         (now / 1000) (or_else requestedModel defaultModel)
         (mkUsage (count candidatesTokenCount (usageMetadata r))
            (count promptTokenCount (usageMetadata r))
            (count totalTokenCount (usageMetadata r)))).
Proof.
  intros Hr Hc. unfold transform, transformJsonResponse.
  rewrite Hr, Hc. fold (parts_of c).
  rewrite split_thinking_spec. cbn [String.append app].
  rewrite texts_of_kept.
  destruct (find_signature_spec (parts_of c)) as [-> ->].
  destruct (tool_calls_of random_suffix (filter kept (parts_of c)) 0);
    reflexivity.
Qed.

(** C8, as the code has it.  A reply whose [response] wrapper holds a
    candidate becomes one chat-completion object: [finish_reason] is the
    lower-cased [finishReason] (["stop"] when absent), [content] the
    non-thought text parts joined by newlines, each [functionCall] one
    tool call (with a generated id when it has none), [model] the
    requested model (the configured default when none was recorded),
    [usage] the three token counts.  The thought parts, concatenated,
    are the thinking text only when some part carries a
    [thoughtSignature]; with a signature and no thought text the
    thinking text is ["(no content)"]; without a signature there is no
    thinking field. *)
Theorem unified_reply_is_as_amended (body : Envelope)
    (requestedModel : option string) (r : ResponseData) (c : Candidate)
    (rest : list Candidate) :
  response body = Some r ->
  candidates r = c :: rest ->
  exists u,
    transform body requestedModel = Unified u
    /\ described_amended toLowerCase random_suffix defaultModel
         requestedModel r c u.
Proof.
  intros Hr Hc. eexists. split.
  - apply (transformJsonResponse_unfold body requestedModel r c rest Hr Hc).
  - unfold described_amended, described_but_thinking, tool_calls_list.
    cbn [finish_reason message m_content tool_calls thinking model usage].
    pose proof (tool_calls_of_kept random_suffix (parts_of c) 0) as Hcalls.
    destruct (tool_calls_of random_suffix (filter kept (parts_of c)) 0)
      as [|tc tcs]; repeat split; auto.
    right. now exists tc, tcs.
Qed.

(** The reply with the thought text parts of its first candidate taken
    out. *)
Definition without_thoughts (body : Envelope) : Envelope :=
  match response body with
  | Some r =>
      match candidates r with
      | c :: rest =>
          mkEnvelope
            (Some
               (mkResponseData (responseId r)
                  (mkCandidate (Some (filter kept (parts_of c)))
                     (finishReason c) (groundingMetadata c) :: rest)
                  (usageMetadata r)))
            (bare body)
      | [] => body
      end
  | None => body
  end.

Lemma kept_twice (ps : list Part) :
  filter kept (filter kept ps) = filter kept ps.
Proof.
  induction ps as [|p ps IH]; simpl; [reflexivity|].
  destruct (kept p) eqn:E; simpl; [rewrite E|]; congruence.
Qed.

Lemma plain_parts_kept (ps : list Part) :
  plain_parts (filter kept ps) = plain_parts ps.
Proof.
  unfold plain_parts. induction ps as [|p ps IH]; simpl; [reflexivity|].
  unfold kept at 1.
  destruct (is_text p) eqn:Ht, (thought p) eqn:Hth; simpl;
    rewrite ?Ht, ?Hth; simpl; congruence.
Qed.

Lemma thought_parts_kept (ps : list Part) :
  thought_parts (filter kept ps) = [].
Proof.
  unfold thought_parts. induction ps as [|p ps IH]; simpl; [reflexivity|].
  unfold kept at 1.
  destruct (is_text p) eqn:Ht, (thought p) eqn:Hth; simpl;
    rewrite ?Ht, ?Hth; simpl; congruence.
Qed.

Lemma unsigned_kept (ps : list Part) :
  existsb carries_signature ps = false ->
  existsb carries_signature (filter kept ps) = false.
Proof.
  induction ps as [|p ps IH]; simpl; [reflexivity|].
  intro H. apply orb_false_iff in H as [Hp Hps].
  destruct (kept p); simpl; rewrite ?Hp; auto.
Qed.

(** C10.  In a non-streaming reply the message has a [thinking] field
    exactly when some part carries a [thoughtSignature].  When none
    does, the thought text is dropped without a trace: the answer is
    the one the same reply gets with its thought parts taken out.  When
    one does and there is no thought text, the thinking content is
    ["(no content)"]. *)
Theorem thinking_is_sent_iff_signed (body : Envelope)
    (requestedModel : option string) (r : ResponseData) (c : Candidate)
    (rest : list Candidate) :
  response body = Some r ->
  candidates r = c :: rest ->
  exists u,
    transform body requestedModel = Unified u
    /\ (thinking (message u) <> None
        <-> existsb carries_signature (parts_of c) = true)
    /\ (existsb carries_signature (parts_of c) = false ->
        transform (without_thoughts body) requestedModel = Unified u)
    /\ (existsb carries_signature (parts_of c) = true ->
        thought_parts (parts_of c) = [] ->
        thinking (message u)
        = Some (mkThinking "(no content)"
                  (first_signature (parts_of c)))).
Proof.
  intros Hr Hc. eexists. split; [|split; [|split]].
  - apply (transformJsonResponse_unfold body requestedModel r c rest Hr Hc).
  - cbn [message thinking].
    destruct (existsb carries_signature (parts_of c)); split;
      congruence.
  - intro Hunsigned.
    erewrite (transformJsonResponse_unfold (without_thoughts body));
      [| unfold without_thoughts; rewrite Hr, Hc; reflexivity
       | reflexivity ].
    cbn [parts_of parts finishReason responseId usageMetadata].
    rewrite kept_twice, plain_parts_kept, thought_parts_kept.
    rewrite (unsigned_kept _ Hunsigned), Hunsigned. reflexivity.
  - intros Hsigned Hnone. cbn [message thinking].
    now rewrite Hsigned, Hnone.
Qed.
End Replies.

(** A reply that thinks aloud but signs nothing, and one that signs
    without thinking. *)
Definition think_aloud : Envelope :=
  mkEnvelope
    (Some
       (mkResponseData (Some "resp_123")
          [ mkCandidate
              (Some [ mkPart (Text "Planning the answer.") true None;
                      mkPart (Text "The answer is 42") false None ])
              (Some "STOP") None ]
          (Some (mkUsageMetadata (Some 100%Z) (Some 50%Z) (Some 150%Z)))))
    (mkResponseData None [] None).

Definition signed_only : Envelope :=
  mkEnvelope
    (Some
       (mkResponseData (Some "resp_124")
          [ mkCandidate
              (Some [ mkPart (Text "The answer is 42") false
                        (Some "sig_abc") ])
              None None ]
          None))
    (mkResponseData None [] None).

(** ASCII lower case, enough for the upstream's finish reasons. *)
Definition lower_ascii (c : ascii) : ascii :=
  let n := Ascii.nat_of_ascii c in
  if (Nat.leb 65 n && Nat.leb n 90)%bool then Ascii.ascii_of_nat (n + 32)
  else c.

Fixpoint lower (s : string) : string :=
  match s with
  | EmptyString => EmptyString
  | String c rest => String (lower_ascii c) (lower rest)
  end.

Lemma unified_reply_is_as_amended_witness :
  exists u,
    transformJsonResponse lower (fun _ => "r4nd0m")
      "claude-sonnet-4-5-20250514" 1700000000000 think_aloud
      (Some "claude-opus-4-5-20251101")
    = Unified u
    /\ described_amended lower (fun _ => "r4nd0m")
         "claude-sonnet-4-5-20250514" (Some "claude-opus-4-5-20251101")
         (mkResponseData (Some "resp_123")
            [ mkCandidate
                (Some [ mkPart (Text "Planning the answer.") true None;
                        mkPart (Text "The answer is 42") false None ])
                (Some "STOP") None ]
            (Some (mkUsageMetadata (Some 100%Z) (Some 50%Z) (Some 150%Z))))
         (mkCandidate
            (Some [ mkPart (Text "Planning the answer.") true None;
                    mkPart (Text "The answer is 42") false None ])
            (Some "STOP") None)
         u.
Proof.
  apply (unified_reply_is_as_amended lower (fun _ => "r4nd0m")
           "claude-sonnet-4-5-20250514" 1700000000000 think_aloud
           (Some "claude-opus-4-5-20251101") _ _ [] eq_refl eq_refl).
Defined.

Lemma thinking_is_sent_iff_signed_witness :
  exists u,
    transformJsonResponse lower (fun _ => "r4nd0m")
      "claude-sonnet-4-5-20250514" 1700000000000 signed_only None
    = Unified u
    /\ thinking (message u) = Some (mkThinking "(no content)" "sig_abc").
Proof.
  destruct (thinking_is_sent_iff_signed lower (fun _ => "r4nd0m")
              "claude-sonnet-4-5-20250514" 1700000000000 signed_only None
              _ _ [] eq_refl eq_refl)
    as (u & Hu & _ & _ & Hsigned).
  exists u. split; [exact Hu|]. apply Hsigned; reflexivity.
Defined.

(** The thought text of [think_aloud] reaches the client nowhere: the
    reply is not the one the specification words. *)
Lemma thought_without_signature_is_lost :
  exists u,
    transformJsonResponse lower (fun _ => "r4nd0m")
      "claude-sonnet-4-5-20250514" 1700000000000 think_aloud
      (Some "claude-opus-4-5-20251101")
    = Unified u
    /\ thinking (message u) = None
    /\ m_content (message u) = "The answer is 42"
    /\ ~ described lower (fun _ => "r4nd0m") "claude-opus-4-5-20251101"
           (mkResponseData (Some "resp_123")
              [ mkCandidate
                  (Some [ mkPart (Text "Planning the answer.") true None;
                          mkPart (Text "The answer is 42") false None ])
                  (Some "STOP") None ]
              (Some (mkUsageMetadata (Some 100%Z) (Some 50%Z)
                       (Some 150%Z))))
           (mkCandidate
              (Some [ mkPart (Text "Planning the answer.") true None;
                      mkPart (Text "The answer is 42") false None ])
              (Some "STOP") None)
           u.
Proof.
  eexists. split; [reflexivity|]. split; [reflexivity|].
  split; [reflexivity|].
  intros (_ & Hthinking & _). discriminate Hthinking.
Qed.

(** A reply that comes without the [response] wrapper is handed back as
    it is. *)
Lemma bare_reply_is_untouched (toLowerCase : string -> string)
    (random_suffix : nat -> string) (defaultModel : string) (now : Z)
    (body : Envelope) (requestedModel : option string) :
  response body = None ->
  transformJsonResponse toLowerCase random_suffix defaultModel now body
    requestedModel
  = Untouched.
Proof.
  intro H. unfold transformJsonResponse. now rewrite H.
Qed.

End JsonFacts.

(** ** Function calls and their responses in [contents] *)

Module ContentsFacts.
Import RequestTransformer.

Definition is_function_call (p : Part) : bool :=
  match p with
  | PFunctionCall _ _ _ _ => true
  | _ => false
  end.

(** The [functionCall] parts of a content, in order. *)
Definition function_calls (c : Content) : list Part :=
  filter is_function_call (c_parts c).

(** A [model]-role content that holds a [functionCall]. *)
Definition calls_out (c : Content) : Prop :=
  c_role c = model /\ function_calls c <> [].

(** The id a [functionCall] part bears, and the id of a
    [functionResponse] part ([None] when it is [undefined]). *)
Definition call_id (p : Part) : option string :=
  match p with
  | PFunctionCall id _ _ _ => Some id
  | _ => None
  end.

Definition response_id (p : Part) : option string :=
  match p with
  | PFunctionResponse id _ _ => id
  | _ => None
  end.

Section Pairing.
Variable JSON_parse : string -> option JSON.
Variable random_suffix : nat -> string.
(** The messages of the request, and those of them with the role
    [tool]. *)
Variable messages : list Message.
Variable toolResponses : list Message.

(** [p] is the [functionCall] made from [tool]: its name, its parsed
    arguments, and its id -- or, for a tool call without an id, [tool_]
    and a draw from [Math.random]. *)
Definition call_from (tool : ToolCall) (p : Part) : Prop :=
  exists fn id args sig,
    tc_function tool = Some fn
    /\ JSON_parse (or_else (fn_arguments fn) "{}") = Some args
    /\ p = PFunctionCall id (fn_name fn) args sig
    /\ (if present (tc_id tool) then tc_id tool = Some id
        else exists n, id = String.append "tool_" (random_suffix n)).

(** [r] answers [c]: [c] holds the calls of an assistant message of the
    request, one [functionCall] for each tool call and in their order,
    and [r] is the [user] content of the responses to the same tool
    calls, in the same order -- each with the id and the name of its
    tool call and, as output, the content of the first tool message with
    that [tool_call_id] (no output when there is none). *)
Definition answers (c r : Content) : Prop :=
  exists message tools,
    In message messages
    /\ role message = "assistant"
    /\ tool_calls message = Some tools
    /\ Forall2 call_from tools (function_calls c)
    /\ r = mkContent user (map (function_response toolResponses) tools).

(** Every content that calls out is followed at once by its answer. *)
Inductive Paired : list Content -> Prop :=
| Paired_nil : Paired []
| Paired_cons (c : Content) (cs : list Content) :
    (calls_out c -> exists r rest, cs = r :: rest /\ answers c r) ->
    Paired cs ->
    Paired (c :: cs).

Lemma Paired_app (a b : list Content) :
  Paired a -> Paired b -> Paired (a ++ b).
Proof.
  induction 1 as [|c cs Hc _ IH]; intro Hb; simpl; [exact Hb|].
  constructor; [|exact (IH Hb)].
  intro Hout. destruct (Hc Hout) as (r & rest & -> & Hans).
  now exists r, (rest ++ b).
Qed.

Lemma Paired_split (before : list Content) (c : Content)
    (after : list Content) :
  Paired (before ++ c :: after) ->
  calls_out c ->
  exists r rest, after = r :: rest /\ answers c r.
Proof.
  induction before as [|x before IH]; simpl; intros H Hout.
  - inversion H as [|? ? Hc _]; subst. exact (Hc Hout).
  - inversion H; subst. now apply IH.
Qed.

(** *** What one message contributes *)

Lemma item_parts_no_call (item : ContentItem) :
  filter is_function_call (item_parts item) = [].
Proof.
  destruct item as [text|url media_type|]; simpl; try reflexivity.
  - now destruct (String.eqb text "").
  - now destruct (String.prefix "http" url).
Qed.

Lemma content_parts_no_call (m : Message) :
  filter is_function_call (content_parts m) = [].
Proof.
  unfold content_parts. destruct (content m) as [s|items|]; simpl; auto.
  - now destruct (String.eqb s "").
  - induction items as [|item items IH]; simpl; [reflexivity|].
    rewrite filter_app, item_parts_no_call, IH. reflexivity.
Qed.

Lemma call_parts_spec (sig : option string) (calls : list ToolCall) :
  forall i rng parts rng',
    call_parts JSON_parse random_suffix sig i rng calls
    = Some (parts, rng') ->
    Forall2 call_from calls parts
    /\ filter is_function_call parts = parts.
Proof.
  induction calls as [|tool rest IH]; simpl; intros i rng parts rng' H.
  - injection H as <- <-. split; [constructor | reflexivity].
  - destruct (tc_function tool) as [fn|] eqn:Hfn; [|discriminate].
    destruct (present (tc_id tool)) eqn:Hid;
      destruct (JSON_parse (or_else (fn_arguments fn) "{}"))
        as [args|] eqn:Hargs; try discriminate;
      match type of H with
      | context [call_parts _ _ _ ?j ?g rest] =>
          destruct (call_parts JSON_parse random_suffix sig j g rest)
            as [[ps g']|] eqn:Hrest; [|discriminate]
      end;
      injection H as <- <-;
      destruct (IH _ _ _ _ Hrest) as [Hall Hfilter];
      (split; [constructor; [|exact Hall] | simpl; now rewrite Hfilter]).
    + eexists fn, _, args, _. rewrite Hid.
      split; [exact Hfn|]. split; [exact Hargs|]. split; [reflexivity|].
      unfold present, or_else in *.
      destruct (tc_id tool) as [x|]; [|discriminate].
      now destruct (String.eqb x "").
    + eexists fn, _, args, _. rewrite Hid.
      split; [exact Hfn|]. split; [exact Hargs|]. split; [reflexivity|].
      now exists rng.
Qed.

Lemma push_message_block (contents : list Content) (rng : nat)
    (message : Message) (contents' : list Content) (rng' : nat) :
  In message messages ->
  push_message JSON_parse random_suffix toolResponses contents rng message
  = Some (contents', rng') ->
  exists block, contents' = contents ++ block /\ Paired block.
Proof.
  intro Hin. unfold push_message.
  destruct (String.eqb (role message) "system").
  { intros [= <- <-]. exists []. split; [now rewrite app_nil_r|constructor]. }
  destruct (String.eqb (role message) "assistant") eqn:Hrole.
  2: { (* a user message: whatever it holds, it does not call out *)
    destruct (match tool_calls message with
              | Some calls =>
                  call_parts JSON_parse random_suffix
                    (thinking_signature message) 0 rng calls
              | None => Some ([], rng)
              end) as [[calls g]|]; [|discriminate].
    intros [= <- <-].
    destruct (content_parts message ++ calls) as [|q qs];
      [ exists []; split; [now rewrite app_nil_r|constructor]
      | eexists [_]; split; [reflexivity|];
        constructor; [|constructor];
        intros [Hmodel _]; discriminate Hmodel ]. }
  apply String.eqb_eq in Hrole.
  destruct (tool_calls message) as [tools|] eqn:Htools.
  - destruct (call_parts JSON_parse random_suffix
                (thinking_signature message) 0 rng tools)
      as [[calls g]|] eqn:Hcalls; [|discriminate].
    destruct (call_parts_spec _ _ _ _ _ _ Hcalls) as [Hfrom Hfilter].
    assert (Hfc : forall c, c_parts c = content_parts message ++ calls ->
                       function_calls c = calls).
    { intros c Hc. unfold function_calls.
      now rewrite Hc, filter_app, content_parts_no_call, Hfilter. }
    destruct tools as [|tool tools].
    + (* no tool call: no response, and no call in the parts *)
      inversion Hfrom; subst. simpl. rewrite app_nil_r.
      intros [= <- <-].
      destruct (content_parts message) as [|p ps] eqn:Hparts;
        [ exists []; split; [now rewrite app_nil_r|constructor]
        | eexists [_]; split; [reflexivity|];
          constructor; [|constructor];
          intros [_ Hne]; exfalso; apply Hne;
          unfold function_calls; simpl c_parts;
          rewrite <- Hparts; apply content_parts_no_call ].
    + (* the calls, then the responses *)
      inversion Hfrom as [|? p ? ps Hp Hps]; subst.
      destruct (content_parts message ++ p :: ps) as [|q qs] eqn:Hparts.
      { now destruct (content_parts message). }
      cbn [map]. intros [= <- <-].
      eexists [_; _]. split; [now rewrite <- app_assoc|].
      constructor; [|constructor; [|constructor]].
      * intros _. eexists _, []. split; [reflexivity|].
        exists message, (tool :: tools). repeat split; auto.
        rewrite (Hfc (mkContent model (q :: qs)) eq_refl).
        exact Hfrom.
      * intros [Hmodel _]. discriminate Hmodel.
  - (* no [tool_calls] at all *)
    rewrite app_nil_r. intros [= <- <-].
    destruct (content_parts message) as [|p ps] eqn:Hparts;
      [ exists []; split; [now rewrite app_nil_r|constructor]
      | eexists [_]; split; [reflexivity|];
        constructor; [|constructor];
        intros [_ Hne]; exfalso; apply Hne;
        unfold function_calls; simpl c_parts;
        rewrite <- Hparts; apply content_parts_no_call ].
Qed.

Lemma push_messages_block (some : list Message) :
  incl some messages ->
  forall contents rng contents' rng',
    push_messages JSON_parse random_suffix toolResponses contents rng some
    = Some (contents', rng') ->
    exists block, contents' = contents ++ block /\ Paired block.
Proof.
  induction some as [|message rest IH]; simpl;
    intros Hincl contents rng contents' rng' H.
  - injection H as <- <-. exists []. split;
      [now rewrite app_nil_r|constructor].
  - destruct (push_message JSON_parse random_suffix toolResponses contents
                rng message) as [[cs g]|] eqn:Hm; [|discriminate].
    destruct (push_message_block _ _ _ _ _ (Hincl _ (or_introl eq_refl)) Hm)
      as (b1 & -> & Hb1).
    destruct (IH (fun m Hm' => Hincl m (or_intror Hm')) _ _ _ _ H)
      as (b2 & -> & Hb2).
    exists (b1 ++ b2). split; [now rewrite app_assoc|].
    now apply Paired_app.
Qed.

(** A tool call that has an id is called and answered under that id,
    and the answer carries what the first tool message of that id
    holds. *)
Lemma named_call_is_answered_by_id (tool : ToolCall) (p : Part) :
  present (tc_id tool) = true ->
  call_from tool p ->
  exists id,
    id <> EmptyString
    /\ call_id p = Some id
    /\ response_id (function_response toolResponses tool) = Some id
    /\ function_response toolResponses tool
       = PFunctionResponse (Some id)
           (match tc_function tool with
            | Some fn => fn_name fn
            | None => None
            end)
           (option_map content
              (find (fun item => same_id (tool_call_id item) (Some id))
                 toolResponses)).
Proof.
  intros Hid (fn & id & args & sig & Hfn & _ & -> & Hcall).
  rewrite Hid in Hcall. exists id.
  unfold function_response, find_response. rewrite Hcall.
  repeat split. intros ->. rewrite Hcall in Hid. discriminate Hid.
Qed.
End Pairing.

(** In the [contents] the request transformer builds, every [model]-role
    content that holds [functionCall] parts is followed at once by a
    [user]-role content made of [functionResponse] parts, one for each
    call and in the same order: call and response number [k] come from
    tool call number [k] of one assistant message of the request. *)
Lemma function_calls_are_answered
    (JSON_parse : string -> option JSON) (random_suffix : nat -> string)
    (messages : list Message) (contents before : list Content)
    (c : Content) (after : list Content) :
  build_contents JSON_parse random_suffix messages = Some contents ->
  contents = before ++ c :: after ->
  calls_out c ->
  exists r rest,
    after = r :: rest
    /\ answers JSON_parse random_suffix messages (filter is_tool messages)
         c r.
Proof.
  unfold build_contents. intros Hbuild -> Hout.
  destruct (push_messages JSON_parse random_suffix (filter is_tool messages)
              [] 0 (filter (fun m => negb (is_tool m)) messages))
    as [[cs g]|] eqn:Hpush; [|discriminate].
  injection Hbuild as Hcs. simpl in Hcs. subst cs.
  destruct (push_messages_block JSON_parse random_suffix messages
              (filter is_tool messages) _ (incl_filter _ messages)
              _ _ _ _ Hpush)
    as (block & Hblock & Hpaired).
  simpl in Hblock. subst block.
  exact (Paired_split _ _ _ _ _ _ _ Hpaired Hout).
Qed.

(** A conversation in which the assistant called two tools and only the
    second call was answered. *)
Definition read_call : ToolCall :=
  mkToolCall (Some "toolu_1") (Some (mkFunctionRef (Some "Read") None)).

Definition grep_call : ToolCall :=
  mkToolCall (Some "toolu_2")
    (Some (mkFunctionRef (Some "Grep") (Some "{}"))).

Definition conversation : list Message :=
  [ mkMessage "user" (MCString "find it") None None None;
    mkMessage "assistant" (MCString "Looking.") (Some [read_call; grep_call])
      None (Some "sig_1");
    mkMessage "tool" (MCString "3 matches") None (Some "toolu_2") None;
    mkMessage "user" (MCString "thanks") None None None ].

Definition parse_empty_object (text : string) : option JSON :=
  Some (JObj []).

Definition the_calls : Content :=
  mkContent model
    [ PText "Looking." (Some "sig_1");
      PFunctionCall "toolu_1" (Some "Read") (JObj []) (Some "sig_1");
      PFunctionCall "toolu_2" (Some "Grep") (JObj []) None ].

Definition the_responses : Content :=
  mkContent user
    [ PFunctionResponse (Some "toolu_1") (Some "Read") None;
      PFunctionResponse (Some "toolu_2") (Some "Grep")
        (Some (MCString "3 matches")) ].

Example conversation_contents :
  build_contents parse_empty_object (fun _ => "r4nd0m") conversation
  = Some [ mkContent user [PText "find it" None];
           the_calls;
           the_responses;
           mkContent user [PText "thanks" None] ].
Proof. reflexivity. Qed.

(** A conversation from a client that sends its tool calls and its tool
    messages with an empty id. *)
Definition unnumbered_call : ToolCall :=
  mkToolCall (Some "") (Some (mkFunctionRef (Some "Grep") (Some "{}"))).

Definition unnumbered_conversation : list Message :=
  [ mkMessage "user" (MCString "find it") None None None;
    mkMessage "assistant" MCAbsent (Some [unnumbered_call]) None None;
    mkMessage "tool" (MCString "3 matches") None (Some "") None ].

(** C5.  A tool call that comes with an empty id is sent upstream as a
    [functionCall] under an id of the transformer's making, [tool_] and
    a random suffix, and is answered by a [functionResponse] that bears
    the empty id: the response is written with the id of the tool call
    as it came.  Call and response are then not paired by id, whatever
    the random suffix is. *)
Theorem generated_call_id_is_not_answered (random_suffix : nat -> string) :
  let call :=
    PFunctionCall (String.append "tool_" (random_suffix 0)) (Some "Grep")
      (JObj []) None in
  let response :=
    PFunctionResponse (Some "") (Some "Grep")
      (Some (MCString "3 matches")) in
  build_contents parse_empty_object random_suffix unnumbered_conversation
  = Some [ mkContent user [PText "find it" None];
           mkContent model [call];
           mkContent user [response] ]
  /\ call_id call <> response_id response.
Proof.
  split; [reflexivity | discriminate].
Qed.

(** A tool call without any id fares the same, and is answered without
    one. *)
Example missing_call_id_is_not_answered (random_suffix : nat -> string) :
  build_contents parse_empty_object random_suffix
    [ mkMessage "assistant" MCAbsent
        (Some [mkToolCall None
                 (Some (mkFunctionRef (Some "Grep") (Some "{}")))])
        None None ]
  = Some [ mkContent model
             [ PFunctionCall (String.append "tool_" (random_suffix 0))
                 (Some "Grep") (JObj []) None ];
           mkContent user [PFunctionResponse None (Some "Grep") None] ].
Proof. reflexivity. Qed.

End ContentsFacts.

(** ** The streaming state machine *)

Module StreamFacts.
Import Upstream Stream.

Definition quoted (s : string) : string :=
  String (Ascii.ascii_of_nat 34)
    (String.append s (String (Ascii.ascii_of_nat 34) EmptyString)).

(** *** What holds of every stream *)

(** The blocks that are open: started and not yet stopped. *)
Definition open_blocks (s : State) : list Z :=
  (if thinkingBlockStarted s then [thinkingBlockIndex s] else [])
  ++ (if textBlockStarted s then [textBlockIndex s] else []).

Definition message_starts (events : list SSE) : nat :=
  List.length (filter is_message_start events).

Definition occurrences (i : Z) (l : list Z) : nat := count_occ Z.eq_dec l i.

(** The invariant of the closure: block indices have been handed out in
    increasing order and none exceeds [currentBlockIndex];
    [message_start] has been sent once if the flag says so and never
    otherwise; a block index has been started as often as it has been
    stopped, plus once if the block is open. *)
Record Sound (s : State) : Prop := mkSound {
  climbing : StronglySorted Z.lt (started (sent s));
  bounded : Forall (fun i => (i <= currentBlockIndex s)%Z) (started (sent s));
  started_once :
    message_starts (sent s) = if messageStartSent s then 1 else 0;
  balanced :
    forall i,
      occurrences i (started (sent s))
      = occurrences i (stopped (sent s)) + occurrences i (open_blocks s)
}.

Lemma started_app (a b : list SSE) : started (a ++ b) = started a ++ started b.
Proof. apply flat_map_app. Qed.

Lemma stopped_app (a b : list SSE) : stopped (a ++ b) = stopped a ++ stopped b.
Proof. apply flat_map_app. Qed.

Lemma message_starts_app (a b : list SSE) :
  message_starts (a ++ b) = message_starts a + message_starts b.
Proof. unfold message_starts. now rewrite filter_app, length_app. Qed.

Lemma occurrences_app (i : Z) (a b : list Z) :
  occurrences i (a ++ b) = occurrences i a + occurrences i b.
Proof. apply count_occ_app. Qed.

Lemma occurrences_one (i j : Z) :
  occurrences i [j] = if Z.eq_dec j i then 1 else 0.
Proof. unfold occurrences. simpl. now destruct (Z.eq_dec j i). Qed.

Lemma occurrences_nil (i : Z) : occurrences i [] = 0.
Proof. reflexivity. Qed.

Lemma sorted_snoc (l : list Z) (top i : Z) :
  StronglySorted Z.lt l ->
  Forall (fun x => (x <= top)%Z) l ->
  (top < i)%Z ->
  StronglySorted Z.lt (l ++ [i]).
Proof.
  induction 1 as [|x l Hl IH Hx]; intros Hb Hi; simpl.
  - repeat constructor.
  - inversion Hb; subst. constructor; [now apply IH|].
    apply Forall_app. split; [exact Hx|]. repeat constructor. lia.
Qed.

Lemma bounded_snoc (l : list Z) (top top' i : Z) :
  Forall (fun x => (x <= top)%Z) l ->
  (top <= top')%Z -> (i <= top')%Z ->
  Forall (fun x => (x <= top')%Z) (l ++ [i]).
Proof.
  intros Hb Ht Hi. apply Forall_app. split.
  - eapply Forall_impl; [|exact Hb]. simpl. intros. lia.
  - now repeat constructor.
Qed.

Lemma bounded_weaken (l : list Z) (top top' : Z) :
  Forall (fun x => (x <= top)%Z) l ->
  (top <= top')%Z ->
  Forall (fun x => (x <= top')%Z) l.
Proof.
  intros Hb Ht. eapply Forall_impl; [|exact Hb]. simpl. intros. lia.
Qed.

(** An open block has an index that was handed out. *)
Lemma open_is_started (s : State) (i : Z) :
  Sound s -> In i (open_blocks s) -> In i (started (sent s)).
Proof.
  intros H Hin. apply (count_occ_In Z.eq_dec).
  apply (count_occ_In Z.eq_dec) in Hin.
  pose proof (balanced s H i). unfold occurrences in *. lia.
Qed.

Lemma open_bounded (s : State) (i : Z) :
  Sound s -> In i (open_blocks s) -> (i <= currentBlockIndex s)%Z.
Proof.
  intros H Hin. pose proof (bounded s H) as Hb.
  rewrite Forall_forall in Hb. apply Hb. now apply open_is_started.
Qed.

(** Runs the machine on a state written out as a record.  Projections
    are taken as soon as a setter is unfolded, so that the fields nobody
    asks for are never built. *)
Ltac run_machine :=
  cbn [thinking_part handle_signature text_part tool_call_part
       handle_finish finalize open_thinking send_message_start response_id
       send_message_end
       sendEvent set_messageStartSent set_thinkingBlockStarted
       set_thinkingBlockIndex set_textBlockStarted set_textBlockIndex
       next_block set_signatureSent set_hasThinkingContent
       set_lastUsageMetadata drew ticked
       sent currentBlockIndex messageStartSent thinkingBlockStarted
       thinkingBlockIndex textBlockStarted textBlockIndex signatureSent
       hasThinkingContent lastUsageMetadata webSearchResultsSent rng clock
       andb negb fst snd].

Ltac run_machine_in H :=
  cbn [thinking_part handle_signature text_part tool_call_part
       handle_finish finalize open_thinking send_message_start response_id
       send_message_end
       sendEvent set_messageStartSent set_thinkingBlockStarted
       set_thinkingBlockIndex set_textBlockStarted set_textBlockIndex
       next_block set_signatureSent set_hasThinkingContent
       set_lastUsageMetadata drew ticked
       sent currentBlockIndex messageStartSent thinkingBlockStarted
       thinkingBlockIndex textBlockStarted textBlockIndex signatureSent
       hasThinkingContent lastUsageMetadata webSearchResultsSent rng clock
       andb negb fst snd] in H.

Ltac solve_bounded :=
  lazymatch goal with
  | |- Forall _ (_ ++ [_]) =>
      apply Forall_app; split; [solve_bounded | repeat constructor; lia]
  | |- Forall _ _ => eapply bounded_weaken; [eassumption | lia]
  end.

Ltac solve_sorted :=
  lazymatch goal with
  | |- StronglySorted _ (_ ++ [?i]) =>
      apply (sorted_snoc _ (i - 1) i); [solve_sorted | solve_bounded | lia]
  | |- StronglySorted _ _ => assumption
  end.

Ltac solve_balanced Hbal :=
  let i := fresh "i" in
  intro i; specialize (Hbal i); unfold occurrences in *;
  rewrite ?count_occ_app in *; cbn [count_occ app] in *;
  repeat match goal with
         | |- context [Z.eq_dec ?a ?b] => destruct (Z.eq_dec a b)
         | H : context [Z.eq_dec ?a ?b] |- _ => destruct (Z.eq_dec a b)
         end;
  lia.

(** Takes the state and its invariant apart, so that the flags can be
    told apart by cases. *)
Ltac open_state s H :=
  destruct s as [ms ths thi txs txi cur sig htc usage ws g clk out];
  destruct H as [Hc Hb Hm Hbal];
  unfold open_blocks in Hbal;
  run_machine_in Hc; run_machine_in Hb; run_machine_in Hm;
  run_machine_in Hbal.

(** Closes [Sound] of the state a handler leaves, once every test the
    handler makes has been decided. *)
Ltac close_sound Hc Hb Hm Hbal :=
  constructor; unfold open_blocks; run_machine;
  rewrite ?started_app, ?stopped_app, ?message_starts_app;
  cbn [started stopped flat_map app];
  rewrite ?app_nil_r;
  [ solve_sorted
  | solve_bounded
  | unfold message_starts in *; cbn [filter is_message_start length] in *;
    lia
  | solve_balanced Hbal ].

Section Handlers.
Variable random_suffix : nat -> string.
Variable date_now : nat -> Z.
Variable modelToUse : string.

Lemma Sound_initial : Sound initial.
Proof.
  constructor; simpl; solve [constructor | reflexivity | auto].
Qed.

Lemma Sound_open_thinking (s : State) :
  Sound s -> Sound (open_thinking s).
Proof.
  intro H. open_state s H.
  destruct ths, txs, ms; close_sound Hc Hb Hm Hbal.
Qed.

Lemma Sound_response_id (r : ResponseData) (s : State) :
  Sound s -> Sound (snd (response_id date_now r s)).
Proof.
  intro H. open_state s H. unfold response_id.
  destruct (present (responseId r)), ths, txs, ms;
    close_sound Hc Hb Hm Hbal.
Qed.

Lemma Sound_send_message_start (id : MessageId) (s : State) :
  Sound s -> Sound (send_message_start modelToUse id s).
Proof.
  intro H. open_state s H.
  destruct ths, txs, ms; close_sound Hc Hb Hm Hbal.
Qed.

Lemma Sound_set_lastUsageMetadata (u : option UsageMetadata) (s : State) :
  Sound s -> Sound (set_lastUsageMetadata u s).
Proof.
  intro H. open_state s H.
  destruct ths, txs, ms; close_sound Hc Hb Hm Hbal.
Qed.

Lemma Sound_thinking_part (s : State) (text : string) :
  Sound s -> Sound (thinking_part s text).
Proof.
  intro H. open_state s H.
  destruct ths, txs, ms; close_sound Hc Hb Hm Hbal.
Qed.

Lemma Sound_handle_signature (ps : list Part) (s : State) :
  Sound s -> Sound (handle_signature ps s).
Proof.
  intro H. open_state s H. unfold handle_signature.
  destruct (present (find_signature ps)), sig, ths, txs, ms;
    close_sound Hc Hb Hm Hbal.
Qed.

Lemma Sound_text_part (s : State) (text : string) :
  Sound s -> Sound (text_part s text).
Proof.
  intro H. open_state s H.
  destruct sig, ths, txs, ms; close_sound Hc Hb Hm Hbal.
Qed.

Lemma Sound_tool_call_part (s : State) (fc : FunctionCall) :
  Sound s -> Sound (tool_call_part random_suffix s fc).
Proof.
  intro H. open_state s H. unfold tool_call_part.
  destruct (present (fc_id fc)), ths, txs, ms;
    close_sound Hc Hb Hm Hbal.
Qed.

Lemma Sound_handle_grounding (c : Candidate) (s : State) :
  Sound s -> Sound (handle_grounding random_suffix date_now c s).
Proof.
  intro H. unfold handle_grounding.
  destruct (groundingMetadata c) as [gm|]; [|exact H].
  destruct (groundingChunks gm) as [[|chunk chunks]|]; try exact H.
  - now destruct (webSearchResultsSent s).
  - open_state s H. destruct ws; [now constructor|].
    destruct ths, txs, ms; close_sound Hc Hb Hm Hbal.
Qed.

Lemma Sound_handle_finish (c : Candidate) (s : State) :
  Sound s -> Sound (handle_finish c s).
Proof.
  intro H. open_state s H. unfold handle_finish.
  destruct (present (finishReason c)), ths, txs, ms;
    close_sound Hc Hb Hm Hbal.
Qed.

Lemma Sound_fold_left {A : Type} (f : State -> A -> State) (l : list A) :
  (forall s x, Sound s -> Sound (f s x)) ->
  forall s, Sound s -> Sound (fold_left f l s).
Proof.
  intro Hf. induction l as [|x l IH]; simpl; auto.
Qed.

Section Reading.
Variable JSON_parse : string -> option Envelope.

Lemma Sound_handle_chunk (s : State) (chunk : Envelope) :
  Sound s -> Sound (handle_chunk random_suffix date_now modelToUse s chunk).
Proof.
  intro H. unfold handle_chunk.
  destruct (candidates
              match response chunk with Some r => r | None => bare chunk end)
    as [|candidate rest]; [exact H|].
  set (r := match response chunk with Some r => r | None => bare chunk end).
  pose proof (Sound_response_id r s H) as Hid.
  destruct (response_id date_now r s) as [id s1]. cbn [snd] in Hid.
  apply Sound_handle_finish, Sound_handle_grounding.
  apply Sound_fold_left; [intros; now apply Sound_tool_call_part|].
  apply Sound_fold_left; [intros; now apply Sound_text_part|].
  apply Sound_handle_signature.
  apply Sound_fold_left; [intros; now apply Sound_thinking_part|].
  apply Sound_send_message_start.
  destruct (usageMetadata r); [now apply Sound_set_lastUsageMetadata|exact Hid].
Qed.

Lemma Sound_handle_line (s : State) (line : string) :
  Sound s ->
  Sound (handle_line JSON_parse random_suffix date_now modelToUse s line).
Proof.
  intro H. unfold handle_line.
  destruct (String.prefix "data: " line); [|exact H].
  destruct (String.eqb (trim (slice6 line)) ""); [exact H|].
  destruct (JSON_parse (trim (slice6 line))); [|exact H].
  now apply Sound_handle_chunk.
Qed.

(** What is in the closure when the reader reports the end. *)
Fixpoint read_all (s : State) (buffer : string) (values : list string)
  : State :=
  match values with
  | [] => s
  | value :: rest =>
      let lines := split_lines EmptyString (String.append buffer value) in
      read_all
        (fold_left
           (handle_line JSON_parse random_suffix date_now modelToUse)
           (removelast lines) s)
        (last lines EmptyString) rest
  end.

Lemma read_loop_read_all (values : list string) :
  forall s buffer,
    read_loop JSON_parse random_suffix date_now modelToUse s buffer values
    = finalize (read_all s buffer values).
Proof.
  induction values as [|value rest IH]; intros s buffer; simpl; auto.
Qed.

Lemma Sound_read_all (values : list string) :
  forall s buffer, Sound s -> Sound (read_all s buffer values).
Proof.
  induction values as [|value rest IH]; intros s buffer H; simpl; auto.
  apply IH. apply Sound_fold_left; [|exact H].
  intros. now apply Sound_handle_line.
Qed.

(** X3.  The three things that do hold of every stream, however the
    upstream cuts its lines and whatever it sends: block indices are
    handed out in strictly increasing order; [message_start] goes out at
    most once; and by the end of the stream every block index has been
    stopped exactly as often as it was started. *)
Lemma stream_blocks_are_well_formed (values : list string) :
  let events := transformStreamResponse JSON_parse random_suffix date_now
                  modelToUse values in
  StronglySorted Z.lt (started events)
  /\ message_starts events <= 1
  /\ (forall i, occurrences i (stopped events)
               = occurrences i (started events)).
Proof.
  cbv zeta. unfold transformStreamResponse.
  rewrite read_loop_read_all.
  pose proof (Sound_read_all values initial EmptyString Sound_initial) as H.
  destruct (read_all initial EmptyString values)
    as [ms ths thi txs txi cur sig htc usage ws g clk out].
  destruct H as [Hc Hb Hm Hbal].
  unfold open_blocks in Hbal;
  run_machine_in Hc; run_machine_in Hb; run_machine_in Hm;
  run_machine_in Hbal.
  destruct ths, txs, ms; run_machine;
    rewrite ?started_app, ?stopped_app, ?message_starts_app;
    cbn [started stopped flat_map app];
    rewrite ?app_nil_r;
    (split; [assumption|split];
     [ unfold message_starts in *;
       cbn [filter is_message_start length] in *; lia
     | intro i; specialize (Hbal i); unfold occurrences in *;
       rewrite ?count_occ_app in *; cbn [count_occ app] in *;
       repeat match goal with
              | |- context [Z.eq_dec ?a ?b] => destruct (Z.eq_dec a b)
              | H : context [Z.eq_dec ?a ?b] |- _ => destruct (Z.eq_dec a b)
              end;
       lia ]).
Qed.

(** *** How often [message_stop] goes out *)

Definition message_stops (events : list SSE) : nat :=
  List.length (filter is_message_stop events).

Lemma message_stops_app (a b : list SSE) :
  message_stops (a ++ b) = message_stops a + message_stops b.
Proof. unfold message_stops. now rewrite filter_app, length_app. Qed.

(** A step that neither sends [message_stop] nor touches the
    [messageStartSent] flag. *)
Definition quiet (s s' : State) : Prop :=
  message_stops (sent s') = message_stops (sent s)
  /\ messageStartSent s' = messageStartSent s.

Ltac close_quiet :=
  unfold quiet; run_machine;
  rewrite ?message_stops_app; unfold message_stops;
  cbn [filter is_message_stop length app]; split; [lia | reflexivity].

Ltac open_quiet s :=
  destruct s as [ms ths thi txs txi cur sig htc usage ws g clk out].

Lemma quiet_trans (a b c : State) : quiet a b -> quiet b c -> quiet a c.
Proof. unfold quiet. intros [] []. split; congruence. Qed.

Lemma quiet_fold_left {A : Type} (f : State -> A -> State) (l : list A) :
  (forall s x, quiet s (f s x)) -> forall s, quiet s (fold_left f l s).
Proof.
  intro Hf. induction l as [|x l IH]; intro s; simpl.
  - now split.
  - eapply quiet_trans; [apply Hf | apply IH].
Qed.

Lemma quiet_response_id (r : ResponseData) (s : State) :
  quiet s (snd (response_id date_now r s)).
Proof.
  open_quiet s. unfold response_id.
  destruct (present (responseId r)); close_quiet.
Qed.

Lemma quiet_set_lastUsageMetadata (u : option UsageMetadata) (s : State) :
  quiet s (set_lastUsageMetadata u s).
Proof. open_quiet s. close_quiet. Qed.

Lemma quiet_thinking_part (s : State) (text : string) :
  quiet s (thinking_part s text).
Proof. open_quiet s. destruct ths; close_quiet. Qed.

Lemma quiet_handle_signature (ps : list Part) (s : State) :
  quiet s (handle_signature ps s).
Proof.
  open_quiet s. unfold handle_signature.
  destruct (present (find_signature ps)), sig, ths; close_quiet.
Qed.

Lemma quiet_text_part (s : State) (text : string) :
  quiet s (text_part s text).
Proof.
  open_quiet s. destruct sig, ths, txs; close_quiet.
Qed.

Lemma quiet_tool_call_part (s : State) (fc : FunctionCall) :
  quiet s (tool_call_part random_suffix s fc).
Proof.
  open_quiet s. unfold tool_call_part.
  destruct (present (fc_id fc)); close_quiet.
Qed.

Lemma quiet_handle_grounding (c : Candidate) (s : State) :
  quiet s (handle_grounding random_suffix date_now c s).
Proof.
  unfold handle_grounding.
  destruct (groundingMetadata c) as [gm|]; [|now split].
  destruct (groundingChunks gm) as [[|chunk chunks]|]; try now split.
  - now destruct (webSearchResultsSent s).
  - open_quiet s. destruct ws; [now split|].
    destruct txs; close_quiet.
Qed.

(** The chunk a payload stands for, seen the way [handle_chunk] sees it. *)
Definition first_candidate (chunk : Envelope) : option Candidate :=
  match
    candidates match response chunk with Some r => r | None => bare chunk end
  with
  | c :: _ => Some c
  | [] => None
  end.

Definition has_candidate (chunk : Envelope) : bool :=
  match first_candidate chunk with Some _ => true | None => false end.

Definition finishes (chunk : Envelope) : bool :=
  match first_candidate chunk with
  | Some c => present (finishReason c)
  | None => false
  end.

Lemma send_message_start_stops (id : MessageId) (s : State) :
  message_stops (sent (send_message_start modelToUse id s))
  = message_stops (sent s)
  /\ messageStartSent (send_message_start modelToUse id s) = true.
Proof.
  open_quiet s. destruct ms; run_machine; [now split|].
  rewrite message_stops_app. unfold message_stops.
  cbn [filter is_message_start is_message_stop length]. split; [lia|reflexivity].
Qed.

Lemma handle_finish_stops (c : Candidate) (s : State) :
  message_stops (sent (handle_finish c s))
  = message_stops (sent s) + (if present (finishReason c) then 1 else 0)
  /\ messageStartSent (handle_finish c s) = messageStartSent s.
Proof.
  open_quiet s. unfold handle_finish.
  destruct (present (finishReason c)), ths, txs; run_machine;
    rewrite ?message_stops_app; unfold message_stops;
    cbn [filter is_message_stop length app]; split; try lia; reflexivity.
Qed.

Lemma handle_chunk_stops (s : State) (chunk : Envelope) :
  let s' := handle_chunk random_suffix date_now modelToUse s chunk in
  message_stops (sent s')
  = message_stops (sent s) + (if finishes chunk then 1 else 0)
  /\ messageStartSent s' = (messageStartSent s || has_candidate chunk)%bool.
Proof.
  cbv zeta. unfold handle_chunk, finishes, has_candidate, first_candidate.
  destruct (candidates
              match response chunk with Some r => r | None => bare chunk end)
    as [|candidate rest].
  { split; [lia | now rewrite orb_false_r]. }
  set (r := match response chunk with Some r => r | None => bare chunk end).
  pose proof (quiet_response_id r s) as Hid.
  destruct (response_id date_now r s) as [id s1]. cbn [snd] in Hid.
  set (s2 := match usageMetadata r with
             | Some u => set_lastUsageMetadata (Some u) s1
             | None => s1
             end).
  assert (H2 : quiet s s2).
  { subst s2. destruct (usageMetadata r); [|exact Hid].
    eapply quiet_trans; [exact Hid | apply quiet_set_lastUsageMetadata]. }
  destruct (send_message_start_stops id s2) as [H3 H3'].
  set (s3 := send_message_start modelToUse id s2) in *.
  match goal with
  | |- context [handle_finish candidate ?s4] =>
      assert (H4 : quiet s3 s4);
      [ eapply quiet_trans;
        [ eapply quiet_trans;
          [ eapply quiet_trans;
            [ eapply quiet_trans;
              [ apply (quiet_fold_left thinking_part); intros;
                apply quiet_thinking_part
              | apply quiet_handle_signature ]
            | apply (quiet_fold_left text_part); intros;
              apply quiet_text_part ]
          | apply (quiet_fold_left (tool_call_part random_suffix)); intros;
            apply quiet_tool_call_part ]
        | apply quiet_handle_grounding ]
      | destruct (handle_finish_stops candidate s4) as [H5 H5'];
        rewrite H5, H5' ]
  end.
  destruct H2 as [H2 H2'], H4 as [H4 H4'].
  rewrite orb_true_r. split; congruence.
Qed.

(** The payloads that reach [handle_chunk], in order: the lines read off
    the network chunks, those that are [data:] lines with a payload, and
    of these the ones that parse. *)
Fixpoint lines_read (buffer : string) (values : list string) : list string :=
  match values with
  | [] => []
  | value :: rest =>
      let lines := split_lines EmptyString (String.append buffer value) in
      removelast lines ++ lines_read (last lines EmptyString) rest
  end.

Definition chunk_of (line : string) : list Envelope :=
  if String.prefix "data: " line then
    if String.eqb (trim (slice6 line)) "" then []
    else
      match JSON_parse (trim (slice6 line)) with
      | Some chunk => [chunk]
      | None => []
      end
  else [].

Definition chunks_read (values : list string) : list Envelope :=
  flat_map chunk_of (lines_read EmptyString values).

Lemma handle_lines_chunks (lines : list string) :
  forall s,
    fold_left (handle_line JSON_parse random_suffix date_now modelToUse)
      lines s
    = fold_left (handle_chunk random_suffix date_now modelToUse)
        (flat_map chunk_of lines) s.
Proof.
  induction lines as [|line lines IH]; intro s; simpl; [reflexivity|].
  rewrite fold_left_app, IH. f_equal.
  unfold handle_line, chunk_of.
  destruct (String.prefix "data: " line); [|reflexivity].
  destruct (String.eqb (trim (slice6 line)) ""); [reflexivity|].
  now destruct (JSON_parse (trim (slice6 line))).
Qed.

Lemma read_all_chunks (values : list string) :
  forall s buffer,
    read_all s buffer values
    = fold_left (handle_chunk random_suffix date_now modelToUse)
        (flat_map chunk_of (lines_read buffer values)) s.
Proof.
  induction values as [|value rest IH]; intros s buffer; simpl;
    [reflexivity|].
  rewrite IH, handle_lines_chunks, flat_map_app, fold_left_app. reflexivity.
Qed.

Lemma handle_chunks_stops (chunks : list Envelope) :
  forall s,
    let s' := fold_left (handle_chunk random_suffix date_now modelToUse)
                chunks s in
    message_stops (sent s')
    = message_stops (sent s) + List.length (filter finishes chunks)
    /\ messageStartSent s'
       = (messageStartSent s || existsb has_candidate chunks)%bool.
Proof.
  induction chunks as [|chunk chunks IH]; intro s; cbv zeta; simpl.
  - split; [lia | now rewrite orb_false_r].
  - destruct (IH (handle_chunk random_suffix date_now modelToUse s chunk))
      as [Hstops Hflag].
    destruct (handle_chunk_stops s chunk) as [Hs Hf].
    rewrite Hstops, Hflag, Hs, Hf. split.
    + destruct (finishes chunk); simpl; lia.
    + now rewrite orb_assoc.
Qed.

(** X4.  [message_stop] goes out once for every chunk that carries a
    finish reason, and once more at the end of the stream if any chunk
    had a candidate: twice, then, on every stream that finishes the
    ordinary way. *)
Lemma message_stop_count (values : list string) :
  message_stops
    (transformStreamResponse JSON_parse random_suffix date_now modelToUse
       values)
  = List.length (filter finishes (chunks_read values))
    + (if existsb has_candidate (chunks_read values) then 1 else 0).
Proof.
  unfold transformStreamResponse, chunks_read.
  rewrite read_loop_read_all, read_all_chunks.
  destruct (handle_chunks_stops
              (flat_map chunk_of (lines_read EmptyString values)) initial)
    as [Hstops Hflag].
  cbn [initial sent messageStartSent orb] in Hstops, Hflag.
  change (message_stops []) with 0 in Hstops.
  destruct (fold_left (handle_chunk random_suffix date_now modelToUse)
              (flat_map chunk_of (lines_read EmptyString values)) initial)
    as [ms ths thi txs txi cur sig htc usage ws g clk out].
  run_machine_in Hstops. run_machine_in Hflag. rewrite <- Hflag.
  destruct ms, ths, txs; run_machine;
    rewrite ?message_stops_app; unfold message_stops in *;
    cbn [filter is_message_stop length app]; lia.
Qed.
End Reading.

End Handlers.

(** The one-line stream of the transformer's documentation, closed by a
    finish reason. *)
Definition hello_payload : string :=
  String.concat ""
    [ "{"; quoted "response"; ":{"; quoted "candidates"; ":[{";
      quoted "content"; ":{"; quoted "parts"; ":[{"; quoted "text"; ":";
      quoted "Hello!"; "}]},"; quoted "finishReason"; ":"; quoted "STOP";
      "}],"; quoted "usageMetadata"; ":{"; quoted "promptTokenCount";
      ":100,"; quoted "candidatesTokenCount"; ":50}}}" ].

Definition hello_line : string :=
  String.append "data: " (String.append hello_payload (String LF EmptyString)).

Definition hello_chunk : Envelope :=
  mkEnvelope
    (Some
       (mkResponseData None
          [ mkCandidate (Some [mkPart (Text "Hello!") false None])
              (Some "STOP") None ]
          (Some (mkUsageMetadata (Some 100%Z) (Some 50%Z) None))))
    (mkResponseData None [] None).

(** C1.  A stream that ends the ordinary way gets its closing pair twice:
    once when the finish reason arrives and once more when the reader
    reports the end, for nothing records that [message_stop] has gone
    out. *)
Theorem message_stop_is_sent_twice
    (JSON_parse : string -> option Envelope)
    (random_suffix : nat -> string) (date_now : nat -> Z)
    (modelToUse : string) :
  JSON_parse hello_payload = Some hello_chunk ->
  transformStreamResponse JSON_parse random_suffix date_now modelToUse
    [hello_line]
  = [ MessageStart (MsgAt (date_now 0)) modelToUse;
      ContentBlockStart 0 TextBlock;
      ContentBlockDelta 0 (TextDelta "Hello!");
      ContentBlockStop 0;
      MessageDelta (Some 100%Z) 50;
      MessageStop;
      MessageDelta (Some 100%Z) 50;
      MessageStop ]
  /\ List.length
       (filter is_message_stop
          (transformStreamResponse JSON_parse random_suffix date_now
             modelToUse [hello_line]))
     = 2.
Proof.
  intro Hparse.
  assert (Hrun :
    transformStreamResponse JSON_parse random_suffix date_now modelToUse
      [hello_line]
    = sent (finalize (handle_chunk random_suffix date_now modelToUse initial
                        hello_chunk))).
  { unfold transformStreamResponse, read_loop.
    change (split_lines EmptyString (String.append EmptyString hello_line))
      with [String.append "data: " hello_payload; EmptyString].
    cbn [removelast last fold_left]. unfold handle_line at 1.
    change (String.prefix "data: " (String.append "data: " hello_payload))
      with true.
    change (trim (slice6 (String.append "data: " hello_payload)))
      with hello_payload.
    change (String.eqb hello_payload "") with false.
    cbn iota. now rewrite Hparse. }
  rewrite Hrun. split; reflexivity.
Qed.

Lemma message_stop_is_sent_twice_witness :
  List.length
    (filter is_message_stop
       (transformStreamResponse (fun _ => Some hello_chunk)
          (fun _ => "r4nd0m") (fun _ => 1700000000000%Z)
          "claude-opus-4-5-20251101" [hello_line]))
  = 2.
Proof.
  apply (message_stop_is_sent_twice (fun _ => Some hello_chunk)
           (fun _ => "r4nd0m") (fun _ => 1700000000000%Z)
           "claude-opus-4-5-20251101" eq_refl).
Defined.

End StreamFacts.

(** ** More on the schema sanitizer *)

Module SanitizerWalk.
Import Sanitizer SanitizerFacts.

(** *** When [cleanParameters] throws *)

Definition is_null (j : JSON) : bool :=
  match j with
  | JNull => true
  | _ => false
  end.

(** The walk of [cleanParameters] meets a [properties] or an [items]
    that is [null]: in an object it reaches, under a key it does not
    skip. *)
Fixpoint meets_null (j : JSON) : bool :=
  match j with
  | JArr elems => existsb meets_null elems
  | JObj fields =>
      existsb
        (fun kv =>
           negb (unsupported (fst kv))
           && ((String.eqb (fst kv) "properties"
                || String.eqb (fst kv) "items") && is_null (snd kv)
               || meets_null (snd kv)))
        fields
  | _ => false
  end.

Definition entry_meets_null (kv : string * JSON) : bool :=
  negb (unsupported (fst kv))
  && ((String.eqb (fst kv) "properties" || String.eqb (fst kv) "items")
      && is_null (snd kv)
      || meets_null (snd kv)).

Lemma keys_length_None (j : JSON) : keys_length j = None <-> j = JNull.
Proof. destruct j; simpl; split; congruence. Qed.

Section WalkThrows.
Variable clean : JSON -> option Cleaned.

(** What the induction gives for a nested value. *)
Definition throws_on_null (x : JSON) : Prop :=
  (clean x = None <-> meets_null x = true)
  /\ (forall y, clean x = Some y -> (returned y = JNull <-> x = JNull)).

Lemma clean_elems_throws (elems : list JSON) :
  Forall throws_on_null elems ->
  (clean_elems clean elems = None <-> existsb meets_null elems = true).
Proof.
  induction 1 as [|x t [Hx _] _ IH]; simpl.
  - split; discriminate.
  - destruct (clean x) as [x'|] eqn:Ex.
    + assert (Hm : meets_null x = false).
      { destruct (meets_null x); [|reflexivity].
        destruct Hx as [_ Hx]. discriminate (Hx eq_refl). }
      rewrite Hm. cbn [orb].
      destruct (clean_elems clean t); [|tauto].
      split; [discriminate|]. intro H. apply IH in H. discriminate.
    + rewrite (proj1 Hx eq_refl). tauto.
Qed.

Lemma clean_entry_throws (key : string) (value : JSON)
    (cleaned : Building) :
  throws_on_null value ->
  (clean_entry clean key value cleaned = None
   <-> entry_meets_null (key, value) = true).
Proof.
  intros [Hthrows Hnull]. unfold clean_entry, entry_meets_null.
  cbn [fst snd].
  destruct (unsupported key); cbn [negb andb].
  { split; discriminate. }
  assert (Hclean : forall (A : Type) (k : Cleaned -> option A),
             (forall v', k v' <> None) ->
             (match clean value with
              | Some v' => k v'
              | None => None
              end = None <-> meets_null value = true)).
  { intros A k Hk. destruct (clean value) as [v'|] eqn:Ev.
    - split; [intro H; now apply Hk in H|].
      intro H. apply Hthrows in H. discriminate.
    - rewrite (proj1 Hthrows eq_refl). tauto. }
  destruct (String.eqb key "required") eqn:Er.
  { apply String.eqb_eq in Er. subst key.
    cbn [String.eqb Ascii.eqb Bool.eqb orb andb].
    destruct (is_empty_array value) eqn:Ee.
    - destruct value as [| | | | [|e es] |]; try discriminate.
      simpl. split; discriminate.
    - apply Hclean. discriminate. }
  cbn [andb].
  destruct (String.eqb key "properties") eqn:Ep.
  { cbn [orb andb].
    destruct (typeof_object value) eqn:Ht.
    - destruct (keys_length value) as [[|n]|] eqn:Hlen.
      + destruct value as [| b | n | s | [|e es] | [|f fs]];
          try discriminate.
        * simpl. split; discriminate.
        * simpl. split; discriminate.
      + assert (Hv : is_null value = false).
        { destruct value; try reflexivity. discriminate. }
        rewrite Hv. cbn [orb]. apply Hclean. discriminate.
      + apply keys_length_None in Hlen. subst value. simpl. tauto.
    - assert (Hv : is_null value = false).
      { destruct value; try reflexivity. discriminate. }
      rewrite Hv. cbn [orb].
      destruct (String.eqb key "items"); cbn [andb];
        apply Hclean; discriminate. }
  cbn [orb andb].
  destruct (String.eqb key "items") eqn:Ei; cbn [andb orb].
  - destruct (typeof_object value) eqn:Ht.
    + destruct (clean value) as [v'|] eqn:Ev.
      * pose proof (Hnull v' eq_refl) as Hn.
        assert (Hm : meets_null value = false).
        { destruct (meets_null value); [|reflexivity].
          destruct Hthrows as [_ Hthrows]. discriminate (Hthrows eq_refl). }
        rewrite Hm, orb_false_r.
        destruct (keys_length (returned v')) as [[|n]|] eqn:Hlen.
        -- assert (Hv : is_null value = false).
           { destruct value; try reflexivity.
             rewrite (proj2 Hn eq_refl) in Hlen. discriminate. }
           rewrite Hv. split; discriminate.
        -- assert (Hv : is_null value = false).
           { destruct value; try reflexivity.
             rewrite (proj2 Hn eq_refl) in Hlen. discriminate. }
           rewrite Hv. split; discriminate.
        -- apply keys_length_None in Hlen.
           rewrite (proj1 Hn Hlen). simpl. tauto.
      * rewrite (proj1 Hthrows eq_refl), orb_true_r. tauto.
    + assert (Hv : is_null value = false).
      { destruct value; try reflexivity. discriminate. }
      rewrite Hv. cbn [orb]. apply Hclean. discriminate.
  - apply Hclean. discriminate.
Qed.

Lemma clean_entries_throws (fields : list (string * JSON)) :
  Forall (fun kv => throws_on_null (snd kv)) fields ->
  forall cleaned,
    clean_entries clean fields cleaned = None
    <-> existsb entry_meets_null fields = true.
Proof.
  induction 1 as [|[key value] rest Hv _ IH]; intro cleaned; simpl.
  - split; discriminate.
  - pose proof (clean_entry_throws key value cleaned Hv) as He.
    destruct (clean_entry clean key value cleaned) as [c'|].
    + destruct (entry_meets_null (key, value)).
      * destruct He as [_ He]. discriminate (He eq_refl).
      * cbn [orb]. apply IH.
    + rewrite (proj1 He eq_refl). tauto.
Qed.
End WalkThrows.

Lemma cleanParameters_throws_on_null (x : JSON) :
  throws_on_null cleanParameters_with_chain x.
Proof.
  induction x as [| b | n | s | elems IH | fields IH] using JSON_ind;
    (split;
     [| intros y Hy; now apply cleanParameters_with_chain_shape in Hy ]);
    try (simpl; split; discriminate).
  - cbn [cleanParameters_with_chain meets_null].
    rewrite <- (clean_elems_throws cleanParameters_with_chain elems IH).
    destruct (clean_elems cleanParameters_with_chain elems); simpl;
      split; congruence.
  - cbn [cleanParameters_with_chain meets_null].
    change (existsb _ fields) with (existsb entry_meets_null fields).
    rewrite <- (clean_entries_throws cleanParameters_with_chain fields IH
                  empty_object).
    destruct (clean_entries cleanParameters_with_chain fields empty_object);
      simpl; split; congruence.
Qed.

(** X5.  [cleanParameters] throws exactly when its walk meets a
    [properties] or an [items] that is [null] (under a key it does not
    skip, at any depth): there [Object.keys] is applied to [null].  On
    every other schema it returns. *)
Theorem cleanParameters_throws_only_on_null_schema (x : JSON) :
  cleanParameters x = None <-> meets_null x = true.
Proof.
  rewrite <- (proj1 (cleanParameters_throws_on_null x)).
  unfold cleanParameters.
  destruct (cleanParameters_with_chain x); simpl; split; congruence.
Qed.

(** *** What a cleaned schema looks like *)

(** An entry the sanitizer would not leave behind: an empty [required],
    or an [items] that is an empty object or array. *)
Definition untidy_entry (kv : string * JSON) : bool :=
  String.eqb (fst kv) "required" && is_empty_array (snd kv)
  || String.eqb (fst kv) "items" && is_empty_container (snd kv).

Definition entries_tidy (tidy : JSON -> bool)
    (fields : list (string * JSON)) : bool :=
  forallb (fun kv => negb (untidy_entry kv) && tidy (snd kv)) fields.

(** In every object of [j], at any depth: no empty [required] and no
    empty [items]. *)
Fixpoint neat (j : JSON) : bool :=
  match j with
  | JArr elems => forallb neat elems
  | JObj fields => entries_tidy neat fields
  | _ => true
  end.

(** In every object of [j], at any depth: no empty [required], no empty
    [items], and no [required] without [properties]. *)
Fixpoint tidy (j : JSON) : bool :=
  match j with
  | JArr elems => forallb tidy elems
  | JObj fields => negb (dangling_required fields) && entries_tidy tidy fields
  | _ => true
  end.

(** No object of [j], at any depth, has an entry named [__proto__]. *)
Fixpoint plain (j : JSON) : bool :=
  match j with
  | JArr elems => forallb plain elems
  | JObj fields =>
      forallb
        (fun kv => negb (String.eqb (fst kv) "__proto__") && plain (snd kv))
        fields
  | _ => true
  end.

Lemma obj_get_other key key' (l : list (string * JSON)) :
  String.eqb key' key = false ->
  obj_get key' (obj_delete key l) = obj_get key' l.
Proof.
  intro Hne. unfold obj_delete.
  induction l as [|[k v] rest IH]; simpl; [reflexivity|].
  destruct (String.eqb k key) eqn:E; simpl.
  - apply String.eqb_eq in E. subst k.
    rewrite String.eqb_sym, Hne. exact IH.
  - destruct (String.eqb k key'); [reflexivity | exact IH].
Qed.

Section WalkTidy.
Variable clean : JSON -> option Cleaned.
(** [neat] or [tidy] *)
Variable good : JSON -> bool.
Hypothesis good_string : good (JObj [("type", JStr "string")]) = true.

Lemma obj_set_tidy key v cleaned :
  untidy_entry (key, v) = false ->
  good v = true ->
  entries_tidy good cleaned = true ->
  entries_tidy good (obj_set key v cleaned) = true.
Proof.
  intros Hk Hv. unfold entries_tidy.
  induction cleaned as [|[k w] rest IH]; simpl; intro H.
  - now rewrite Hk, Hv.
  - apply andb_true_iff in H as [Hkw Hrest].
    destruct (String.eqb k key) eqn:E; simpl.
    + apply String.eqb_eq in E. subst k. now rewrite Hk, Hv, Hrest.
    + now rewrite Hkw, IH.
Qed.

Lemma obj_delete_tidy key cleaned :
  entries_tidy good cleaned = true ->
  entries_tidy good (obj_delete key cleaned) = true.
Proof.
  unfold entries_tidy, obj_delete.
  induction cleaned as [|kv rest IH]; simpl; intro H; [reflexivity|].
  apply andb_true_iff in H as [Hkv Hrest].
  destruct (negb (String.eqb (fst kv) key)); simpl; auto.
  now rewrite Hkv, IH.
Qed.

Lemma assign_tidy key v cleaned :
  untidy_entry (key, returned v) = false ->
  good (returned v) = true ->
  entries_tidy good (own cleaned) = true ->
  entries_tidy good (own (assign key v cleaned)) = true.
Proof.
  intros Hk Hv Hc. rewrite assign_own.
  destruct (String.eqb key "__proto__"); [exact Hc|].
  now apply obj_set_tidy.
Qed.

Lemma drop_dangling_required_entries (cleaned : Building) :
  entries_tidy good (own cleaned) = true ->
  entries_tidy good (own (drop_dangling_required cleaned)) = true.
Proof.
  intro H. unfold drop_dangling_required.
  destruct (_ && _); cbn [own]; auto using obj_delete_tidy.
Qed.

Definition cleans_tidily (x : JSON) : Prop :=
  forall y, clean x = Some y ->
            good (returned y) = true
            /\ typeof_object (returned y) = typeof_object x
            /\ is_empty_array (returned y) = is_empty_array x.

Lemma clean_elems_tidy (elems out : list JSON) :
  Forall cleans_tidily elems ->
  clean_elems clean elems = Some out ->
  forallb good out = true.
Proof.
  intro Hall. revert out.
  induction Hall as [|x t Hx _ IH]; simpl; intros out H.
  - now injection H as <-.
  - destruct (clean x) as [x'|] eqn:Ex; [|discriminate].
    destruct (clean_elems clean t) as [t'|]; [|discriminate].
    injection H as <-. simpl.
    destruct (Hx _ Ex) as [Hx' _]. now rewrite Hx', (IH _ eq_refl).
Qed.

Lemma clean_entry_tidy (key : string) (value : JSON)
    (cleaned out : Building) :
  cleans_tidily value ->
  entries_tidy good (own cleaned) = true ->
  clean_entry clean key value cleaned = Some out ->
  entries_tidy good (own out) = true.
Proof.
  intros Hv Hc. unfold clean_entry.
  destruct (unsupported key) eqn:Hk.
  { now intros [= <-]. }
  destruct (String.eqb key "required" && is_empty_array value) eqn:Hreq.
  { now intros [= <-]. }
  assert (Hgeneric : forall v',
             clean value = Some v' ->
             (String.eqb key "items" && typeof_object value = false) ->
             entries_tidy good (own (assign key v' cleaned)) = true).
  { intros v' Ev Hitems. destruct (Hv _ Ev) as (Ht & Htype & Hempty).
    apply assign_tidy; auto. unfold untidy_entry. cbn [fst snd].
    rewrite Hempty, Hreq. cbn [orb].
    destruct (String.eqb key "items"); [|reflexivity].
    cbn [andb] in *. destruct (returned v'); try reflexivity;
      rewrite Hitems in Htype; discriminate. }
  destruct (String.eqb key "properties" && typeof_object value) eqn:Hprop.
  { apply andb_true_iff in Hprop as [Hp _].
    apply String.eqb_eq in Hp. subst key.
    destruct (keys_length value) as [[|n]|]; try discriminate.
    - now intros [= <-].
    - destruct (clean value) as [v'|] eqn:Ev; [|discriminate].
      intros [= <-]. now apply Hgeneric. }
  destruct (String.eqb key "items" && typeof_object value) eqn:Hitems.
  { apply andb_true_iff in Hitems as [Hi _].
    apply String.eqb_eq in Hi. subst key.
    destruct (clean value) as [v'|] eqn:Ev; [|discriminate].
    destruct (Hv _ Ev) as (Ht & _).
    destruct (keys_length (returned v')) as [[|n]|] eqn:Hlen;
      try discriminate;
      intros [= <-]; apply assign_tidy; auto.
    destruct (returned v') as [| | | | [|e es] | [|f fs]];
      try reflexivity; discriminate. }
  destruct (clean value) as [v'|] eqn:Ev; [|discriminate].
  intros [= <-]. now apply Hgeneric.
Qed.

Lemma clean_entries_tidy (fields : list (string * JSON)) :
  Forall (fun kv => cleans_tidily (snd kv)) fields ->
  forall cleaned out,
    entries_tidy good (own cleaned) = true ->
    clean_entries clean fields cleaned = Some out ->
    entries_tidy good (own out) = true.
Proof.
  induction 1 as [|[key value] rest Hv _ IH]; simpl; intros cleaned out Hc H.
  - now injection H as <-.
  - destruct (clean_entry clean key value cleaned) as [c'|] eqn:E;
      [|discriminate].
    eapply IH; [|exact H].
    eapply clean_entry_tidy; eauto.
Qed.

(** Where no entry is named [__proto__] the object goes on inheriting
    from what it did. *)
Lemma clean_entries_inherited (fields : list (string * JSON)) :
  forallb (fun kv => negb (String.eqb (fst kv) "__proto__")) fields = true ->
  forall cleaned out,
    clean_entries clean fields cleaned = Some out ->
    inherited out = inherited cleaned.
Proof.
  induction fields as [|[key value] rest IH]; simpl;
    intros Hplain cleaned out H.
  - now injection H as <-.
  - apply andb_true_iff in Hplain as [Hkey Hrest].
    apply negb_true_iff in Hkey.
    destruct (clean_entry clean key value cleaned) as [c'|] eqn:E;
      [|discriminate].
    rewrite (IH Hrest _ _ H).
    unfold clean_entry, assign in E. rewrite Hkey in E.
    repeat match type of E with
           | (if ?b then _ else _) = _ => destruct b
           | match ?x with _ => _ end = _ => destruct x
           end;
      try discriminate; now injection E as <-.
Qed.
End WalkTidy.

Lemma cleanParameters_with_chain_neat (x : JSON) :
  forall y, cleanParameters_with_chain x = Some y -> neat (returned y) = true.
Proof.
  induction x as [| b | n | s | elems IH | fields IH] using JSON_ind;
    intros y H; try (injection H as <-; reflexivity).
  - simpl in H.
    destruct (clean_elems cleanParameters_with_chain elems) as [out|] eqn:E;
      [|discriminate].
    injection H as <-. cbn [returned neat].
    apply (clean_elems_tidy cleanParameters_with_chain neat elems out);
      [|exact E].
    eapply Forall_impl; [|exact IH]. intros a Ha z Hz.
    split; [now apply Ha|].
    destruct (cleanParameters_with_chain_shape _ _ Hz) as (Ht & He & _).
    now split.
  - simpl in H.
    destruct (clean_entries cleanParameters_with_chain fields empty_object)
      as [out|] eqn:E; [|discriminate].
    injection H as <-. cbn [built returned neat].
    apply drop_dangling_required_entries.
    apply (clean_entries_tidy cleanParameters_with_chain neat eq_refl fields)
      with (cleaned := empty_object); [|reflexivity|exact E].
    eapply Forall_impl; [|exact IH]. intros a Ha z Hz.
    split; [now apply Ha|].
    destruct (cleanParameters_with_chain_shape _ _ Hz) as (Ht & He & _).
    now split.
Qed.

Lemma cleanParameters_with_chain_tidy (x : JSON) :
  plain x = true ->
  forall y, cleanParameters_with_chain x = Some y -> tidy (returned y) = true.
Proof.
  induction x as [| b | n | s | elems IH | fields IH] using JSON_ind;
    intros Hplain y H; try (injection H as <-; reflexivity).
  - simpl in H.
    destruct (clean_elems cleanParameters_with_chain elems) as [out|] eqn:E;
      [|discriminate].
    injection H as <-. cbn [returned tidy].
    apply (clean_elems_tidy cleanParameters_with_chain tidy elems out);
      [|exact E].
    cbn [plain] in Hplain. rewrite forallb_forall in Hplain.
    rewrite Forall_forall in *. intros a Hin z Hz.
    split; [now apply (IH a Hin (Hplain a Hin))|].
    destruct (cleanParameters_with_chain_shape _ _ Hz) as (Ht & He & _).
    now split.
  - simpl in H.
    destruct (clean_entries cleanParameters_with_chain fields empty_object)
      as [out|] eqn:E; [|discriminate].
    injection H as <-. cbn [built returned tidy].
    cbn [plain] in Hplain.
    assert (Hkeys : forallb
                      (fun kv => negb (String.eqb (fst kv) "__proto__"))
                      fields = true).
    { rewrite forallb_forall in *. intros kv Hin.
      specialize (Hplain kv Hin). now apply andb_true_iff in Hplain. }
    pose proof (clean_entries_inherited cleanParameters_with_chain fields
                  Hkeys empty_object out E) as Hchain.
    cbn [empty_object inherited] in Hchain.
    assert (Hentries : entries_tidy tidy (own out) = true).
    { apply (clean_entries_tidy cleanParameters_with_chain tidy eq_refl
               fields) with (cleaned := empty_object);
        [|reflexivity|exact E].
      rewrite forallb_forall in Hplain.
      rewrite Forall_forall in *. intros kv Hin z Hz.
      specialize (Hplain kv Hin). apply andb_true_iff in Hplain as [_ Hp].
      split; [now apply (IH kv Hin Hp)|].
      destruct (cleanParameters_with_chain_shape _ _ Hz) as (Ht & He & _).
      now split. }
    rewrite (drop_dangling_required_entries tidy out Hentries), andb_true_r.
    destruct out as [fields' chain']. cbn [inherited own] in *. subst chain'.
    unfold drop_dangling_required. rewrite !read_own.
    fold (dangling_required fields').
    destruct (dangling_required fields') eqn:Ed; cbn [own].
    + unfold dangling_required. now rewrite obj_get_deleted.
    + now rewrite Ed.
Qed.

(** X6.  Whatever [cleanParameters] returns is neat at every depth: no
    object is left with an empty [required] array or with an [items]
    that is an empty object.  On a schema without an entry named
    [__proto__] it is tidy as well: no object is left with a [required]
    that has no [properties] beside it. *)
Theorem cleanParameters_leaves_a_tidy_schema (x y : JSON) :
  cleanParameters x = Some y ->
  neat y = true /\ (plain x = true -> tidy y = true).
Proof.
  intro H. destruct (cleanParameters_returned x y H) as (c & Hc & <-).
  split.
  - exact (cleanParameters_with_chain_neat x c Hc).
  - intro Hplain. exact (cleanParameters_with_chain_tidy x Hplain c Hc).
Qed.

(** A schema with a nested array parameter, as a file-editing tool
    declares it. *)
Definition edits_schema : JSON :=
  JObj [ ("type", JStr "object");
         ("properties",
          JObj [ ("edits",
                  JObj [ ("type", JStr "array");
                         ("items", JObj [("format", JStr "uri")]);
                         ("minItems", JNum 1) ]);
                 ("path", JObj [ ("type", JStr "string");
                                 ("required", JArr []) ]) ]);
         ("required", JArr [JStr "path"]);
         ("$schema", JStr "http://json-schema.org/draft-07/schema#") ].

Definition edits_schema_cleaned : JSON :=
  JObj [ ("type", JStr "object");
         ("properties",
          JObj [ ("edits",
                  JObj [ ("type", JStr "array");
                         ("items", JObj [("type", JStr "string")]) ]);
                 ("path", JObj [("type", JStr "string")]) ]);
         ("required", JArr [JStr "path"]) ].

Lemma cleanParameters_leaves_a_tidy_schema_witness :
  cleanParameters edits_schema = Some edits_schema_cleaned
  /\ neat edits_schema_cleaned = true
  /\ tidy edits_schema_cleaned = true.
Proof.
  split; [reflexivity|].
  destruct (cleanParameters_leaves_a_tidy_schema edits_schema
              edits_schema_cleaned eq_refl) as [Hneat Htidy].
  split; [exact Hneat | apply Htidy; reflexivity].
Defined.

(** The two properties of the sanitizer proved with the rules above
    (see [SanitizerFacts]) hold on this schema as on any other. *)
Lemma cleanParameters_strips_unsupported_witness :
  supported_only edits_schema_cleaned = true.
Proof.
  apply (cleanParameters_strips_unsupported edits_schema
           edits_schema_cleaned).
  reflexivity.
Defined.

Lemma cleanParameters_second_pass_keeps_a_settled_schema_witness :
  cleanParameters edits_schema_cleaned = Some edits_schema_cleaned.
Proof.
  apply (cleanParameters_second_pass_keeps_a_settled_schema edits_schema
           edits_schema_cleaned);
    reflexivity.
Defined.

End SanitizerWalk.

(** ** More on the router *)

Module RouterRoutes.
Import RequestTransformer Router RouterFacts.

Definition web_search_route : string :=
  "antigravity-websearch,gemini-2.5-flash".

Definition antigravity_routes : list string :=
  [ "antigravity,claude-opus-4-5-thinking";
    "antigravity,gemini3-pro-high";
    "antigravity,claude-sonnet-4-5-thinking" ].

(** [req.body.tools || []] *)
Definition tools_of (body : Body) : list Tool :=
  match tools body with
  | Some ts => ts
  | None => []
  end.

Lemma has_web_search_tool (ts : list Tool) :
  existsb is_web_search ts = true
  <-> exists tool, In tool ts /\ t_type tool = Some "web_search_20250305".
Proof.
  rewrite existsb_exists. unfold is_web_search.
  split; intros (tool & Hin & H); exists tool; split; auto;
    now apply same_id_Some.
Qed.

(** X7.  The router answers with the web-search pipeline only when the
    request carries a web-search tool.  Every other request is routed to
    the provider [antigravity] with one of three models, and leaves the
    router with its declared model (or the empty string) recorded as
    [originalModel] and nothing else changed; a web-search request
    leaves with the [__isWebSearch] flag and no [originalModel]
    recorded. *)
Theorem router_routes (toLowerCase : string -> string) (body : Body) :
  (fst (router toLowerCase body) = web_search_route
   <-> exists tool,
         In tool (tools_of body)
         /\ t_type tool = Some "web_search_20250305")
  /\ (fst (router toLowerCase body) = web_search_route
      \/ In (fst (router toLowerCase body)) antigravity_routes)
  /\ snd (router toLowerCase body)
     = (if existsb is_web_search (tools_of body)
        then mkBody (tools body) (model body) (thinking body) true
               (originalModel body)
        else mkBody (tools body) (model body) (thinking body)
               (__isWebSearch body) (Some (or_else (model body) ""))).
Proof.
  rewrite <- has_web_search_tool. unfold router, tools_of.
  destruct (existsb is_web_search
              match tools body with Some ts => ts | None => [] end).
  - cbn [fst snd]. repeat split; auto.
  - cbn [fst snd].
    destruct (includes _ "opus"); [|destruct (includes _ "haiku");
      [|destruct (includes _ "sonnet"); [|destruct (thinking body)]]];
      (split; [split; discriminate|]);
      (split; [right; simpl; tauto | reflexivity]).
Qed.

End RouterRoutes.

(** ** More on the contents of the envelope *)

Module ContentsMore.
Import RequestTransformer RequestIn.

Section Contents.
Variable JSON_parse : string -> option JSON.
Variable random_suffix : nat -> string.

Definition not_system (m : Message) : bool := negb (is_system m).

Lemma push_messages_skip_system (toolResponses : list Message)
    (messages : list Message) :
  forall contents rng,
    push_messages JSON_parse random_suffix toolResponses contents rng
      messages
    = push_messages JSON_parse random_suffix toolResponses contents rng
        (filter not_system messages).
Proof.
  induction messages as [|m rest IH]; intros contents rng; [reflexivity|].
  cbn [filter]. unfold not_system at 1, is_system.
  destruct (String.eqb (role m) "system") eqn:E; cbn [negb].
  - cbn [push_messages]. unfold push_message. rewrite E. apply IH.
  - cbn [push_messages].
    destruct (push_message JSON_parse random_suffix toolResponses contents
                rng m) as [[contents' rng']|]; [apply IH | reflexivity].
Qed.

Lemma filter_filter {A : Type} (f g : A -> bool) (l : list A) :
  filter f (filter g l) = filter g (filter f l).
Proof.
  induction l as [|x l IH]; simpl; [reflexivity|].
  destruct (f x) eqn:Ef, (g x) eqn:Eg; simpl; rewrite ?Ef, ?Eg, IH;
    reflexivity.
Qed.

Lemma tool_is_not_system (m : Message) :
  is_tool m = true -> not_system m = true.
Proof.
  unfold is_tool, not_system, is_system. intro H.
  apply String.eqb_eq in H. now rewrite H.
Qed.

Lemma filter_tool_not_system (messages : list Message) :
  filter is_tool (filter not_system messages) = filter is_tool messages.
Proof.
  induction messages as [|m rest IH]; simpl; [reflexivity|].
  destruct (not_system m) eqn:En; simpl.
  - now rewrite IH.
  - destruct (is_tool m) eqn:Et; [|exact IH].
    apply tool_is_not_system in Et. congruence.
Qed.

(** X8.  System messages never reach [contents]: the array built for a
    conversation is the one built for the conversation with its
    system-role messages taken out. *)
Theorem system_messages_never_reach_contents (messages : list Message) :
  build_contents JSON_parse random_suffix messages
  = build_contents JSON_parse random_suffix (filter not_system messages).
Proof.
  unfold build_contents. rewrite filter_tool_not_system.
  rewrite (filter_filter (fun m => negb (is_tool m)) not_system).
  now rewrite <- push_messages_skip_system.
Qed.

(** *** No content is empty *)

Definition has_parts (c : Content) : Prop := c_parts c <> [].

Lemma push_message_has_parts (toolResponses : list Message)
    (contents : list Content) (rng : nat) (m : Message)
    (contents' : list Content) (rng' : nat) :
  Forall has_parts contents ->
  push_message JSON_parse random_suffix toolResponses contents rng m
  = Some (contents', rng') ->
  Forall has_parts contents'.
Proof.
  intros Hall. unfold push_message.
  destruct (String.eqb (role m) "system").
  { now intros [= <- <-]. }
  destruct (match tool_calls m with
            | Some calls =>
                call_parts JSON_parse random_suffix (thinking_signature m)
                  0 rng calls
            | None => Some ([], rng)
            end) as [[calls rng1]|]; [|discriminate].
  intros [= <- <-].
  set (parts := content_parts m ++ calls).
  assert (H1 : Forall has_parts
                 match parts with
                 | [] => contents
                 | _ :: _ =>
                     contents
                     ++ [mkContent
                           (if String.eqb (role m) "assistant"
                            then RequestTransformer.model else user)
                           parts]
                 end).
  { destruct parts as [|p ps] eqn:Ep; [exact Hall|].
    apply Forall_app. split; [exact Hall|].
    constructor; [|constructor]. unfold has_parts. simpl. discriminate. }
  destruct (if String.eqb (role m) "assistant"
            then RequestTransformer.model else user);
    [exact H1|].
  destruct (tool_calls m) as [tools|]; [|exact H1].
  destruct (map (function_response toolResponses) tools) as [|r rs] eqn:Er;
    [exact H1|].
  apply Forall_app. split; [exact H1|].
  constructor; [|constructor]. unfold has_parts. simpl. discriminate.
Qed.

Lemma push_messages_has_parts (toolResponses : list Message)
    (messages : list Message) :
  forall contents rng contents' rng',
    Forall has_parts contents ->
    push_messages JSON_parse random_suffix toolResponses contents rng
      messages
    = Some (contents', rng') ->
    Forall has_parts contents'.
Proof.
  induction messages as [|m rest IH];
    intros contents rng contents' rng' Hall H; simpl in H.
  - now injection H as <- <-.
  - destruct (push_message JSON_parse random_suffix toolResponses contents
                rng m) as [[c1 rng1]|] eqn:E; [|discriminate].
    eapply IH; [|exact H].
    eapply push_message_has_parts; eauto.
Qed.

(** X9.  No content of the envelope is empty: a message that yields no
    part (an empty text, an image-less and text-less array, an assistant
    turn with an empty [tool_calls]) leaves no entry in [contents]. *)
Theorem contents_have_parts (messages : list Message)
    (contents : list Content) :
  build_contents JSON_parse random_suffix messages = Some contents ->
  Forall (fun c => c_parts c <> []) contents.
Proof.
  unfold build_contents. intro H.
  destruct (push_messages JSON_parse random_suffix (filter is_tool messages)
              [] 0 (filter (fun m => negb (is_tool m)) messages))
    as [[cs rng]|] eqn:E; [|discriminate].
  injection H as <-.
  eapply push_messages_has_parts; [|exact E]. constructor.
Qed.
End Contents.

(** A conversation that opens with an empty user message. *)
Definition hesitant : list Message :=
  [ mkMessage "user" (MCString "") None None None;
    mkMessage "system" (MCString "Answer in French.") None None None;
    mkMessage "user" (MCString "Hello") None None None ].

Lemma contents_have_parts_witness :
  Forall (fun c => c_parts c <> []) [mkContent user [PText "Hello" None]].
Proof.
  apply (contents_have_parts (fun _ => Some (JObj [])) (fun _ => "r4nd0m")
           hesitant [mkContent user [PText "Hello" None]]).
  reflexivity.
Defined.

(** *** Images *)

Fixpoint comma_free (s : string) : bool :=
  match s with
  | EmptyString => true
  | String c rest => negb (Ascii.eqb c ","%char) && comma_free rest
  end.

Lemma append_empty (s : string) : String.append s EmptyString = s.
Proof. induction s as [|c s IH]; simpl; [reflexivity | now rewrite IH]. Qed.

(** What [split(',').pop()] finds: the whole text when it has no comma,
    and otherwise what follows its last comma. *)
Lemma last_segment_cases (s : string) :
  forall acc,
    (comma_free s = true /\ last_segment acc s = String.append acc s)
    \/ (exists header,
          s = String.append header (String "," (last_segment acc s))
          /\ comma_free (last_segment acc s) = true).
Proof.
  induction s as [|c s IH]; intro acc.
  - left. split; [reflexivity | now rewrite append_empty].
  - cbn [last_segment comma_free].
    destruct (Ascii.eqb c ","%char) eqn:E; cbn [negb andb].
    + apply Ascii.eqb_eq in E. subst c. right.
      destruct (IH EmptyString) as [[Hfree Heq] | (header & Hs & Hfree)].
      * exists EmptyString. cbn [String.append] in *.
        rewrite Heq. now split.
      * exists (String "," header). cbn [String.append].
        split; [now rewrite <- Hs | exact Hfree].
    + destruct (IH (String.append acc (String c EmptyString)))
        as [[Hfree Heq] | (header & Hs & Hfree)].
      * left. split; [exact Hfree|].
        rewrite Heq, JsonFacts.append_assoc. reflexivity.
      * right. exists (String c header). cbn [String.append].
        split; [now rewrite <- Hs | exact Hfree].
Qed.

(** X11.  An image whose URL does not start with [http] is sent inline,
    cut at its last comma: of [data:image/png;base64,<payload>] the
    payload alone goes upstream.  A URL with no comma, or with nothing
    after its last comma, is sent whole as the image data. *)
Theorem inline_image_is_cut_at_its_last_comma (url : string)
    (media_type : option string) :
  String.prefix "http" url = false ->
  exists payload,
    item_parts (CImageUrl url media_type)
    = [PInlineData media_type payload]
    /\ ((exists header,
           url = String.append header (String "," payload)
           /\ payload <> EmptyString /\ comma_free payload = true)
        \/ (payload = url
            /\ (comma_free url = true
                \/ exists header,
                     url = String.append header (String "," EmptyString)))).
Proof.
  intro Hhttp. cbn [item_parts]. rewrite Hhttp. unfold inline_payload.
  destruct (last_segment_cases url EmptyString)
    as [[Hfree Heq] | (header & Hurl & Hfree)].
  - cbn [String.append] in Heq. rewrite Heq.
    exists url. split; [now destruct (String.eqb url "")|].
    right. split; [reflexivity | now left].
  - destruct (String.eqb (last_segment EmptyString url) "") eqn:E.
    + apply String.eqb_eq in E. exists url. split; [reflexivity|].
      right. split; [reflexivity|]. right. exists header.
      now rewrite E in Hurl.
    + apply String.eqb_neq in E.
      exists (last_segment EmptyString url). split; [reflexivity|].
      left. exists header. now repeat split.
Qed.

Lemma inline_image_is_cut_at_its_last_comma_witness :
  exists payload,
    item_parts (CImageUrl "data:image/png;base64,iVBORw0KGgo=" None)
    = [PInlineData None payload]
    /\ ((exists header,
           "data:image/png;base64,iVBORw0KGgo="
           = String.append header (String "," payload)
           /\ payload <> EmptyString /\ comma_free payload = true)
        \/ (payload = "data:image/png;base64,iVBORw0KGgo="
            /\ (comma_free "data:image/png;base64,iVBORw0KGgo=" = true
                \/ exists header,
                     "data:image/png;base64,iVBORw0KGgo="
                     = String.append header (String "," EmptyString)))).
Proof.
  apply (inline_image_is_cut_at_its_last_comma
           "data:image/png;base64,iVBORw0KGgo=" None).
  reflexivity.
Defined.

End ContentsMore.

(** ** The envelope of the Antigravity request *)

Module EnvelopeFacts.
Import Sanitizer RequestTransformer TokenManager RequestIn ContentsMore.

(** The request without its system-role messages. *)
Definition without_system_messages (request : Request) : Request :=
  mkRequest (filter not_system (messages request)) (system request)
    (tools request) (tool_choice request) (temperature request)
    (max_tokens request) (top_p request) (reasoning request)
    (originalModel request) (RequestIn.model request).

(** X10.  When the request brings a non-empty top-level [system] array,
    the system-role messages of the conversation are sent nowhere: they
    are kept out of [contents], and the system instruction is built from
    the array alone.  The whole result is the one for the request
    without those messages. *)
Theorem top_level_system_hides_system_messages
    (JSON_parse : string -> option JSON) (random_suffix : nat -> string)
    (toLowerCase : string -> string) (number_toString : Z -> string)
    (options : Options) (token : Outcome) (uuid : string) (now : Z)
    (request : Request) (context_originalModel : option string)
    (c : ContentItem) (cs : list ContentItem) :
  system request = Some (c :: cs) ->
  transformRequestIn JSON_parse random_suffix toLowerCase number_toString
    options token uuid now request context_originalModel
  = transformRequestIn JSON_parse random_suffix toLowerCase number_toString
      options token uuid now (without_system_messages request)
      context_originalModel.
Proof.
  intro Hsys. unfold transformRequestIn.
  destruct token as [accessToken|message]; [|reflexivity].
  cbn [without_system_messages messages tools tool_choice originalModel
       RequestIn.model].
  unfold build_contents.
  rewrite filter_tool_not_system.
  rewrite (filter_filter (fun m => negb (is_tool m)) not_system).
  rewrite <- push_messages_skip_system.
  unfold build_system_instruction, build_generation_config.
  cbn [without_system_messages system messages temperature max_tokens top_p
       reasoning].
  now rewrite Hsys.
Qed.

Definition architect : Request :=
  mkRequest
    [ mkMessage "system" (MCString "Answer in French.") None None None;
      mkMessage "user" (MCString "Hello") None None None ]
    (Some [CText "You are a software architect."])
    None NoChoice None None None None None
    (Some "claude-sonnet-4-20250514").

Definition default_options : Options :=
  construct (mkGivenOptions None None None None None).

Lemma top_level_system_hides_system_messages_witness :
  transformRequestIn (fun _ => Some (JObj [])) (fun _ => "r4nd0m")
    (fun s => s) (fun _ => "1700000000000") default_options
    (Returned (Some "ya29.token")) "uuid" 1700000000000 architect None
  = transformRequestIn (fun _ => Some (JObj [])) (fun _ => "r4nd0m")
      (fun s => s) (fun _ => "1700000000000") default_options
      (Returned (Some "ya29.token")) "uuid" 1700000000000
      (mkRequest [mkMessage "user" (MCString "Hello") None None None]
         (Some [CText "You are a software architect."])
         None NoChoice None None None None None
         (Some "claude-sonnet-4-20250514"))
      None.
Proof.
  apply (top_level_system_hides_system_messages (fun _ => Some (JObj []))
           (fun _ => "r4nd0m") (fun s => s) (fun _ => "1700000000000")
           default_options (Returned (Some "ya29.token")) "uuid"
           1700000000000 architect None
           (CText "You are a software architect.") []).
  reflexivity.
Defined.

(** *** Tools and their configuration *)

Lemma declare_tools_web_search (ts : list Tool) :
  forallb Router.is_web_search ts = true -> declare_tools ts = Some [].
Proof.
  induction ts as [|t rest IH]; simpl; intro H; [reflexivity|].
  apply andb_true_iff in H as [Ht Hrest].
  unfold declare_tool. unfold Router.is_web_search in Ht. rewrite Ht.
  now rewrite (IH Hrest).
Qed.

(** [toolConfig] goes with [tools]: the envelope carries the one exactly
    when it carries the other.  A request all of whose tools are
    web-search tools is sent with neither, whatever its [tool_choice]. *)
Lemma tool_config_goes_with_tools
    (JSON_parse : string -> option JSON) (random_suffix : nat -> string)
    (toLowerCase : string -> string) (number_toString : Z -> string)
    (options : Options) (token : Outcome) (uuid : string) (now : Z)
    (request : Request) (context_originalModel : option string)
    (t : Transformed) :
  transformRequestIn JSON_parse random_suffix toLowerCase number_toString
    options token uuid now request context_originalModel
  = Resolved t ->
  (toolConfig (RequestIn.request (body t)) = None
   <-> i_tools (RequestIn.request (body t)) = None)
  /\ (forall ts,
        tools request = Some ts ->
        forallb Router.is_web_search ts = true ->
        i_tools (RequestIn.request (body t)) = None
        /\ toolConfig (RequestIn.request (body t)) = None).
Proof.
  unfold transformRequestIn.
  destruct token as [accessToken|message]; [|discriminate].
  destruct (build_contents JSON_parse random_suffix (messages request));
    [|discriminate].
  destruct (build_tools (tools request)) as [built|] eqn:Hbuilt;
    [|discriminate].
  intros [= <-]. cbn [body RequestIn.request toolConfig i_tools]. split.
  - unfold build_tool_config. destruct built; split; congruence.
  - intros ts Hts Hall. rewrite Hts in Hbuilt.
    assert (built = None).
    { unfold build_tools in Hbuilt. destruct ts as [|x xs]; [congruence|].
      rewrite (declare_tools_web_search _ Hall) in Hbuilt.
      simpl in Hbuilt. congruence. }
    subst built. now split.
Qed.

Definition search_only : Request :=
  mkRequest [mkMessage "user" (MCString "weather in Sofia") None None None]
    None (Some [ToolFacts.web_search]) (ChoiceNamed "required")
    None None None None None (Some "claude-sonnet-4-20250514").

Lemma tool_config_goes_with_tools_witness :
  exists t,
    transformRequestIn (fun _ => Some (JObj [])) (fun _ => "r4nd0m")
      (fun s => s) (fun _ => "1700000000000") default_options
      (Returned (Some "ya29.token")) "uuid" 1700000000000 search_only None
    = Resolved t
    /\ i_tools (RequestIn.request (body t)) = None
    /\ toolConfig (RequestIn.request (body t)) = None.
Proof.
  eexists. split; [reflexivity|].
  refine (proj2
            (tool_config_goes_with_tools (fun _ => Some (JObj []))
               (fun _ => "r4nd0m") (fun s => s) (fun _ => "1700000000000")
               default_options (Returned (Some "ya29.token")) "uuid"
               1700000000000 search_only None _ eq_refl)
            [ToolFacts.web_search] eq_refl eq_refl).
Defined.

(** *** The upstream model *)

Definition upstream_models : list UpstreamModel :=
  [ Named "claude-opus-4-5-thinking";
    Named "claude-sonnet-4-5-thinking";
    Named "gemini3-pro-high" ].

Lemma own_values (key v : string) (table : list (string * string)) :
  own key table = Some v -> In v (map snd table).
Proof.
  induction table as [|[k w] rest IH]; simpl; [discriminate|].
  destruct (String.eqb k key); [intros [= ->]; now left | auto].
Qed.

(** X12.  With the table the constructor sets up when the options bring
    none, every requested model is answered with one of three upstream
    models -- provided its name is not that of a member every JavaScript
    object inherits ([constructor], [toString], ...), for which the
    lookup in the table yields a function and the envelope goes out
    without a model name. *)
Theorem default_table_names_three_models (toLowerCase : string -> string)
    (requestedModel : string) :
  (existsb (String.eqb requestedModel) prototype_members = false ->
   In (resolve_model toLowerCase
         (modelMapping (construct (mkGivenOptions None None None None None)))
         requestedModel)
      upstream_models)
  /\ (existsb (String.eqb requestedModel) prototype_members = true ->
      resolve_model toLowerCase
        (modelMapping (construct (mkGivenOptions None None None None None)))
        requestedModel
      = NotAName).
Proof.
  change (modelMapping (construct (mkGivenOptions None None None None None)))
    with defaultModelMapping.
  unfold resolve_model, look.
  destruct (own requestedModel defaultModelMapping) as [v|] eqn:Hown.
  - assert (Hkey : In requestedModel (map fst defaultModelMapping)).
    { clear - Hown. revert Hown. generalize defaultModelMapping.
      induction l as [|[k w] rest IH]; simpl; [discriminate|].
      destruct (String.eqb k requestedModel) eqn:E; [|auto].
      apply String.eqb_eq in E. auto. }
    apply own_values in Hown. split.
    + intros _. simpl in Hown.
      repeat (destruct Hown as [<-|Hown]; [simpl; tauto|]). contradiction.
    + intro Hproto. exfalso. simpl in Hkey.
      repeat (destruct Hkey as [<-|Hkey]; [discriminate Hproto|]).
      contradiction.
  - destruct (existsb (String.eqb requestedModel) prototype_members).
    + split; [discriminate | reflexivity].
    + split; [|discriminate]. intros _.
      destruct (includes _ "opus"); [simpl; tauto|].
      destruct (includes _ "haiku"); simpl; tauto.
Qed.

Lemma default_table_names_three_models_witness :
  In (resolve_model (fun s => s) defaultModelMapping "gemini-pro")
     upstream_models
  /\ resolve_model (fun s => s) defaultModelMapping "toString" = NotAName.
Proof.
  split.
  - apply (proj1 (default_table_names_three_models (fun s => s)
                    "gemini-pro")).
    reflexivity.
  - apply (proj2 (default_table_names_three_models (fun s => s)
                    "toString")).
    reflexivity.
Defined.

End EnvelopeFacts.

(** ** More on the token managers *)

Module TokenReuse.
Import TokenManager.

Lemma start_refreshes (file : option Credentials) (now : Z)
    (credentials : Credentials) :
  Antigravity.start file now = inr credentials ->
  file = Some credentials /\ present (refresh_token credentials) = true.
Proof.
  unfold Antigravity.start. destruct file as [c|]; [|discriminate].
  destruct (present (refresh_token c)) eqn:Hr; cbn [negb]; [|discriminate].
  destruct (_ && _); [discriminate|]. intros [= <-]. now split.
Qed.

(** X13.  A token the Antigravity transformer has just refreshed is
    served from the credentials file afterwards: a call made while the
    token has more than five minutes to live returns it without posting
    anything and without touching the file.  When the token endpoint
    names no [expires_in], the stored expiry is not a number and every
    later call refreshes again. *)
Theorem refreshed_token_is_reused
    (file : option Credentials) (credentials : Credentials)
    (now later next afterwards : Z) (token : string)
    (expires_in : option Z) (error description : option string)
    (reply : TokenReply) :
  Antigravity.start file now = inr credentials ->
  token <> "" ->
  (0 <= next)%Z ->
  let '(outcome, effects, file') :=
    Antigravity.finish file credentials later
      (Reply (Some token) expires_in error description) in
  outcome = Returned (Some token)
  /\ match expires_in with
     | Some seconds =>
         (expiryThreshold < later + seconds * 1000 - next)%Z ->
         Antigravity.getFreshAccessToken file' next afterwards reply
         = (Returned (Some token), [], file')
     | None =>
         exists saved,
           file' = Some saved /\ Antigravity.start file' next = inr saved
     end.
Proof.
  intros Hstart Htoken Hnext.
  apply start_refreshes in Hstart as [-> Hrefresh].
  unfold Antigravity.finish.
  assert (Hpresent : present (Some token) = true).
  { simpl. apply negb_true_iff. now apply String.eqb_neq. }
  rewrite Hpresent. split; [reflexivity|].
  destruct expires_in as [seconds|].
  - intro Hlive.
    unfold Antigravity.getFreshAccessToken, Antigravity.start.
    cbn [refresh_token access_token token_expiry expiry_after option_map].
    rewrite Hrefresh, Hpresent. cbn [negb andb nonzero].
    assert (H0 : (later + seconds * 1000 =? 0)%Z = false).
    { apply Z.eqb_neq. unfold expiryThreshold in Hlive. lia. }
    rewrite H0. cbn [negb andb].
    apply Z.ltb_lt in Hlive. now rewrite Hlive.
  - eexists. split; [reflexivity|].
    unfold Antigravity.start.
    cbn [refresh_token access_token token_expiry expiry_after option_map].
    rewrite Hrefresh, Hpresent. reflexivity.
Qed.

Lemma refreshed_token_is_reused_witness :
  Antigravity.getFreshAccessToken
    (Some (mkCredentials (Some "client-id") (Some "client-secret")
             (Some "1//refresh") (Some "ya29.new") (Some 3600500%Z)
             (Some 60000%Z)))
    1000 2000 (RequestError "unreachable")
  = (Returned (Some "ya29.new"), [],
     Some (mkCredentials (Some "client-id") (Some "client-secret")
             (Some "1//refresh") (Some "ya29.new") (Some 3600500%Z)
             (Some 60000%Z))).
Proof.
  refine (proj2
            (refreshed_token_is_reused (Some TokenFacts.expiring)
               TokenFacts.expiring 0 500 1000 2000 "ya29.new"
               (Some 3600%Z) None None (RequestError "unreachable")
               eq_refl _ _)
            _).
  - discriminate.
  - lia.
  - reflexivity.
Defined.

(** *** The interceptors' cache *)

(** X14.  The pure-API interceptor never throws: whatever the cache, the
    file and the token endpoint hold, [getFreshAccessToken] returns, with
    a token or with [null].  It trusts nothing but its own cache: when
    the cache is stale and the file holds a refresh token it posts a
    refresh, whatever access token and expiry the file holds.  And a
    token it has obtained is served from the cache while it has more
    than five minutes to live, without a post and without reading the
    file. *)
Theorem interceptor_trusts_its_cache_only
    (cache : Cache) (file : option Credentials) (now : Z)
    (reply : TokenReply) :
  (exists token,
     fst (fst (fst (Interceptor.getFreshAccessToken cache file now reply)))
     = Returned token)
  /\ (forall credentials,
        cache_fresh cache now = false ->
        file = Some credentials ->
        present (refresh_token credentials) = true ->
        Interceptor.start cache file now = inr credentials)
  /\ (forall credentials token seconds error description next file'
             reply',
        Interceptor.start cache file now = inr credentials ->
        token <> "" ->
        present error = false ->
        (next + expiryThreshold < now + seconds * 1000)%Z ->
        let '(outcome, effects, cache', saved) :=
          Interceptor.finish cache file credentials now
            (Reply (Some token) (Some seconds) error description) in
        outcome = Returned (Some token)
        /\ Interceptor.getFreshAccessToken cache' file' next reply'
           = (Returned (Some token), [], cache', file')).
Proof.
  split; [|split].
  - unfold Interceptor.getFreshAccessToken.
    destruct (Interceptor.start cache file now) as [outcome|credentials]
      eqn:Hstart.
    + unfold Interceptor.start in Hstart. cbn [fst].
      destruct (cache_fresh cache now); [injection Hstart as <-; eauto|].
      destruct file as [c|]; [|injection Hstart as <-; eauto].
      destruct (present (refresh_token c)); [discriminate|].
      injection Hstart as <-; eauto.
    + unfold Interceptor.finish, Interceptor.on_tokens.
      destruct reply as [a e err d | b m | m]; cbn [fst]; eauto.
      destruct (present err); cbn [fst]; eauto.
  - intros credentials Hstale -> Hrefresh. unfold Interceptor.start.
    now rewrite Hstale, Hrefresh.
  - intros credentials token seconds error description next file' reply'
      _ Htoken Herror Hlive.
    unfold Interceptor.finish, Interceptor.on_tokens. rewrite Herror.
    split; [reflexivity|].
    unfold Interceptor.getFreshAccessToken, Interceptor.start, cache_fresh.
    cbn [cachedAccessToken tokenExpiryTime expiry_after option_map].
    assert (Hpresent : present (Some token) = true).
    { simpl. apply negb_true_iff. now apply String.eqb_neq. }
    rewrite Hpresent. apply Z.ltb_lt in Hlive. now rewrite Hlive.
Qed.

Lemma interceptor_trusts_its_cache_only_witness :
  Interceptor.getFreshAccessToken
    (mkCache (Some "ya29.new") (Some 3600000%Z)) None 1000
    (RequestError "unreachable")
  = (Returned (Some "ya29.new"), [],
     mkCache (Some "ya29.new") (Some 3600000%Z), None).
Proof.
  refine (proj2
            (proj2
               (proj2
                  (interceptor_trusts_its_cache_only TokenFacts.empty_cache
                     (Some TokenFacts.expiring) 0
                     (RequestError "unreachable")))
               TokenFacts.expiring "ya29.new" 3600%Z None None 1000%Z None
               (RequestError "unreachable") eq_refl _ eq_refl _)).
  - discriminate.
  - reflexivity.
Defined.

(** *** The library-based interceptor can log in for ever *)

Section Relogin.
Import LegacyInterceptor.
Variable runLoginFlow : nat -> LoginResult.
Variable getAccessToken : nat -> Credentials -> RefreshResult.
Variable clock : nat -> Z.

(** The user completes every login, and the token endpoint answers every
    refresh without a token. *)
Definition logins_succeed : Prop :=
  forall n, exists c,
    runLoginFlow n = LoggedIn c /\ present (refresh_token c) = true.

Definition refreshes_come_back_empty : Prop :=
  forall n credentials, exists token expiry,
    getAccessToken n credentials = Refreshed token expiry
    /\ present token = false.

(** X15.  The library-based interceptor bounds neither its logins nor
    its retries.  While the user completes every login and the token
    endpoint answers every refresh without a token, a call that finds
    its cache stale starts over again and again: no number of nested
    calls is enough for it to return. *)
Theorem relogin_never_ends (fuel : nat) :
  logins_succeed ->
  refreshes_come_back_empty ->
  forall w,
    (forall n, cache_fresh (cache w) (clock n) = false) ->
    fst (getFreshAccessToken runLoginFlow getAccessToken clock fuel w)
    = None.
Proof.
  intros Hlogin Hrefresh.
  induction fuel as [|fuel IH]; intros w Hstale; [reflexivity|].
  cbn [getFreshAccessToken]. cbn [cache file logins refreshes calls effects].
  rewrite Hstale.
  unfold login. cbn [cache file logins refreshes calls effects].
  repeat
    (match goal with
     | |- context [getAccessToken ?n ?c] =>
         let Hr := fresh "Hr" in
         let Ht := fresh "Ht" in
         destruct (Hrefresh n c) as (? & ? & Hr & Ht); rewrite Hr, ?Ht
     | |- context [runLoginFlow ?n] =>
         let Hl := fresh "Hl" in
         let Hc := fresh "Hc" in
         destruct (Hlogin n) as (? & Hl & Hc); rewrite Hl, ?Hc
     | |- context [match file w with _ => _ end] => destruct (file w)
     | |- context [present (refresh_token ?c)] =>
         destruct (present (refresh_token c))
     end;
     cbn [cache file logins refreshes calls effects]);
    apply IH; exact Hstale.
Qed.
End Relogin.

(** The user signs in each time, and each time the token endpoint
    answers without a token. *)
Lemma relogin_never_ends_witness :
  fst (LegacyInterceptor.getFreshAccessToken
         (fun _ => LegacyInterceptor.LoggedIn TokenFacts.expiring)
         (fun _ _ => LegacyInterceptor.Refreshed None None)
         (fun _ => 1000%Z) 50
         (LegacyInterceptor.mkWorld TokenFacts.empty_cache
            (Some TokenFacts.expiring) 0 0 0 []))
  = None.
Proof.
  apply (relogin_never_ends
           (fun _ => LegacyInterceptor.LoggedIn TokenFacts.expiring)
           (fun _ _ => LegacyInterceptor.Refreshed None None)
           (fun _ => 1000%Z) 50).
  - intro n. exists TokenFacts.expiring. split; reflexivity.
  - intros n credentials. exists None, None. split; reflexivity.
  - intro n. reflexivity.
Defined.

End TokenReuse.

(** ** Lines of a body that arrives in pieces *)

Module LineFacts.
Import Stream.

(** No line feed in [s]. *)
Fixpoint one_line (s : string) : bool :=
  match s with
  | EmptyString => true
  | String c rest => negb (Ascii.eqb c LF) && one_line rest
  end.

(** The lines of [text] that are closed by a line feed. *)
Definition complete_lines (text : string) : list string :=
  removelast (split_lines EmptyString text).

(** What follows the last line feed of [text]. *)
Definition remainder (text : string) : string :=
  last (split_lines EmptyString text) EmptyString.

Lemma split_lines_not_nil (current s : string) :
  split_lines current s <> [].
Proof.
  revert current. induction s as [|c s IH]; intro current; simpl.
  - discriminate.
  - destruct (Ascii.eqb c LF); [discriminate | apply IH].
Qed.

Lemma removelast_cons {A : Type} (x : A) (l : list A) :
  l <> [] -> removelast (x :: l) = x :: removelast l.
Proof. destruct l; [congruence | reflexivity]. Qed.

Lemma last_cons {A : Type} (x : A) (l : list A) (d : A) :
  l <> [] -> last (x :: l) d = last l d.
Proof. destruct l; [congruence | reflexivity]. Qed.

Lemma split_lines_app (a b : string) :
  forall current,
    split_lines current (String.append a b)
    = removelast (split_lines current a)
      ++ split_lines (last (split_lines current a) EmptyString) b.
Proof.
  induction a as [|c a IH]; intro current; simpl; [reflexivity|].
  destruct (Ascii.eqb c LF).
  - rewrite removelast_cons, last_cons by apply split_lines_not_nil.
    simpl. now rewrite IH.
  - apply IH.
Qed.

Lemma split_lines_one_line (x : string) :
  forall current,
    one_line x = true ->
    split_lines current x = [String.append current x].
Proof.
  induction x as [|c x IH]; intros current H; simpl in *.
  - now rewrite JsonFacts.append_nil_r.
  - apply andb_true_iff in H as [Hc Hx].
    apply negb_true_iff in Hc. rewrite Hc.
    rewrite IH by exact Hx. now rewrite JsonFacts.append_assoc.
Qed.

Lemma split_lines_buffer (x v : string) :
  one_line x = true ->
  split_lines EmptyString (String.append x v) = split_lines x v.
Proof.
  intro H. rewrite split_lines_app, split_lines_one_line by exact H.
  reflexivity.
Qed.

Lemma one_line_app (a b : string) :
  one_line (String.append a b) = one_line a && one_line b.
Proof.
  induction a as [|c a IH]; simpl; [reflexivity|].
  now rewrite IH, andb_assoc.
Qed.

Lemma last_one_line (s : string) :
  forall current,
    one_line current = true ->
    one_line (last (split_lines current s) EmptyString) = true.
Proof.
  induction s as [|c s IH]; intros current H; simpl; [exact H|].
  destruct (Ascii.eqb c LF) eqn:E.
  - rewrite last_cons by apply split_lines_not_nil. now apply IH.
  - apply IH. rewrite one_line_app, H. simpl. now rewrite E.
Qed.

Lemma removelast_app_not_nil {A : Type} (l l' : list A) :
  l' <> [] -> removelast (l ++ l') = l ++ removelast l'.
Proof. intro H. now apply removelast_app. Qed.

Lemma last_app_not_nil {A : Type} (l l' : list A) (d : A) :
  l' <> [] -> last (l ++ l') d = last l' d.
Proof.
  intro H. induction l as [|x l IH]; [reflexivity|].
  cbn [app]. rewrite last_cons; [exact IH|].
  destruct l; simpl; [exact H | discriminate].
Qed.

(** The lines a reader takes off a body that arrives as [values],
    keeping what follows the last line feed for the next turn, are the
    complete lines of the whole body. *)
Lemma lines_read_whole (values : list string) :
  forall buffer,
    one_line buffer = true ->
    StreamFacts.lines_read buffer values
    = removelast
        (split_lines EmptyString
           (String.append buffer (String.concat "" values)))
    /\ one_line
         (last (split_lines EmptyString
                  (String.append buffer (String.concat "" values)))
            EmptyString) = true.
Proof.
  induction values as [|v rest IH]; intros buffer H.
  - cbn [StreamFacts.lines_read String.concat].
    rewrite JsonFacts.append_nil_r.
    rewrite (split_lines_one_line buffer EmptyString H). simpl.
    split; [reflexivity | exact H].
  - cbn [StreamFacts.lines_read].
    rewrite JsonFacts.concat_empty_cons, <- JsonFacts.append_assoc.
    set (L := split_lines EmptyString (String.append buffer v)).
    assert (Hlast : one_line (last L EmptyString) = true).
    { subst L. now apply last_one_line. }
    destruct (IH (last L EmptyString) Hlast) as [Hlines Htail].
    rewrite Hlines.
    rewrite (split_lines_app (String.append buffer v)).
    fold L. rewrite <- (split_lines_buffer (last L EmptyString)) by exact Hlast.
    rewrite removelast_app_not_nil by apply split_lines_not_nil.
    split; [reflexivity|].
    rewrite last_app_not_nil by apply split_lines_not_nil. exact Htail.
Qed.

Lemma lines_read_complete (values : list string) :
  StreamFacts.lines_read EmptyString values
  = complete_lines (String.concat "" values).
Proof.
  now destruct (lines_read_whole values EmptyString eq_refl) as [H _].
Qed.

Lemma concat_one (text : string) : String.concat "" [text] = text.
Proof. reflexivity. Qed.

(** What follows the last line feed is no complete line. *)
Lemma complete_lines_tail (text tail : string) :
  one_line tail = true ->
  complete_lines
    (String.append text (String LF tail))
  = complete_lines (String.append text (String LF EmptyString)).
Proof.
  intro H. unfold complete_lines.
  rewrite !split_lines_app. simpl.
  rewrite (split_lines_one_line tail EmptyString H). simpl.
  rewrite !removelast_app_not_nil by discriminate. reflexivity.
Qed.

(** What is left in the buffer when the body has been read. *)
Fixpoint tail_read (buffer : string) (values : list string) : string :=
  match values with
  | [] => buffer
  | value :: rest =>
      tail_read
        (last (split_lines EmptyString (String.append buffer value))
           EmptyString)
        rest
  end.

Lemma tail_read_whole (values : list string) :
  forall buffer,
    one_line buffer = true ->
    tail_read buffer values
    = last (split_lines EmptyString
              (String.append buffer (String.concat "" values)))
        EmptyString.
Proof.
  induction values as [|v rest IH]; intros buffer H.
  - cbn [tail_read String.concat]. rewrite JsonFacts.append_nil_r.
    now rewrite (split_lines_one_line buffer EmptyString H).
  - cbn [tail_read].
    rewrite JsonFacts.concat_empty_cons, <- JsonFacts.append_assoc.
    set (L := split_lines EmptyString (String.append buffer v)).
    assert (Hlast : one_line (last L EmptyString) = true).
    { subst L. now apply last_one_line. }
    rewrite (IH _ Hlast).
    rewrite (split_lines_app (String.append buffer v)). fold L.
    rewrite last_app_not_nil by apply split_lines_not_nil.
    now rewrite split_lines_buffer.
Qed.

Lemma tail_read_remainder (values : list string) :
  tail_read EmptyString values = remainder (String.concat "" values).
Proof. now rewrite tail_read_whole. Qed.

End LineFacts.
(** ** More on the streaming transformer *)

Module StreamMore.
Import Upstream Stream StreamFacts LineFacts.

(** The texts of the [text_delta] events, in order. *)
Definition text_deltas (events : list SSE) : list string :=
  flat_map
    (fun e =>
       match e with
       | ContentBlockDelta _ (TextDelta t) => [t]
       | _ => []
       end)
    events.

(** The texts of the [thinking_delta] events, in order. *)
Definition thinking_deltas (events : list SSE) : list string :=
  flat_map
    (fun e =>
       match e with
       | ContentBlockDelta _ (ThinkingDelta t) => [t]
       | _ => []
       end)
    events.

Definition is_search_result (e : SSE) : bool :=
  match e with
  | ContentBlockStart _ (WebSearchToolResult _ _) => true
  | _ => false
  end.

(** How many [web_search_tool_result] blocks are among the events. *)
Definition search_result_blocks (events : list SSE) : nat :=
  List.length (filter is_search_result events).

Lemma text_deltas_app (a b : list SSE) :
  text_deltas (a ++ b) = text_deltas a ++ text_deltas b.
Proof. apply flat_map_app. Qed.

Lemma thinking_deltas_app (a b : list SSE) :
  thinking_deltas (a ++ b) = thinking_deltas a ++ thinking_deltas b.
Proof. apply flat_map_app. Qed.

Lemma search_result_blocks_app (a b : list SSE) :
  search_result_blocks (a ++ b)
  = search_result_blocks a + search_result_blocks b.
Proof. unfold search_result_blocks. now rewrite filter_app, length_app. Qed.

(** What a step of the machine forwards: the text deltas and thinking
    deltas it adds, the search-result blocks it adds; it only ever adds
    to what was sent, and it leaves the two flags alone. *)
Record Forwards (s s' : State) (texts thoughts : list string)
    (searches : nat) : Prop := mkForwards {
  fw_sent : exists more, sent s' = sent s ++ more;
  fw_texts : text_deltas (sent s') = text_deltas (sent s) ++ texts;
  fw_thoughts :
    thinking_deltas (sent s') = thinking_deltas (sent s) ++ thoughts;
  fw_searches :
    search_result_blocks (sent s')
    = search_result_blocks (sent s) + searches;
  fw_started : messageStartSent s' = messageStartSent s;
  fw_flag : webSearchResultsSent s' = webSearchResultsSent s
}.

Lemma Forwards_refl (s : State) : Forwards s s [] [] 0.
Proof.
  constructor; rewrite ?app_nil_r; auto.
  exists []. now rewrite app_nil_r.
Qed.

Lemma Forwards_trans (a b c : State) (t1 t2 h1 h2 : list string)
    (n1 n2 : nat) :
  Forwards a b t1 h1 n1 -> Forwards b c t2 h2 n2 ->
  Forwards a c (t1 ++ t2) (h1 ++ h2) (n1 + n2).
Proof.
  intros [[m1 S1] T1 H1 N1 F1 W1] [[m2 S2] T2 H2 N2 F2 W2].
  constructor.
  - exists (m1 ++ m2). now rewrite S2, S1, app_assoc.
  - now rewrite T2, T1, app_assoc.
  - now rewrite H2, H1, app_assoc.
  - rewrite N2, N1. lia.
  - congruence.
  - congruence.
Qed.

Ltac take_apart s :=
  destruct s as [ms ths thi txs txi cur sig htc usage ws g clk out].

Ltac close_forwards :=
  constructor; run_machine;
  rewrite ?text_deltas_app, ?thinking_deltas_app,
    ?search_result_blocks_app;
  unfold search_result_blocks;
  cbn [text_deltas thinking_deltas flat_map filter is_search_result length
       app];
  rewrite ?app_nil_r, <- ?app_assoc;
  [ eexists; try reflexivity; now rewrite app_nil_r
  | reflexivity | reflexivity | lia | reflexivity | reflexivity ].

Section Steps.
Variable random_suffix : nat -> string.
Variable date_now : nat -> Z.
Variable modelToUse : string.

Lemma Forwards_response_id (r : ResponseData) (s : State) :
  Forwards s (snd (response_id date_now r s)) [] [] 0.
Proof.
  take_apart s. unfold response_id.
  destruct (present (responseId r)); close_forwards.
Qed.

Lemma Forwards_set_lastUsageMetadata (u : option UsageMetadata)
    (s : State) :
  Forwards s (set_lastUsageMetadata u s) [] [] 0.
Proof. take_apart s. close_forwards. Qed.

Lemma Forwards_thinking_part (s : State) (text : string) :
  Forwards s (thinking_part s text) [] [text] 0.
Proof. take_apart s. destruct ths; close_forwards. Qed.

Lemma Forwards_handle_signature (ps : list Part) (s : State) :
  Forwards s (handle_signature ps s) [] [] 0.
Proof.
  take_apart s. unfold handle_signature.
  destruct (present (find_signature ps)), sig, ths; close_forwards.
Qed.

Lemma Forwards_text_part (s : State) (text : string) :
  Forwards s (text_part s text) [text] [] 0.
Proof. take_apart s. destruct sig, ths, txs; close_forwards. Qed.

Lemma Forwards_tool_call_part (s : State) (fc : FunctionCall) :
  Forwards s (tool_call_part random_suffix s fc) [] [] 0.
Proof.
  take_apart s. unfold tool_call_part.
  destruct (present (fc_id fc)); close_forwards.
Qed.

(** The candidate brings grounding chunks, and at least one. *)
Definition grounded (c : Candidate) : bool :=
  match groundingMetadata c with
  | Some gm =>
      match groundingChunks gm with
      | Some (_ :: _) => true
      | _ => false
      end
  | None => false
  end.

Lemma Forwards_handle_grounding (c : Candidate) (s : State) :
  webSearchResultsSent s = false ->
  Forwards s (handle_grounding random_suffix date_now c s) [] []
    (if grounded c then 1 else 0).
Proof.
  intro Hflag. unfold handle_grounding, grounded.
  destruct (groundingMetadata c) as [gm|]; [|apply Forwards_refl].
  destruct (groundingChunks gm) as [[|chunk chunks]|];
    try apply Forwards_refl.
  - rewrite Hflag. apply Forwards_refl.
  - rewrite Hflag. take_apart s. destruct txs; close_forwards.
Qed.

Lemma Forwards_handle_finish (c : Candidate) (s : State) :
  Forwards s (handle_finish c s) [] [] 0.
Proof.
  take_apart s. unfold handle_finish.
  destruct (present (finishReason c)), ths, txs; close_forwards.
Qed.

Lemma Forwards_finalize (s : State) : Forwards s (finalize s) [] [] 0.
Proof. take_apart s. destruct ths, txs, ms; close_forwards. Qed.

Lemma Forwards_thinking_parts (texts : list string) :
  forall s, Forwards s (fold_left thinking_part texts s) [] texts 0.
Proof.
  induction texts as [|t rest IH]; intro s; simpl; [apply Forwards_refl|].
  eapply (Forwards_trans _ _ _ [] [] [t] rest 0 0);
    [apply Forwards_thinking_part | apply IH].
Qed.

Lemma Forwards_text_parts (texts : list string) :
  forall s, Forwards s (fold_left text_part texts s) texts [] 0.
Proof.
  induction texts as [|t rest IH]; intro s; simpl; [apply Forwards_refl|].
  eapply (Forwards_trans _ _ _ [t] rest [] [] 0 0);
    [apply Forwards_text_part | apply IH].
Qed.

Lemma Forwards_tool_call_parts (calls : list FunctionCall) :
  forall s,
    Forwards s (fold_left (tool_call_part random_suffix) calls s) [] [] 0.
Proof.
  induction calls as [|fc rest IH]; intro s; simpl; [apply Forwards_refl|].
  eapply (Forwards_trans _ _ _ [] [] [] [] 0 0);
    [apply Forwards_tool_call_part | apply IH].
Qed.

(** The parts of the candidate [handle_chunk] looks at. *)
Definition chunk_parts (chunk : Envelope) : list Part :=
  match first_candidate chunk with
  | Some c => match parts c with Some ps => ps | None => [] end
  | None => []
  end.

Definition chunk_grounded (chunk : Envelope) : bool :=
  match first_candidate chunk with
  | Some c => grounded c
  | None => false
  end.

(** [message_start] is in front of whatever has been sent. *)
Definition opens_with_start (s : State) : Prop :=
  if messageStartSent s
  then exists id rest, sent s = MessageStart id modelToUse :: rest
  else sent s = [].

Lemma opens_with_start_kept (s s' : State) (t h : list string) (n : nat) :
  messageStartSent s = true ->
  opens_with_start s -> Forwards s s' t h n -> opens_with_start s'.
Proof.
  unfold opens_with_start. intros Hs H [[more Hmore] _ _ _ Hf _].
  rewrite Hf, Hs. rewrite Hs in H. destruct H as (id & rest & H).
  exists id, (rest ++ more). now rewrite Hmore, H.
Qed.

Lemma send_message_start_forwards (id : MessageId) (s : State) :
  opens_with_start s ->
  let s' := send_message_start modelToUse id s in
  (exists more, sent s' = sent s ++ more)
  /\ text_deltas (sent s') = text_deltas (sent s)
  /\ thinking_deltas (sent s') = thinking_deltas (sent s)
  /\ search_result_blocks (sent s') = search_result_blocks (sent s)
  /\ webSearchResultsSent s' = webSearchResultsSent s
  /\ messageStartSent s' = true
  /\ opens_with_start s'.
Proof.
  unfold opens_with_start. take_apart s. destruct ms; run_machine; intro H.
  - repeat split; auto. exists []. now rewrite app_nil_r.
  - subst out. cbn [app].
    repeat split; eauto.
Qed.

(** The two steps before [message_start] send nothing. *)
Lemma response_id_sends_nothing (r : ResponseData) (s : State) :
  let s' := snd (response_id date_now r s) in
  sent s' = sent s
  /\ messageStartSent s' = messageStartSent s
  /\ webSearchResultsSent s' = webSearchResultsSent s.
Proof.
  take_apart s. unfold response_id.
  destruct (present (responseId r)); run_machine; auto.
Qed.

Lemma handle_chunk_forwards (s : State) (chunk : Envelope) :
  webSearchResultsSent s = false ->
  opens_with_start s ->
  let s' := handle_chunk random_suffix date_now modelToUse s chunk in
  text_deltas (sent s')
  = text_deltas (sent s) ++ plain_texts (chunk_parts chunk)
  /\ thinking_deltas (sent s')
     = thinking_deltas (sent s) ++ thinking_texts (chunk_parts chunk)
  /\ search_result_blocks (sent s')
     = search_result_blocks (sent s)
       + (if chunk_grounded chunk then 1 else 0)
  /\ webSearchResultsSent s' = false
  /\ messageStartSent s'
     = (messageStartSent s || has_candidate chunk)%bool
  /\ opens_with_start s'.
Proof.
  intros Hflag Hopen. cbv zeta.
  unfold handle_chunk, chunk_parts, chunk_grounded, has_candidate,
    first_candidate.
  destruct (candidates
              match response chunk with Some r => r | None => bare chunk end)
    as [|candidate rest].
  { cbn [plain_texts thinking_texts flat_map].
    rewrite !app_nil_r, Nat.add_0_r, orb_false_r. repeat split; auto. }
  set (r := match response chunk with Some r => r | None => bare chunk end).
  set (ps := match parts candidate with Some ps => ps | None => [] end).
  pose proof (response_id_sends_nothing r s) as (Hs1 & Hm1 & Hw1).
  destruct (response_id date_now r s) as [id s1]. cbn [snd] in Hs1, Hm1, Hw1.
  set (s2 := match usageMetadata r with
             | Some u => set_lastUsageMetadata (Some u) s1
             | None => s1
             end).
  assert (H2 : sent s2 = sent s
               /\ messageStartSent s2 = messageStartSent s
               /\ webSearchResultsSent s2 = false).
  { subst s2. destruct (usageMetadata r); [|repeat split; congruence].
    clear - Hs1 Hm1 Hw1 Hflag. take_apart s1. run_machine.
    run_machine_in Hs1. run_machine_in Hm1. run_machine_in Hw1.
    repeat split; congruence. }
  destruct H2 as (Hs2 & Hm2 & Hw2).
  assert (Hopen2 : opens_with_start s2).
  { unfold opens_with_start in *. now rewrite Hm2, Hs2. }
  destruct (send_message_start_forwards id s2 Hopen2)
    as (_ & T3 & H3 & N3 & W3 & M3 & Hopen3).
  set (s3 := send_message_start modelToUse id s2) in *.
  pose proof (Forwards_thinking_parts (thinking_texts ps) s3) as F4.
  set (s4 := fold_left thinking_part (thinking_texts ps) s3) in *.
  pose proof (Forwards_handle_signature ps s4) as F5.
  set (s5 := handle_signature ps s4) in *.
  pose proof (Forwards_text_parts (plain_texts ps) s5) as F6.
  set (s6 := fold_left text_part (plain_texts ps) s5) in *.
  pose proof (Forwards_tool_call_parts (calls ps) s6) as F7.
  set (s7 := fold_left (tool_call_part random_suffix) (calls ps) s6) in *.
  pose proof (Forwards_trans _ _ _ _ _ _ _ _ _
                (Forwards_trans _ _ _ _ _ _ _ _ _
                   (Forwards_trans _ _ _ _ _ _ _ _ _ F4 F5) F6) F7) as F37.
  assert (Hw7 : webSearchResultsSent s7 = false).
  { rewrite (fw_flag _ _ _ _ _ F37). congruence. }
  pose proof (Forwards_handle_grounding candidate s7 Hw7) as F8.
  set (s8 := handle_grounding random_suffix date_now candidate s7) in *.
  pose proof (Forwards_handle_finish candidate s8) as F9.
  pose proof (Forwards_trans _ _ _ _ _ _ _ _ _
                (Forwards_trans _ _ _ _ _ _ _ _ _ F37 F8) F9) as F.
  cbn [app] in F. rewrite !app_nil_r in F. cbn [Nat.add] in F.
  rewrite orb_true_r.
  destruct F as [Fs Ft Fh Fn Fm Fw].
  repeat split.
  - rewrite Ft, T3. now rewrite Hs2.
  - rewrite Fh, H3. now rewrite Hs2.
  - rewrite Fn, N3. rewrite Hs2. f_equal. now rewrite Nat.add_0_r.
  - rewrite Fw. congruence.
  - rewrite Fm. exact M3.
  - eapply opens_with_start_kept; [exact M3 | exact Hopen3 |].
    constructor; eauto.
Qed.

Lemma handle_chunks_forward (chunks : list Envelope) :
  forall s,
    webSearchResultsSent s = false ->
    opens_with_start s ->
    let s' := fold_left (handle_chunk random_suffix date_now modelToUse)
                chunks s in
    text_deltas (sent s')
    = text_deltas (sent s)
      ++ flat_map (fun chunk => plain_texts (chunk_parts chunk)) chunks
    /\ thinking_deltas (sent s')
       = thinking_deltas (sent s)
         ++ flat_map (fun chunk => thinking_texts (chunk_parts chunk)) chunks
    /\ search_result_blocks (sent s')
       = search_result_blocks (sent s)
         + List.length (filter chunk_grounded chunks)
    /\ messageStartSent s'
       = (messageStartSent s || existsb has_candidate chunks)%bool
    /\ opens_with_start s'.
Proof.
  induction chunks as [|chunk rest IH]; intros s Hflag Hopen; cbv zeta.
  - cbn [fold_left flat_map filter length existsb].
    rewrite !app_nil_r, Nat.add_0_r, orb_false_r. repeat split; auto.
  - cbn [fold_left flat_map filter existsb].
    destruct (handle_chunk_forwards s chunk Hflag Hopen)
      as (T & H & N & W & M & O).
    destruct (IH _ W O) as (T' & H' & N' & M' & O').
    rewrite T', H', N', M', T, H, N, M.
    rewrite <- !app_assoc, orb_assoc. repeat split; auto.
    destruct (chunk_grounded chunk); simpl; lia.
Qed.
End Steps.

(** *** Block indices count up from zero *)

(** The indices [0, 1, ..., n - 1]. *)
Definition first_indices (n : nat) : list Z := map Z.of_nat (seq 0 n).

(** The blocks started so far are numbered from 0 without a gap, the
    last of them [currentBlockIndex]. *)
Definition Counted (s : State) : Prop :=
  (-1 <= currentBlockIndex s)%Z
  /\ started (sent s)
     = first_indices (Z.to_nat (currentBlockIndex s + 1)).

Lemma first_indices_next (cur : Z) :
  (-1 <= cur)%Z ->
  first_indices (Z.to_nat (cur + 1 + 1))
  = first_indices (Z.to_nat (cur + 1)) ++ [(cur + 1)%Z].
Proof.
  intro H. unfold first_indices.
  replace (Z.to_nat (cur + 1 + 1)) with (S (Z.to_nat (cur + 1))) by lia.
  rewrite seq_S, map_app. cbn [map Nat.add]. f_equal. f_equal. lia.
Qed.

Ltac close_counted Hcur Hstarted :=
  unfold Counted; run_machine;
  rewrite ?started_app; cbn [started flat_map app];
  rewrite ?app_nil_r, ?Hstarted;
  repeat (rewrite first_indices_next by lia);
  rewrite <- ?app_assoc; cbn [app];
  split; [lia | reflexivity].

Ltac open_counted s H :=
  take_apart s; destruct H as [Hcur Hstarted];
  run_machine_in Hcur; run_machine_in Hstarted.

Section Counting.
Variable random_suffix : nat -> string.
Variable date_now : nat -> Z.
Variable modelToUse : string.

Lemma Counted_initial : Counted initial.
Proof. split; [simpl; lia | reflexivity]. Qed.

Lemma Counted_response_id (r : ResponseData) (s : State) :
  Counted s -> Counted (snd (response_id date_now r s)).
Proof.
  intro H. open_counted s H. unfold response_id.
  destruct (present (responseId r)); close_counted Hcur Hstarted.
Qed.

Lemma Counted_set_lastUsageMetadata (u : option UsageMetadata) (s : State) :
  Counted s -> Counted (set_lastUsageMetadata u s).
Proof. intro H. open_counted s H. close_counted Hcur Hstarted. Qed.

Lemma Counted_send_message_start (id : MessageId) (s : State) :
  Counted s -> Counted (send_message_start modelToUse id s).
Proof.
  intro H. open_counted s H. destruct ms; close_counted Hcur Hstarted.
Qed.

Lemma Counted_thinking_part (s : State) (text : string) :
  Counted s -> Counted (thinking_part s text).
Proof.
  intro H. open_counted s H. destruct ths; close_counted Hcur Hstarted.
Qed.

Lemma Counted_handle_signature (ps : list Part) (s : State) :
  Counted s -> Counted (handle_signature ps s).
Proof.
  intro H. open_counted s H. unfold handle_signature.
  destruct (present (find_signature ps)), sig, ths;
    close_counted Hcur Hstarted.
Qed.

Lemma Counted_text_part (s : State) (text : string) :
  Counted s -> Counted (text_part s text).
Proof.
  intro H. open_counted s H.
  destruct sig, ths, txs; close_counted Hcur Hstarted.
Qed.

Lemma Counted_tool_call_part (s : State) (fc : FunctionCall) :
  Counted s -> Counted (tool_call_part random_suffix s fc).
Proof.
  intro H. open_counted s H. unfold tool_call_part.
  destruct (present (fc_id fc)); close_counted Hcur Hstarted.
Qed.

Lemma Counted_handle_grounding (c : Candidate) (s : State) :
  Counted s -> Counted (handle_grounding random_suffix date_now c s).
Proof.
  intro H. unfold handle_grounding.
  destruct (groundingMetadata c) as [gm|]; [|exact H].
  destruct (groundingChunks gm) as [[|chunk chunks]|]; try exact H.
  - now destruct (webSearchResultsSent s).
  - open_counted s H. destruct ws; [now split|].
    destruct txs; close_counted Hcur Hstarted.
Qed.

Lemma Counted_handle_finish (c : Candidate) (s : State) :
  Counted s -> Counted (handle_finish c s).
Proof.
  intro H. open_counted s H. unfold handle_finish.
  destruct (present (finishReason c)), ths, txs;
    close_counted Hcur Hstarted.
Qed.

Lemma Counted_finalize (s : State) : Counted s -> Counted (finalize s).
Proof.
  intro H. open_counted s H.
  destruct ths, txs, ms; close_counted Hcur Hstarted.
Qed.

Lemma Counted_fold_left {A : Type} (f : State -> A -> State) (l : list A) :
  (forall s x, Counted s -> Counted (f s x)) ->
  forall s, Counted s -> Counted (fold_left f l s).
Proof.
  intro Hf. induction l as [|x l IH]; simpl; auto.
Qed.

Lemma Counted_handle_chunk (s : State) (chunk : Envelope) :
  Counted s ->
  Counted (handle_chunk random_suffix date_now modelToUse s chunk).
Proof.
  intro H. unfold handle_chunk.
  destruct (candidates
              match response chunk with Some r => r | None => bare chunk end)
    as [|candidate rest]; [exact H|].
  set (r := match response chunk with Some r => r | None => bare chunk end).
  pose proof (Counted_response_id r s H) as Hid.
  destruct (response_id date_now r s) as [id s1]. cbn [snd] in Hid.
  apply Counted_handle_finish, Counted_handle_grounding.
  apply Counted_fold_left; [intros; now apply Counted_tool_call_part|].
  apply Counted_fold_left; [intros; now apply Counted_text_part|].
  apply Counted_handle_signature.
  apply Counted_fold_left; [intros; now apply Counted_thinking_part|].
  apply Counted_send_message_start.
  destruct (usageMetadata r);
    [now apply Counted_set_lastUsageMetadata | exact Hid].
Qed.
End Counting.

Section Streams.
Variable JSON_parse : string -> option Envelope.
Variable random_suffix : nat -> string.
Variable date_now : nat -> Z.
Variable modelToUse : string.

(** The closure when the reader reports the end of a body whose pieces
    are [values]: the chunks of the complete lines of the whole body
    have been handled, one after the other. *)
Lemma read_all_whole (values : list string) :
  read_all random_suffix date_now modelToUse JSON_parse initial EmptyString
    values
  = fold_left (handle_chunk random_suffix date_now modelToUse)
      (flat_map (chunk_of JSON_parse)
         (complete_lines (String.concat "" values)))
      initial.
Proof. now rewrite read_all_chunks, lines_read_complete. Qed.

Lemma transformStreamResponse_whole (values : list string) :
  transformStreamResponse JSON_parse random_suffix date_now modelToUse values
  = sent
      (finalize
         (fold_left (handle_chunk random_suffix date_now modelToUse)
            (flat_map (chunk_of JSON_parse)
               (complete_lines (String.concat "" values)))
            initial)).
Proof.
  unfold transformStreamResponse.
  now rewrite read_loop_read_all, read_all_whole.
Qed.

(** X16.  The events written for a body do not depend on how the network
    cuts it into pieces: they are the events written for the body
    arriving in one piece. *)
Theorem stream_does_not_depend_on_chunking (values : list string) :
  transformStreamResponse JSON_parse random_suffix date_now modelToUse values
  = transformStreamResponse JSON_parse random_suffix date_now modelToUse
      [String.concat "" values].
Proof.
  unfold transformStreamResponse.
  rewrite !read_loop_read_all, !read_all_whole.
  cbn [String.concat]. reflexivity.
Qed.

(** X17.  What follows the last line feed of the body is never looked
    at: a last line that the upstream does not close is dropped with the
    chunk it carries, and a body without any line feed yields no event
    at all. *)
Theorem unterminated_last_line_is_dropped (text tail : string) :
  one_line tail = true ->
  transformStreamResponse JSON_parse random_suffix date_now modelToUse
    [String.append text (String LF tail)]
  = transformStreamResponse JSON_parse random_suffix date_now modelToUse
      [String.append text (String LF EmptyString)]
  /\ transformStreamResponse JSON_parse random_suffix date_now modelToUse
       [tail]
     = [].
Proof.
  intro H. rewrite !transformStreamResponse_whole. cbn [String.concat].
  split.
  - now rewrite complete_lines_tail.
  - unfold complete_lines.
    now rewrite (split_lines_one_line tail EmptyString H).
Qed.

Lemma opens_with_start_initial : opens_with_start modelToUse initial.
Proof. reflexivity. Qed.

(** X18.  Every text the upstream sends is forwarded, once and in order:
    the [text_delta] events carry the non-thought texts of the chunks
    that were read, the [thinking_delta] events their thought texts, and
    neither carries anything else. *)
Theorem texts_are_forwarded_in_order (values : list string) :
  let events := transformStreamResponse JSON_parse random_suffix date_now
                  modelToUse values in
  text_deltas events
  = flat_map (fun chunk => plain_texts (chunk_parts chunk))
      (chunks_read JSON_parse values)
  /\ thinking_deltas events
     = flat_map (fun chunk => thinking_texts (chunk_parts chunk))
         (chunks_read JSON_parse values).
Proof.
  cbv zeta. unfold transformStreamResponse, chunks_read.
  rewrite read_loop_read_all, read_all_chunks.
  destruct (handle_chunks_forward random_suffix date_now modelToUse
              (flat_map (chunk_of JSON_parse)
                 (lines_read EmptyString values))
              initial eq_refl opens_with_start_initial)
    as (T & H & _).
  destruct (Forwards_finalize
              (fold_left (handle_chunk random_suffix date_now modelToUse)
                 (flat_map (chunk_of JSON_parse)
                    (lines_read EmptyString values))
                 initial)) as [_ T' H' _ _ _].
  rewrite T', H', T, H, !app_nil_r. now split.
Qed.

(** X19.  Search results are sent once per chunk, not once per reply:
    the flag that is meant to record them is never set, so every chunk
    whose candidate brings grounding chunks gets a
    [web_search_tool_result] block of its own. *)
Theorem search_results_are_sent_per_chunk (values : list string) :
  search_result_blocks
    (transformStreamResponse JSON_parse random_suffix date_now modelToUse
       values)
  = List.length (filter chunk_grounded (chunks_read JSON_parse values)).
Proof.
  unfold transformStreamResponse, chunks_read.
  rewrite read_loop_read_all, read_all_chunks.
  destruct (handle_chunks_forward random_suffix date_now modelToUse
              (flat_map (chunk_of JSON_parse)
                 (lines_read EmptyString values))
              initial eq_refl opens_with_start_initial)
    as (_ & _ & N & _).
  destruct (Forwards_finalize
              (fold_left (handle_chunk random_suffix date_now modelToUse)
                 (flat_map (chunk_of JSON_parse)
                    (lines_read EmptyString values))
                 initial)) as [_ _ _ N' _ _].
  rewrite N', N. simpl. lia.
Qed.

(** Nothing is open while nothing has been sent. *)
Lemma nothing_open (s : State) :
  Sound s -> sent s = [] ->
  thinkingBlockStarted s = false /\ textBlockStarted s = false.
Proof.
  intros H Hsent. pose proof (balanced s H) as Hbal.
  rewrite Hsent in Hbal. unfold open_blocks, occurrences in Hbal.
  cbn [started stopped flat_map count_occ] in Hbal.
  destruct (thinkingBlockStarted s), (textBlockStarted s); auto;
    [ specialize (Hbal (thinkingBlockIndex s))
    | specialize (Hbal (thinkingBlockIndex s))
    | specialize (Hbal (textBlockIndex s)) ];
    cbn [app count_occ] in Hbal;
    repeat match type of Hbal with
           | context [Z.eq_dec ?a ?b] => destruct (Z.eq_dec a b)
           end; try lia; congruence.
Qed.

(** X20.  [message_start] comes first.  Whenever the stream carries any
    event at all the first one is [message_start], with the model asked
    for; and it carries none exactly when no chunk that was read has a
    candidate -- an empty reply gets no [message_start] and no
    [message_stop]. *)
Theorem message_start_comes_first (values : list string) :
  let events := transformStreamResponse JSON_parse random_suffix date_now
                  modelToUse values in
  (events = []
   <-> existsb has_candidate (chunks_read JSON_parse values) = false)
  /\ (forall e rest,
        events = e :: rest -> exists id, e = MessageStart id modelToUse).
Proof.
  cbv zeta. unfold transformStreamResponse, chunks_read.
  rewrite read_loop_read_all.
  pose proof (Sound_read_all random_suffix date_now modelToUse JSON_parse
                values initial EmptyString Sound_initial) as Hsound.
  rewrite read_all_chunks in *.
  destruct (handle_chunks_forward random_suffix date_now modelToUse
              (flat_map (chunk_of JSON_parse)
                 (lines_read EmptyString values))
              initial eq_refl opens_with_start_initial)
    as (_ & _ & _ & M & O).
  cbn [initial messageStartSent orb] in M.
  set (s := fold_left (handle_chunk random_suffix date_now modelToUse)
              (flat_map (chunk_of JSON_parse)
                 (lines_read EmptyString values))
              initial) in *.
  rewrite <- M. unfold opens_with_start in O.
  destruct (messageStartSent s) eqn:Hms.
  - destruct O as (id & rest0 & Hsent).
    destruct (Forwards_finalize s) as [[more Hmore] _ _ _ _ _].
    rewrite Hmore, Hsent. cbn [app]. split.
    + split; discriminate.
    + intros e rest [= <- _]. now exists id.
  - destruct (nothing_open s Hsound O) as [Hth Htx].
    assert (Hfin : sent (finalize s) = []).
    { clear - Hms Hth Htx O. take_apart s. run_machine_in Hms.
      run_machine_in Hth. run_machine_in Htx. run_machine_in O.
      subst. run_machine. reflexivity. }
    rewrite Hfin. split; [tauto | discriminate].
Qed.
(** X30.  The content blocks of a stream are numbered 0, 1, 2, ... in
    the order they are opened, without a gap and without a repeat --
    thinking, text, tool-use and search blocks alike -- however many
    chunks the reply takes. *)
Theorem block_indices_count_up_from_zero (values : list string) :
  let events := transformStreamResponse JSON_parse random_suffix date_now
                  modelToUse values in
  started events = first_indices (List.length (started events)).
Proof.
  cbv zeta. unfold transformStreamResponse.
  rewrite read_loop_read_all, read_all_chunks.
  assert (H : Counted
                (finalize
                   (fold_left
                      (handle_chunk random_suffix date_now modelToUse)
                      (flat_map (chunk_of JSON_parse)
                         (lines_read EmptyString values))
                      initial))).
  { apply Counted_finalize, Counted_fold_left; [|apply Counted_initial].
    intros. now apply Counted_handle_chunk. }
  destruct H as [_ H]. rewrite H at 1. f_equal.
  rewrite H. unfold first_indices. now rewrite length_map, length_seq.
Qed.
End Streams.

(** A reply in two chunks, both grounded. *)
Definition grounded_chunk : Envelope :=
  mkEnvelope
    (Some
       (mkResponseData (Some "resp_1")
          [ mkCandidate (Some [mkPart (Text "Sofia: 21 C") false None]) None
              (Some
                 (mkGroundingMetadata
                    (Some [Some (mkWeb (Some "https://weather.example")
                                   (Some "Weather") None)])
                    (Some ["weather in Sofia"]))) ]
          None))
    (mkResponseData None [] None).

Lemma unterminated_last_line_is_dropped_witness :
  transformStreamResponse (fun _ => Some grounded_chunk) (fun _ => "r4nd0m")
    (fun _ => 1700000000000%Z) "claude-opus-4-5-20251101"
    ["data: {}"]
  = [].
Proof.
  apply (proj2
           (unterminated_last_line_is_dropped (fun _ => Some grounded_chunk)
              (fun _ => "r4nd0m") (fun _ => 1700000000000%Z)
              "claude-opus-4-5-20251101" "" "data: {}" eq_refl)).
Defined.

End StreamMore.

(** ** The web-search transformer *)

Module WebSearchFacts.
Import RequestTransformer Upstream WebSearch.

(** *** The query *)

(** What a message has to say as a search query: the content of a user
    message when it is a string, the text of its first text item when it
    is an array. *)
Definition asks (m : Message) : option string :=
  if String.eqb (role m) "user" then
    match content m with
    | MCString s => Some s
    | MCArray items =>
        match find is_text_item items with
        | Some (CText text) => Some text
        | _ => None
        end
    | MCAbsent => None
    end
  else None.

Lemma search_backwards_step (m : Message) (earlier : list Message) :
  search_backwards (m :: earlier)
  = match asks m with
    | Some q => q
    | None => search_backwards earlier
    end.
Proof.
  unfold asks. cbn [search_backwards].
  destruct (String.eqb (role m) "user"); [|reflexivity].
  destruct (content m) as [s|items|]; try reflexivity.
  destruct (find is_text_item items) as [[text| |]|]; reflexivity.
Qed.

Lemma search_backwards_silent (later earlier : list Message) :
  Forall (fun m => asks m = None) later ->
  search_backwards (rev later ++ earlier) = search_backwards earlier.
Proof.
  induction later as [|m later IH] using rev_ind; intro H; [reflexivity|].
  apply Forall_app in H as [Hlater Hm]. inversion Hm as [|? ? Hasks _]; subst.
  rewrite rev_app_distr. cbn [rev app].
  rewrite search_backwards_step, Hasks. now apply IH.
Qed.

(** X21.  The search query is what the last user message that has
    something to say says: its content when that is a string (an empty
    one included), the text of its first text item when it is an array.
    Messages that follow it and say nothing -- assistant and tool
    messages, user messages made of images only -- are passed over, and
    when no message has anything to say the query is the fixed string
    ["web search query"]. *)
Theorem last_user_text_is_the_query (messages : list Message) :
  (Forall (fun m => asks m = None) messages ->
   extractSearchQuery messages = "web search query")
  /\ (forall earlier m later q,
        messages = earlier ++ m :: later ->
        asks m = Some q ->
        Forall (fun m' => asks m' = None) later ->
        extractSearchQuery messages = q).
Proof.
  unfold extractSearchQuery. split.
  - intro H. rewrite <- (app_nil_r (rev messages)).
    now rewrite search_backwards_silent.
  - intros earlier m later q -> Hm Hlater.
    rewrite rev_app_distr. cbn [rev]. rewrite <- app_assoc. cbn [app].
    rewrite search_backwards_silent by exact Hlater.
    now rewrite search_backwards_step, Hm.
Qed.

Definition weather_conversation : list Message :=
  [ mkMessage "user" (MCString "What is the weather in Sofia?") None None
      None;
    mkMessage "assistant" (MCString "Let me look that up.") None None None;
    mkMessage "user" (MCArray [CImageUrl "data:image/png;base64,AAAA" None])
      None None None ].

Lemma last_user_text_is_the_query_witness :
  extractSearchQuery weather_conversation = "What is the weather in Sofia?".
Proof.
  apply (proj2 (last_user_text_is_the_query weather_conversation) []
           (mkMessage "user" (MCString "What is the weather in Sofia?")
              None None None)
           [ mkMessage "assistant" (MCString "Let me look that up.") None
               None None;
             mkMessage "user"
               (MCArray [CImageUrl "data:image/png;base64,AAAA" None])
               None None None ]
           "What is the weather in Sofia?");
    try reflexivity.
  repeat constructor.
Defined.

(** *** The query, cut into pieces *)

Lemma query_chunks_spell (fuel : nat) :
  forall i queryJson,
    List.length queryJson - i <= fuel ->
    concat (query_chunks fuel i queryJson) = skipn i queryJson
    /\ Forall (fun piece => 1 <= List.length piece <= 6)
         (query_chunks fuel i queryJson).
Proof.
  induction fuel as [|fuel IH]; intros i queryJson Hfuel.
  - cbn [query_chunks concat]. split; [|constructor].
    symmetry. apply length_zero_iff_nil. rewrite length_skipn. lia.
  - cbn [query_chunks].
    destruct (Nat.ltb i (List.length queryJson)) eqn:Hi.
    + apply Nat.ltb_lt in Hi.
      destruct (IH (i + 6) queryJson) as [Hrest Hlen]; [lia|].
      split.
      * cbn [concat]. rewrite Hrest. unfold slice.
        replace (i + 6 - i) with 6 by lia.
        rewrite (Nat.add_comm i 6), <- skipn_skipn.
        apply firstn_skipn.
      * constructor; [|exact Hlen].
        unfold slice. rewrite length_firstn, length_skipn. lia.
    + apply Nat.ltb_ge in Hi. split; [|constructor].
      symmetry. apply length_zero_iff_nil. rewrite length_skipn. lia.
Qed.

(** The [partial_json] of the [input_json_delta] events, in order. *)
Definition partial_jsons (events : list Event) : list CodeUnits :=
  flat_map
    (fun e =>
       match e with
       | ContentBlockDelta _ (InputJsonDelta piece) => [piece]
       | _ => []
       end)
    events.

Definition is_citation (e : Event) : bool :=
  match e with
  | ContentBlockDelta _ (CitationsDelta _) => true
  | _ => false
  end.

(** The seventeen code units of [{"query":"météo"}] go out in three
    pieces, of six, six and five. *)
Example query_chunks_cut_code_units :
  query_chunks 17 0
    [ 123; 34; 113; 117; 101; 114; 121; 34; 58; 34; 109; 233; 116; 233;
      111; 34; 125 ]%N
  = [ [123; 34; 113; 117; 101; 114];
      [121; 34; 58; 34; 109; 233];
      [116; 233; 111; 34; 125] ]%N.
Proof. reflexivity. Qed.

Lemma partial_jsons_app (a b : list Event) :
  partial_jsons (a ++ b) = partial_jsons a ++ partial_jsons b.
Proof. apply flat_map_app. Qed.

Lemma partial_jsons_deltas (pieces : list CodeUnits) :
  partial_jsons
    (map (fun chunk => ContentBlockDelta 0 (InputJsonDelta chunk)) pieces)
  = pieces.
Proof. induction pieces as [|p ps IH]; simpl; congruence. Qed.

Section Responses.
Variable code_units : string -> CodeUnits.
Variable stringify_query : string -> string.
Variable date_now : nat -> Z.

Lemma cite_chunks_citations (blockIndex : nat) (chunks : list (option Web))
    (support : Support) (indices : list Z) :
  forall t, Forall (fun e => is_citation e = true)
              (fst (cite_chunks date_now blockIndex chunks support indices t)).
Proof.
  induction indices as [|i rest IH]; intro t; cbn [cite_chunks];
    [constructor|].
  destruct (chunk_at chunks i) as [[web|]|]; try apply IH.
  specialize (IH (S t)).
  destruct (cite_chunks date_now blockIndex chunks support rest (S t)).
  cbn [fst] in *. now constructor.
Qed.

Lemma cite_supports_citations (blockIndex : nat)
    (chunks : list (option Web)) (supports : list Support) :
  forall t, Forall (fun e => is_citation e = true)
              (fst (cite_supports date_now blockIndex chunks supports t)).
Proof.
  induction supports as [|support rest IH]; intro t; cbn [cite_supports];
    [constructor|].
  pose proof (fun indices =>
                cite_chunks_citations blockIndex chunks support indices t)
    as Hhere.
  destruct (groundingChunkIndices support) as [indices|].
  - specialize (Hhere indices).
    destruct (cite_chunks date_now blockIndex chunks support indices t)
      as [events t'].
    specialize (IH t').
    destruct (cite_supports date_now blockIndex chunks rest t').
    cbn [fst] in *. apply Forall_app. now split.
  - specialize (IH t).
    destruct (cite_supports date_now blockIndex chunks rest t).
    cbn [fst app] in *. exact IH.
Qed.

Lemma partial_jsons_citations (events : list Event) :
  Forall (fun e => is_citation e = true) events -> partial_jsons events = [].
Proof.
  induction 1 as [|e rest He _ IH]; [reflexivity|].
  cbn [partial_jsons flat_map]. fold (partial_jsons rest). rewrite IH.
  destruct e as [| | i [| |c] | | |]; try discriminate. reflexivity.
Qed.

(** X22.  The query reaches the client whole: the [input_json_delta]
    events of the [server_tool_use] block carry pieces of one to six
    UTF-16 code units which, put together in order, spell the serialised
    query and nothing else. *)
Theorem query_is_spelled_by_its_deltas (result : Reply) (context : Context) :
  let pieces :=
    partial_jsons
      (transformWebSearchResponse code_units stringify_query date_now result
         context) in
  concat pieces
  = code_units
      (stringify_query
         (search_query (grounding_of (pick_candidate (envelope result)))
            context))
  /\ Forall (fun piece => 1 <= List.length piece <= 6) pieces.
Proof.
  cbv zeta. unfold transformWebSearchResponse.
  set (queryJson :=
         code_units
           (stringify_query
              (search_query (grounding_of (pick_candidate (envelope result)))
                 context))).
  rewrite !partial_jsons_app, partial_jsons_deltas.
  cbn [partial_jsons flat_map app].
  match goal with
  | |- context [partial_jsons ?a ++ partial_jsons ?b ++ []] =>
      assert (Ha : partial_jsons a = []);
      [ now destruct (chunks_of _)
      | assert (Hb : partial_jsons b = []) ]
  end.
  { destruct (String.eqb _ ""); [reflexivity|].
    unfold partial_jsons. cbn [flat_map app]. rewrite flat_map_app.
    cbn [flat_map app]. rewrite app_nil_r. apply partial_jsons_citations.
    destruct (groundingSupports result), (chunks_of _);
      try constructor. apply cite_supports_citations. }
  rewrite Ha, Hb, !app_nil_r.
  destruct (query_chunks_spell (List.length queryJson) 0 queryJson)
    as [Hspell Hlen]; [lia|].
  split; [exact Hspell | exact Hlen].
Qed.
End Responses.

(** *** Citations and the results they point to *)

Section Citations.
Variable code_units : string -> CodeUnits.
Variable stringify_query : string -> string.
Variable date_now : nat -> Z.





End Citations.






(** *** The shape of the stream *)

Definition started (events : list Event) : list nat :=
  flat_map
    (fun e => match e with ContentBlockStart i _ => [i] | _ => [] end)
    events.

Definition stopped (events : list Event) : list nat :=
  flat_map
    (fun e => match e with ContentBlockStop i => [i] | _ => [] end)
    events.

Definition is_message_start (e : Event) : bool :=
  match e with MessageStart _ _ => true | _ => false end.

Definition is_message_stop (e : Event) : bool :=
  match e with MessageStop => true | _ => false end.

Lemma started_events_app (a b : list Event) :
  started (a ++ b) = started a ++ started b.
Proof. apply flat_map_app. Qed.

Lemma stopped_events_app (a b : list Event) :
  stopped (a ++ b) = stopped a ++ stopped b.
Proof. apply flat_map_app. Qed.

(** Deltas open and close nothing, and are neither the first nor the
    last event of a message. *)
Definition is_delta (e : Event) : bool :=
  match e with
  | ContentBlockDelta _ _ => true
  | _ => false
  end.

Lemma deltas_are_inert (events : list Event) :
  Forall (fun e => is_delta e = true) events ->
  started events = [] /\ stopped events = []
  /\ filter is_message_start events = []
  /\ filter is_message_stop events = [].
Proof.
  induction 1 as [|e rest He _ (IH1 & IH2 & IH3 & IH4)]; [now repeat split|].
  destruct e; try discriminate. simpl.
  fold (started rest). fold (stopped rest). now rewrite IH1, IH2, IH3, IH4.
Qed.

Lemma citation_is_delta (e : Event) : is_citation e = true -> is_delta e = true.
Proof. destruct e; auto. Qed.

Section Shape.
Variable code_units : string -> CodeUnits.
Variable stringify_query : string -> string.
Variable date_now : nat -> Z.

(** X24.  The web-search transformer's stream is well formed.  Its
    blocks are numbered from 0 without a gap -- the search, the results
    when the reply has grounding chunks, the text when there is any --
    and each is closed before the next is opened; [message_start] is the
    first event, [message_stop] the last, and each goes out once. *)
Theorem web_search_stream_is_well_formed (result : Reply)
    (context : Context) :
  let events :=
    transformWebSearchResponse code_units stringify_query date_now result
      context in
  started events = seq 0 (List.length (started events))
  /\ stopped events = started events
  /\ 1 <= List.length (started events) <= 3
  /\ (exists id model rest, events = MessageStart id model :: rest)
  /\ (exists before, events = before ++ [MessageStop])
  /\ List.length (filter is_message_start events) = 1
  /\ List.length (filter is_message_stop events) = 1.
Proof.
  cbv zeta. unfold transformWebSearchResponse.
  set (gm := grounding_of (pick_candidate (envelope result))).
  set (queryJson := code_units (stringify_query (search_query gm context))).
  set (deltas :=
         map (fun chunk => ContentBlockDelta 0 (InputJsonDelta chunk))
           (query_chunks (List.length queryJson) 0 queryJson)).
  assert (Hdeltas : Forall (fun e => is_delta e = true) deltas).
  { subst deltas. apply Forall_forall. intros e He.
    apply in_map_iff in He as (piece & <- & _). reflexivity. }
  destruct (deltas_are_inert deltas Hdeltas) as (D1 & D2 & D3 & D4).
  set (cited :=
         match groundingSupports result, chunks_of gm with
         | Some supports, Some cs =>
             fst (cite_supports date_now
                    match chunks_of gm with Some _ => 2 | None => 1 end
                    cs supports
                    (2 + List.length
                           match chunks_of gm with
                           | Some cs0 => search_results date_now cs0 0 2
                           | None => []
                           end))
         | _, _ => []
         end).
  assert (Hcited : Forall (fun e => is_delta e = true) cited).
  { subst cited. destruct (groundingSupports result), (chunks_of gm);
      try constructor.
    eapply Forall_impl; [apply citation_is_delta|].
    apply cite_supports_citations. }
  destruct (deltas_are_inert cited Hcited) as (C1 & C2 & C3 & C4).
  split; [|split; [|split; [|split; [|split; [|split]]]]].
  1-3, 6-7:
    rewrite ?started_events_app, ?stopped_events_app, ?filter_app, ?length_app;
    cbn [started stopped flat_map filter is_message_start is_message_stop
         app length];
    rewrite ?D1, ?D2, ?D3, ?D4;
    destruct (chunks_of gm);
    destruct (String.eqb (all_text (pick_candidate (envelope result))) "");
    rewrite ?started_events_app, ?stopped_events_app, ?filter_app, ?length_app;
    cbn [started stopped flat_map filter is_message_start is_message_stop
         app length];
    fold cited;
    rewrite ?started_events_app, ?stopped_events_app, ?filter_app, ?length_app;
    rewrite ?C1, ?C2, ?C3, ?C4;
    cbn [started stopped flat_map filter is_message_start is_message_stop
         app length seq];
    try reflexivity; try lia.
  - cbn [app]. eauto.
  - match goal with
    | |- exists before, ?a ++ ?b ++ ?c ++ ?d ++ ?e ++ [?md; MessageStop] = _ =>
        exists (a ++ b ++ c ++ d ++ e ++ [md])
    end.
    rewrite <- !app_assoc. reflexivity.
Qed.
End Shape.

End WebSearchFacts.

(** ** The Gemini interceptors *)

Module InterceptorFacts.
Import Upstream TokenManager GeminiInterceptor LineFacts.

(** *** The relayed stream *)

Section Relayed.
Variable trim : string -> string.
Variable JSON_parse : string -> option Envelope.

(** What [relay_loop] does once the reader reports the end. *)
Definition flush (s : Relay) (buffer : string) : Relay :=
  if String.eqb (trim buffer) "" then s
  else mkRelay (isThinking s) (enqueued s ++ [Line buffer]).

Lemma relay_loop_lines (values : list string) :
  forall s buffer,
    relay_loop trim JSON_parse s buffer values
    = flush
        (fold_left (relay_line trim JSON_parse)
           (StreamFacts.lines_read buffer values) s)
        (tail_read buffer values).
Proof.
  induction values as [|v rest IH]; intros s buffer; [reflexivity|].
  cbn [relay_loop StreamFacts.lines_read tail_read].
  now rewrite IH, fold_left_app.
Qed.

Lemma relay_whole (values : list string) :
  relay trim JSON_parse values
  = enqueued
      (flush
         (fold_left (relay_line trim JSON_parse)
            (complete_lines (String.concat "" values)) (mkRelay false []))
         (remainder (String.concat "" values))).
Proof.
  unfold relay.
  now rewrite relay_loop_lines, lines_read_complete, tail_read_remainder.
Qed.

(** The payload of a parsed line, unwrapped. *)
Definition unwrap (json : Envelope) : ResponseData :=
  match response json with
  | Some r => r
  | None => bare json
  end.

(** The line as it is handed on while [isThinking] is off: a line that
    is no [data:] line, the [[DONE]] marker and a payload that does not
    parse as they came, a payload that parses as it was parsed. *)
Definition handed_on_plainly (line : string) : Out :=
  if String.prefix "data: " line then
    if String.eqb (trim (Stream.slice6 line)) "[DONE]" then Line line
    else
      match JSON_parse (trim (Stream.slice6 line)) with
      | Some json => Data (unwrap json)
      | None => Line line
      end
  else Line line.

(** [o] is what the interceptor hands on for [line]: what it hands on
    plainly, or, for a payload that parses, the payload with a blank
    line in front of its first text. *)
Definition hands_on (line : string) (o : Out) : Prop :=
  o = handed_on_plainly line
  \/ (String.prefix "data: " line = true
      /\ String.eqb (trim (Stream.slice6 line)) "[DONE]" = false
      /\ exists json,
           JSON_parse (trim (Stream.slice6 line)) = Some json
           /\ o = Data (space_first_part (unwrap json))).

Lemma format_thinking_payload (isThinking : bool) (payload : ResponseData) :
  fst (format_thinking isThinking payload) = payload
  \/ fst (format_thinking isThinking payload) = space_first_part payload.
Proof.
  unfold format_thinking. destruct (first_part payload) as [p|]; auto.
  destruct (thought p); auto.
  destruct (text_of p); auto. destruct isThinking; auto.
Qed.

Lemma relay_line_hands_on (s : Relay) (line : string) :
  exists o,
    enqueued (relay_line trim JSON_parse s line) = enqueued s ++ [o]
    /\ hands_on line o.
Proof.
  unfold relay_line, hands_on, handed_on_plainly.
  destruct (String.prefix "data: " line) eqn:Hdata;
    [|eexists; split; [reflexivity | now left]].
  destruct (String.eqb (trim (Stream.slice6 line)) "[DONE]") eqn:Hdone;
    [eexists; split; [reflexivity | now left]|].
  destruct (JSON_parse (trim (Stream.slice6 line))) as [json|] eqn:Hp;
    [|eexists; split; [reflexivity | now left]].
  fold (unwrap json).
  pose proof (format_thinking_payload (isThinking s) (unwrap json)) as H.
  destruct (format_thinking (isThinking s) (unwrap json)) as [payload t].
  cbn [fst] in H. eexists. split; [reflexivity|].
  destruct H as [-> | ->]; [now left | right].
  split; [reflexivity|]. split; [reflexivity|]. now exists json.
Qed.

Lemma relay_lines_hand_on (lines : list string) :
  forall s,
    exists outs,
      enqueued (fold_left (relay_line trim JSON_parse) lines s)
      = enqueued s ++ outs
      /\ Forall2 hands_on lines outs.
Proof.
  induction lines as [|line rest IH]; intro s; cbn [fold_left].
  - exists []. split; [now rewrite app_nil_r | constructor].
  - destruct (relay_line_hands_on s line) as (o & Ho & Hline).
    destruct (IH (relay_line trim JSON_parse s line)) as (outs & Houts & Hrest).
    exists (o :: outs). split; [|now constructor].
    now rewrite Houts, Ho, <- app_assoc.
Qed.

(** X25.  The interceptors hand on every line of the upstream body,
    one for one and in order, however the network cuts the body: a line
    that is no [data:] line, the [[DONE]] marker and a payload that does
    not parse go out as they came, a payload that parses goes out
    serialised again, as it was parsed or with a blank line in front of
    its first text.  What follows the last line feed goes out too,
    unless [trim] leaves nothing of it. *)
Theorem every_line_is_handed_on (values : list string) :
  let body := String.concat "" values in
  exists outs,
    relay trim JSON_parse values
    = outs
      ++ (if String.eqb (trim (remainder body)) "" then []
          else [Line (remainder body)])
    /\ Forall2 hands_on (complete_lines body) outs.
Proof.
  cbv zeta. rewrite relay_whole.
  destruct (relay_lines_hand_on (complete_lines (String.concat "" values))
              (mkRelay false [])) as (outs & Houts & Hall).
  exists outs. split; [|exact Hall].
  unfold flush.
  destruct (String.eqb (trim (remainder (String.concat "" values)))
              "").
  - now rewrite Houts, app_nil_r.
  - cbn [enqueued]. now rewrite Houts.
Qed.

(** *** A reply without thoughts *)



End Relayed.

Definition hello_chunk : Envelope :=
  mkEnvelope
    (Some
       (mkResponseData (Some "resp_1")
          [ mkCandidate (Some [mkPart (Text "Hello!") false None]) None
              None ]
          None))
    (mkResponseData None [] None).



End InterceptorFacts.

(** ** What the interceptors do to a request *)

Module InterceptorRequests.
Import TokenManager GeminiInterceptor.

Lemma obj_get_set (key : string) (v : JSON) (fields : list (string * JSON)) :
  obj_get key (obj_set key v fields) = Some v.
Proof.
  induction fields as [|[k w] rest IH]; simpl.
  - now rewrite String.eqb_refl.
  - destruct (String.eqb k key) eqn:E; simpl; now rewrite E.
Qed.

Lemma obj_get_set_other (key key' : string) (v : JSON)
    (fields : list (string * JSON)) :
  String.eqb key key' = false ->
  obj_get key' (obj_set key v fields) = obj_get key' fields.
Proof.
  intro Hne. induction fields as [|[k w] rest IH]; simpl.
  - now rewrite Hne.
  - destruct (String.eqb k key) eqn:E; simpl.
    + apply String.eqb_eq in E. subst k. now rewrite Hne.
    + now rewrite IH.
Qed.

Lemma obj_get_delete_other (key key' : string)
    (fields : list (string * JSON)) :
  String.eqb key key' = false ->
  obj_get key' (obj_delete key fields) = obj_get key' fields.
Proof.
  intro Hne. unfold obj_delete.
  induction fields as [|[k w] rest IH]; simpl; [reflexivity|].
  destruct (String.eqb k key) eqn:E; simpl.
  - apply String.eqb_eq in E. subst k. now rewrite Hne.
  - now rewrite IH.
Qed.

Section Imposed.
Variable parseInt : JSON -> JSON.
Variable URL : string -> option string.

Lemma truthy_value_truthy (o : option JSON) (v : JSON) :
  truthy_value o = Some v -> truthy v = true.
Proof.
  unfold truthy_value. destruct o as [j|]; simpl; [|discriminate].
  destruct (truthy j) eqn:E; [|discriminate]. now intros [= <-].
Qed.

Lemma thinking_config_on (options : Options) (thinkingBudget : option JSON) :
  exists budget,
    thinking_config parseInt options thinkingBudget
    = JObj [("includeThoughts", JBool true); ("thinkingBudget", budget)]
    /\ (budget = JNum 1024
        \/ exists v, truthy v = true /\ budget = parseInt v).
Proof.
  unfold thinking_config.
  destruct (truthy_value thinkingBudget) as [b|] eqn:Hb.
  { eexists. split; [reflexivity|]. right. exists b.
    split; [now apply truthy_value_truthy in Hb | reflexivity]. }
  destruct (truthy_value (thinking_budget options)) as [b|] eqn:Ho.
  { eexists. split; [reflexivity|]. right. exists b.
    split; [now apply truthy_value_truthy in Ho | reflexivity]. }
  destruct (truthy_value (o_thinkingBudget options)) as [b|] eqn:Ho'.
  { eexists. split; [reflexivity|]. right. exists b.
    split; [now apply truthy_value_truthy in Ho' | reflexivity]. }
  eexists. split; [reflexivity | now left].
Qed.

(** The [generationConfig] the request came with. *)
Definition given_config (request : Request) : list (string * JSON) :=
  match generationConfig request with
  | Some g => g
  | None => []
  end.

(** X27.  The library-based interceptor switches thinking on in every
    request it lets through.  The outgoing [generationConfig] always
    holds a [thinkingConfig] with [includeThoughts: true] and a budget
    that is [parseInt] of a truthy value or 1024 -- a request that asks
    for a budget of 0 does not get it -- while every other key of the
    [generationConfig], the flat [thinking_budget] apart, is left as it
    came. *)
Theorem thinking_is_always_switched_on (options : Options)
    (token : option string) (session req : string) (request : Request)
    (provider : Provider) (wrapped : Wrapped) (config : Config) :
  transformRequestIn parseInt URL options token session req request provider
  = Some (wrapped, config) ->
  exists g budget,
    generationConfig (GeminiInterceptor.request wrapped) = Some g
    /\ obj_get "thinkingConfig" g
       = Some (JObj [ ("includeThoughts", JBool true);
                      ("thinkingBudget", budget) ])
    /\ (budget = JNum 1024
        \/ exists v, truthy v = true /\ budget = parseInt v)
    /\ (forall key,
          String.eqb "thinkingConfig" key = false ->
          String.eqb "thinking_budget" key = false ->
          obj_get key g = obj_get key (given_config request)).
Proof.
  unfold transformRequestIn, given_config.
  destruct (custom_endpoint URL provider) as [url|]; [|discriminate].
  set (given := match generationConfig request with
                | Some g => g
                | None => []
                end).
  destruct (detect_budget given (thinking request))
    as [[thinkingBudget g1] thinking1] eqn:Hdetect.
  destruct (match tools request with
            | Some (_ :: _) => option_map Some (validated (toolConfig request))
            | _ => Some (toolConfig request)
            end) as [tc|]; [|discriminate].
  intros [= <- _]. cbn [GeminiInterceptor.request generationConfig].
  destruct (thinking_config_on options thinkingBudget)
    as (budget & Hconfig & Hbudget).
  eexists _, budget. split; [reflexivity|].
  split; [now rewrite obj_get_set, Hconfig|].
  split; [exact Hbudget|].
  intros key Hk1 Hk2. rewrite obj_get_set_other by exact Hk1.
  unfold detect_budget in Hdetect.
  destruct (truthy_opt (obj_get "thinkingConfig" given));
    [now injection Hdetect as _ <- _|].
  destruct (truthy_opt (obj_get "thinking_budget" given)).
  { injection Hdetect as _ <- _. now apply obj_get_delete_other. }
  destruct (thinking request) as [fields|];
    [destruct (truthy_opt (obj_get "budget_tokens" fields))|];
    now injection Hdetect as _ <- _.
Qed.

(** The mode a tool configuration asks for. *)
Definition mode_of (toolConfig : list (string * JSON)) : option JSON :=
  match obj_get "functionCallingConfig" toolConfig with
  | Some (JObj fcc) => obj_get "mode" fcc
  | _ => None
  end.

(** X28.  The library-based interceptor overrides the caller's tool
    mode.  A request with tools whose [functionCallingConfig] is an
    object (or absent, or falsy) leaves with the mode [VALIDATED],
    whatever mode it came with; the other keys of [toolConfig] stay.  A
    request without tools keeps its [toolConfig] as it was. *)
Theorem tool_mode_is_forced (options : Options) (token : option string)
    (session req : string) (request : Request) (provider : Provider)
    (wrapped : Wrapped) (config : Config) :
  transformRequestIn parseInt URL options token session req request provider
  = Some (wrapped, config) ->
  match tools request with
  | Some (_ :: _) =>
      exists tc,
        toolConfig (GeminiInterceptor.request wrapped) = Some tc
        /\ (mode_of tc = Some (JStr "VALIDATED")
            \/ exists elems,
                 obj_get "functionCallingConfig" tc = Some (JArr elems))
        /\ (forall key,
              String.eqb "functionCallingConfig" key = false ->
              obj_get key tc
              = obj_get key match toolConfig request with
                            | Some given => given
                            | None => []
                            end)
  | _ =>
      toolConfig (GeminiInterceptor.request wrapped) = toolConfig request
  end.
Proof.
  unfold transformRequestIn.
  destruct (custom_endpoint URL provider) as [url|]; [|discriminate].
  destruct (detect_budget _ (thinking request)) as [[budget g1] thinking1].
  destruct (tools request) as [[|tool rest]|];
    try (intros [= <- _]; reflexivity).
  destruct (validated (toolConfig request)) as [tc|] eqn:Hv;
    [|discriminate].
  intros [= <- _]. cbn [GeminiInterceptor.request toolConfig].
  exists tc. split; [reflexivity|].
  unfold validated in Hv.
  set (given := match toolConfig request with
                | Some given => given
                | None => []
                end) in *.
  unfold mode_of.
  destruct (obj_get "functionCallingConfig" given) as [v|] eqn:Hfcc.
  - destruct v as [| b | n | s | elems | fcc];
      try (destruct (truthy _); [discriminate|]);
      injection Hv as <-;
      try (split;
           [ left; now rewrite obj_get_set; cbn
           | intros key Hk; now apply obj_get_set_other ]).
    + split; [right; eauto | reflexivity].
    + split; [left; now rewrite !obj_get_set
             | intros key Hk; now apply obj_get_set_other].
  - injection Hv as <-.
    split; [ left; now rewrite obj_get_set
           | intros key Hk; now apply obj_get_set_other ].
Qed.

(** X29.  Without a refresh token the pure-API interceptor still sends
    the request: its token acquisition returns [null] without posting
    anything, and [transformRequestIn] wraps the request all the same,
    setting no [Authorization] header. *)
Theorem request_goes_out_without_a_token (options : Options)
    (cache : Cache) (file : option Credentials) (now : Z)
    (reply : TokenReply) (request : Request) (provider : Provider)
    (url : option string) :
  cache_fresh cache now = false ->
  match file with
  | Some credentials => present (refresh_token credentials) = false
  | None => True
  end ->
  custom_endpoint URL provider = Some url ->
  Interceptor.getFreshAccessToken cache file now reply
  = (Returned None, [], cache, file)
  /\ plain_transformRequestIn URL options None request provider
     = Some (mkPlainWrapped (o_model options) (o_userAgent options)
               (o_requestType options) request,
             mkConfig None url).
Proof.
  intros Hstale Hfile Hurl. split.
  - unfold Interceptor.getFreshAccessToken, Interceptor.start.
    rewrite Hstale. destruct file as [credentials|]; [|reflexivity].
    now rewrite Hfile.
  - unfold plain_transformRequestIn. now rewrite Hurl.
Qed.

End Imposed.

(** A request that asks for no thinking at all. *)
Definition no_thinking : Request :=
  mkRequest
    (Some [ ("temperature", JNum 1);
            ("thinkingConfig",
             JObj [ ("includeThoughts", JBool false);
                    ("thinkingBudget", JNum 0) ]) ])
    None None None [].

Definition no_options : Options :=
  mkOptions None None None None None None.

Definition no_endpoint : Provider := mkProvider None None.

Lemma thinking_is_always_switched_on_witness :
  exists g budget,
    Some [ ("temperature", JNum 1);
           ("thinkingConfig",
            JObj [ ("includeThoughts", JBool true);
                   ("thinkingBudget", JNum 1024) ]) ]
    = Some g
    /\ obj_get "thinkingConfig" g
       = Some (JObj [ ("includeThoughts", JBool true);
                      ("thinkingBudget", budget) ])
    /\ (budget = JNum 1024
        \/ exists v, truthy v = true /\ budget = (fun j => j) v)
    /\ (forall key,
          String.eqb "thinkingConfig" key = false ->
          String.eqb "thinking_budget" key = false ->
          obj_get key g = obj_get key (given_config no_thinking)).
Proof.
  apply (thinking_is_always_switched_on (fun j => j) (fun u => Some u)
           no_options None "s" "r"
           no_thinking no_endpoint
           (mkWrapped "majestic-spot-nc5ww" "req-r"
              "claude-opus-4-5-thinking" "antigravity" "agent" "session-s"
              (mkRequest
                 (Some [ ("temperature", JNum 1);
                         ("thinkingConfig",
                          JObj [ ("includeThoughts", JBool true);
                                 ("thinkingBudget", JNum 1024) ]) ])
                 None None None []))
           (mkConfig None None)).
  reflexivity.
Defined.

(** A request that asks for no tool to be called. *)
Definition tools_off : Request :=
  mkRequest None None (Some [JObj [("functionDeclarations", JArr [])]])
    (Some [("functionCallingConfig", JObj [("mode", JStr "NONE")])]) [].

Lemma tool_mode_is_forced_witness :
  exists tc,
    Some [("functionCallingConfig", JObj [("mode", JStr "VALIDATED")])]
    = Some tc
    /\ (mode_of tc = Some (JStr "VALIDATED")
        \/ exists elems,
             obj_get "functionCallingConfig" tc = Some (JArr elems))
    /\ (forall key,
          String.eqb "functionCallingConfig" key = false ->
          obj_get key tc
          = obj_get key
              [("functionCallingConfig", JObj [("mode", JStr "NONE")])]).
Proof.
  apply (tool_mode_is_forced (fun j => j) (fun u => Some u) no_options None "s" "r" tools_off no_endpoint
           (mkWrapped "majestic-spot-nc5ww" "req-r"
              "claude-opus-4-5-thinking" "antigravity" "agent" "session-s"
              (mkRequest
                 (Some [ ("thinkingConfig",
                          JObj [ ("includeThoughts", JBool true);
                                 ("thinkingBudget", JNum 1024) ]) ])
                 None (Some [JObj [("functionDeclarations", JArr [])]])
                 (Some [ ("functionCallingConfig",
                          JObj [("mode", JStr "VALIDATED")]) ])
                 []))
           (mkConfig None None)).
  reflexivity.
Defined.


Lemma request_goes_out_without_a_token_witness :
  Interceptor.getFreshAccessToken TokenFacts.empty_cache
    (Some TokenFacts.signed_out) 1000 (RequestError "unreachable")
  = (Returned None, [], TokenFacts.empty_cache, Some TokenFacts.signed_out)
  /\ plain_transformRequestIn (fun u => Some u) no_options None no_thinking
       no_endpoint
     = Some (mkPlainWrapped None None None no_thinking, mkConfig None None).
Proof.
  apply (request_goes_out_without_a_token (fun u => Some u) no_options
           TokenFacts.empty_cache (Some TokenFacts.signed_out) 1000
           (RequestError "unreachable") no_thinking no_endpoint None);
    reflexivity.
Defined.

End InterceptorRequests.
